(** * Ledger and allocation engine of the subscription bot

    A shallow embedding of [db.py] (the SQLite-backed store) and of the
    engine parts of [main.py] (calendar arithmetic, deposit review, purchase,
    backfill), followed by the properties of the specification that are
    stated over them.  The later parts embed the remaining handlers that
    change the store -- [start], the top-up receipt, the operator's link
    maintenance and order extension, the expiry watcher -- and state what
    they keep over whole runs.

    Conventions of the embedding.
    - Python [int] and SQLite [INTEGER] values are [Z]; the store holds
      [INTEGER] values only and an addition in it is the exact sum, so the
      embedding is that of calls whose arguments and results are 64-bit
      integers.  [Sqlite] says what the code does outside that range; the
      statements over amounts of any size, over a number a user typed or
      over whole runs have the range as a hypothesis.
    - Python [//] and [%] with a positive divisor are [Z.div] and [Z.modulo].
    - A Python [str] is the list of its Unicode code points.
    - An exception is an explicit [None] / [Raised] result.
    - Every [async] function is run to completion: the embedding is the
      sequential semantics of one call. *)

From stdpp Require Import gmap strings list fin_maps sorting.
From Stdlib Require Import ZArith Lia.

Open Scope Z_scope.

(** ** Python helpers *)

(** [l[i]] on a Python list: negative indices count from the end, anything
    else out of range raises [IndexError] (here [None]). *)
Definition py_index {A : Type} (l : list A) (i : Z) : option A :=
  let n := Z.of_nat (length l) in
  if 0 <=? i then l !! Z.to_nat i
  else if - n <=? i then l !! Z.to_nat (n + i)
  else None.

(** ** Python's [datetime] (naive, whole seconds)

    The handlers only build datetimes with [microsecond = 0] and no
    [tzinfo]; the model keeps the six remaining fields.  The ordinal
    conversions follow CPython's [_ymd2ord] and [_ord2ymd]. *)

Module Datetime.

Record datetime : Type := mkdt {
  year : Z; month : Z; day : Z; hour : Z; minute : Z; second : Z
}.

Definition MAXYEAR : Z := 9999.
Definition MAXORDINAL : Z := 3652059.

Definition is_leap (y : Z) : bool :=
  (y mod 4 =? 0) && (negb (y mod 100 =? 0) || (y mod 400 =? 0)).

Definition DAYS_IN_MONTH : list Z := [-1; 31; 28; 31; 30; 31; 30; 31; 31; 30; 31; 30; 31].
Definition DAYS_BEFORE_MONTH : list Z := [-1; 0; 31; 59; 90; 120; 151; 181; 212; 243; 273; 304; 334].

Definition days_in_month (y m : Z) : Z :=
  if (m =? 2) && is_leap y then 29 else default 0 (DAYS_IN_MONTH !! Z.to_nat m).

Definition days_before_year (y : Z) : Z :=
  let y1 := y - 1 in y1 * 365 + y1 / 4 - y1 / 100 + y1 / 400.

Definition days_before_month (y m : Z) : Z :=
  default 0 (DAYS_BEFORE_MONTH !! Z.to_nat m) + (if (m >? 2) && is_leap y then 1 else 0).

(** The check made by the [date] constructor and by [replace]. *)
Definition valid_date (y m d : Z) : bool :=
  (1 <=? y) && (y <=? MAXYEAR) && (1 <=? m) && (m <=? 12) &&
  (1 <=? d) && (d <=? days_in_month y m).

Definition valid_time (h mi s : Z) : bool :=
  (0 <=? h) && (h <=? 23) && (0 <=? mi) && (mi <=? 59) && (0 <=? s) && (s <=? 59).

Definition valid (dt : datetime) : bool :=
  valid_date (year dt) (month dt) (day dt) && valid_time (hour dt) (minute dt) (second dt).

Definition ymd2ord (y m d : Z) : Z :=
  days_before_year y + days_before_month y m + d.

Definition ord2ymd (n : Z) : Z * Z * Z :=
  let n := n - 1 in
  let n400 := n / 146097 in
  let n := n mod 146097 in
  let y := n400 * 400 + 1 in
  let n100 := n / 36524 in
  let n := n mod 36524 in
  let n4 := n / 1461 in
  let n := n mod 1461 in
  let n1 := n / 365 in
  let n := n mod 365 in
  let y := y + n100 * 100 + n4 * 4 + n1 in
  if (n1 =? 4) || (n100 =? 4) then (y - 1, 12, 31)
  else
    let leapyear := (n1 =? 3) && (negb (n4 =? 24) || (n100 =? 3)) in
    let m := Z.shiftr (n + 50) 5 in
    let preceding :=
      default 0 (DAYS_BEFORE_MONTH !! Z.to_nat m) + (if (m >? 2) && leapyear then 1 else 0) in
    let '(m, preceding) :=
      if preceding >? n then
        (m - 1,
         preceding - (default 0 (DAYS_IN_MONTH !! Z.to_nat (m - 1))
                      + (if (m - 1 =? 2) && leapyear then 1 else 0)))
      else (m, preceding) in
    (y, m, n - preceding + 1).

(** [dt + timedelta(seconds=delta)]: [OverflowError] (here [None]) when the
    day leaves [1 .. MAXORDINAL]. *)
Definition add_seconds (dt : datetime) (delta : Z) : option datetime :=
  let total :=
    ymd2ord (year dt) (month dt) (day dt) * 86400
    + hour dt * 3600 + minute dt * 60 + second dt + delta in
  let days := total / 86400 in
  let secs := total mod 86400 in
  if (0 <? days) && (days <=? MAXORDINAL) then
    let '(y, m, d) := ord2ymd days in
    Some (mkdt y m d (secs / 3600) ((secs mod 3600) / 60) ((secs mod 3600) mod 60))
  else None.

(** [dt.replace(year=y, month=m, day=d)]: [ValueError] (here [None]) when
    the new date does not exist. *)
Definition replace (dt : datetime) (y m d : Z) : option datetime :=
  if valid_date y m d then Some (mkdt y m d (hour dt) (minute dt) (second dt)) else None.

(** [a > b] on tuples of integers. *)
Fixpoint lex_gt (a b : list Z) : bool :=
  match a, b with
  | x :: a', y :: b' => (x >? y) || ((x =? y) && lex_gt a' b')
  | _ :: _, [] => true
  | [], _ => false
  end.

(** [a > b] on datetimes: the comparison of their field tuples. *)
Definition gt (a b : datetime) : bool :=
  lex_gt [year a; month a; day a; hour a; minute a; second a]
         [year b; month b; day b; hour b; minute b; second b].

End Datetime.

(** ** Calendar arithmetic ([main.py]) *)

Module Calendar.

Definition g_d_m : list Z := [0; 31; 59; 90; 120; 151; 181; 212; 243; 273; 304; 334].

Definition gregorian_to_jalali (gy gm gd : Z) : option (Z * Z * Z) :=
  let '(jy, gy) := if gy >? 1600 then (979, gy - 1600) else (0, gy - 621) in
  let gy2 := if gm >? 2 then gy + 1 else gy in
  off ← py_index g_d_m (gm - 1);
  let days :=
    365 * gy + (gy2 + 3) / 4 - (gy2 + 99) / 100 + (gy2 + 399) / 400 - 80 + gd + off in
  let jy := jy + 33 * (days / 12053) in
  let days := days mod 12053 in
  let jy := jy + 4 * (days / 1461) in
  let days := days mod 1461 in
  let '(jy, days) :=
    if days >? 365 then (jy + (days - 1) / 365, (days - 1) mod 365) else (jy, days) in
  if days <? 186
  then Some (jy, 1 + days / 31, 1 + days mod 31)
  else Some (jy, 7 + (days - 186) / 30, 1 + (days - 186) mod 30).

(** The month table [sal_a] of [jalali_to_gregorian], entries 1..12, with
    February set from the leap test. *)
Definition sal_a (leap : bool) : list Z :=
  [31; if leap then 29 else 28; 31; 30; 31; 30; 31; 31; 30; 31; 30; 31].

(** [while gm <= 12 and gd > sal_a[gm]: gd -= sal_a[gm]; gm += 1], run over
    the entries [sal_a[gm..12]] that are still ahead: the list is empty
    exactly when [gm > 12]. *)
Fixpoint month_scan (ahead : list Z) (gm gd : Z) : Z * Z :=
  match ahead with
  | [] => (gm, gd)
  | len :: ahead' => if gd >? len then month_scan ahead' (gm + 1) (gd - len) else (gm, gd)
  end.

Definition jalali_to_gregorian (jy jm jd : Z) : Z * Z * Z :=
  let jy := jy + 1595 in
  let days := -355668 + 365 * jy + (jy / 33) * 8 + ((jy mod 33) + 3) / 4 + jd in
  let days := if jm <? 7 then days + (jm - 1) * 31 else days + ((jm - 7) * 30 + 186) in
  let gy := 400 * (days / 146097) in
  let days := days mod 146097 in
  let '(gy, days) :=
    if days >? 36524 then
      let gy := gy + 100 * ((days - 1) / 36524) in
      let days := (days - 1) mod 36524 in
      (gy, if days >=? 365 then days + 1 else days)
    else (gy, days) in
  let gy := gy + 4 * (days / 1461) in
  let days := days mod 1461 in
  let '(gy, days) :=
    if days >? 365 then (gy + (days - 1) / 365, (days - 1) mod 365) else (gy, days) in
  let gd := days + 1 in
  let leap := ((gy mod 4 =? 0) && negb (gy mod 100 =? 0)) || (gy mod 400 =? 0) in
  let '(gm, gd) := month_scan (sal_a leap) 1 gd in
  (gy, gm, gd).

Definition jalali_month_days (jy jm : Z) : Z :=
  if jm <=? 6 then 31
  else if jm <=? 11 then 30
  else
    let a := jy - 474 in
    let b := a mod 2820 + 474 in
    let leap := ((b + 38) * 682) mod 2816 <? 682 in
    if leap then 30 else 29.

Definition IRAN_OFFSET : Z := 3 * 3600 + 30 * 60.

Definition to_iran (dt_utc : Datetime.datetime) : option Datetime.datetime :=
  Datetime.add_seconds dt_utc IRAN_OFFSET.

Definition from_iran (dt_iran : Datetime.datetime) : option Datetime.datetime :=
  Datetime.add_seconds dt_iran (- IRAN_OFFSET).

Definition add_months_shamsi (dt : Datetime.datetime) (months : Z) : option Datetime.datetime :=
  '(jy, jm, jd) ← gregorian_to_jalali (Datetime.year dt) (Datetime.month dt) (Datetime.day dt);
  let total := (jm - 1) + months in
  let new_jy := jy + total / 12 in
  let new_jm := total mod 12 + 1 in
  let max_day := jalali_month_days new_jy new_jm in
  let new_jd := Z.min jd max_day in
  let '(gy, gm, gd) := jalali_to_gregorian new_jy new_jm new_jd in
  Datetime.replace dt gy gm gd.

End Calendar.

(** ** The store ([db.py])

    One record per table of [init_db].  Tables that are only read by
    primary key are finite maps keyed by it; [orders] and [links], which
    are also read in [ORDER BY id] order, are lists of rows carrying their
    [id].  Columns filled from SQLite's clock ([created_at], [used_at]) are
    left out: no function of the engine reads them.  [INTEGER] columns that
    only ever hold 0 or 1 are [bool].  [expires_at] holds the datetime whose
    ISO text the code stores and parses back. *)

Module Db.

(** A Python [str]: its code points. *)
Abbreviation pystr := (list N).

Record user_row : Type := mk_user {
  u_username : option pystr;
  u_first_name : option pystr;
  u_referrer_id : option Z
}.

Record deposit_row : Type := mk_deposit {
  d_user_id : Z;
  d_amount : Z;
  d_status : string;
  d_receipt_text : option pystr;
  d_receipt_file_id : option pystr
}.

Record sub_row : Type := mk_sub {
  expires_at : Datetime.datetime;
  reminded_before_expiry : bool;
  notified_expired : bool
}.

Record order_row : Type := mk_order {
  o_id : Z;
  o_user_id : Z;
  o_plan_months : Z;
  o_amount : Z;
  o_status : string;
  o_delivered_link : option pystr
}.

Record link_row : Type := mk_link {
  l_id : Z;
  l_link : pystr;
  l_is_used : bool;
  l_used_by_order_id : option Z;
  l_used_by_user_id : option Z
}.

#[global] Instance link_row_eq_dec : EqDecision link_row.
Proof. solve_decision. Defined.

#[global] Instance order_row_eq_dec : EqDecision order_row.
Proof. solve_decision. Defined.

Record store : Type := mk_store {
  users : gmap Z user_row;
  wallets : gmap Z Z;
  referral_profits : gmap Z Z;
  deposit_requests : gmap Z deposit_row;
  deposit_seq : Z;
  subscriptions : gmap Z sub_row;
  orders : list order_row;
  orders_seq : Z;
  links : list link_row;
  links_seq : Z
}.

Definition set_wallets (w : gmap Z Z) (s : store) : store :=
  mk_store (users s) w (referral_profits s) (deposit_requests s) (deposit_seq s)
           (subscriptions s) (orders s) (orders_seq s) (links s) (links_seq s).

Definition set_referral_profits (p : gmap Z Z) (s : store) : store :=
  mk_store (users s) (wallets s) p (deposit_requests s) (deposit_seq s)
           (subscriptions s) (orders s) (orders_seq s) (links s) (links_seq s).

Definition set_deposit_requests (d : gmap Z deposit_row) (seq : Z) (s : store) : store :=
  mk_store (users s) (wallets s) (referral_profits s) d seq
           (subscriptions s) (orders s) (orders_seq s) (links s) (links_seq s).

Definition set_subscriptions (b : gmap Z sub_row) (s : store) : store :=
  mk_store (users s) (wallets s) (referral_profits s) (deposit_requests s) (deposit_seq s)
           b (orders s) (orders_seq s) (links s) (links_seq s).

Definition set_orders (o : list order_row) (seq : Z) (s : store) : store :=
  mk_store (users s) (wallets s) (referral_profits s) (deposit_requests s) (deposit_seq s)
           (subscriptions s) o seq (links s) (links_seq s).

Definition set_links (l : list link_row) (seq : Z) (s : store) : store :=
  mk_store (users s) (wallets s) (referral_profits s) (deposit_requests s) (deposit_seq s)
           (subscriptions s) (orders s) (orders_seq s) l seq.

(** The database [init_db] leaves behind. *)
Definition empty_store : store := mk_store ∅ ∅ ∅ ∅ 0 ∅ [] 0 [] 0.

(** *** SQL helpers *)

(** The rowid an [AUTOINCREMENT] key gets: one more than the largest rowid
    the table has ever held. *)
Definition next_rowid (seq : Z) (ids : list Z) : Z :=
  Z.max seq (foldr Z.max 0 ids) + 1.

(** [ORDER BY id ASC]. *)
Definition key_le {A : Type} (key : A → Z) : relation A :=
  λ a b, key a ≤ key b.

#[global] Instance key_le_dec {A : Type} (key : A → Z) : RelDecision (key_le key) :=
  λ a b, decide (key a ≤ key b).

Definition order_by {A : Type} (key : A → Z) (rows : list A) : list A :=
  merge_sort (key_le key) rows.

(** [LIMIT n]; SQLite reads a negative limit as no limit. *)
Definition sql_limit {A : Type} (n : Z) (rows : list A) : list A :=
  if n <? 0 then rows else take (Z.to_nat n) rows.

(** *** Wallet *)

Definition get_wallet_balance (user_id : Z) (s : store) : Z :=
  default 0 (wallets s !! user_id).

(** [INSERT INTO wallets(user_id, balance) VALUES(?, 0) ON CONFLICT DO NOTHING] *)
Definition ensure_wallet (user_id : Z) (w : gmap Z Z) : gmap Z Z :=
  match w !! user_id with
  | Some _ => w
  | None => <[user_id := 0]> w
  end.

(** [UPDATE wallets SET balance = balance + ? WHERE user_id=?] *)
Definition bump_wallet (user_id delta : Z) (w : gmap Z Z) : gmap Z Z :=
  alter (λ b, b + delta) user_id w.

(** [add_wallet_balance], for an [amount] and a resulting balance that are
    64-bit integers (otherwise see [Sqlite.add_wallet_balance_returns]). *)
Definition add_wallet_balance (user_id amount : Z) (s : store) : store * Z :=
  let w := bump_wallet user_id amount (ensure_wallet user_id (wallets s)) in
  (set_wallets w s, default 0 (w !! user_id)).

(** On the failure path the function returns before [commit]: the wallet
    row it may have inserted is rolled back with the connection, so the
    store is the one it started from. *)
Definition try_deduct_wallet (user_id amount : Z) (s : store) : store * (bool * Z) :=
  let w := ensure_wallet user_id (wallets s) in
  let bal := default 0 (w !! user_id) in
  if bal <? amount then (s, (false, bal))
  else
    let w' := bump_wallet user_id (- amount) w in
    (set_wallets w' s, (true, default 0 (w' !! user_id))).

(** *** Users and referral profit *)

Definition set_users (u : gmap Z user_row) (s : store) : store :=
  mk_store u (wallets s) (referral_profits s) (deposit_requests s) (deposit_seq s)
           (subscriptions s) (orders s) (orders_seq s) (links s) (links_seq s).

Definition upsert_user (user_id : Z) (username first_name : option pystr) (s : store)
    : store :=
  let row :=
    match users s !! user_id with
    | Some u => mk_user username first_name (u_referrer_id u)
    | None => mk_user username first_name None
    end in
  let p := referral_profits s in
  let p' := match p !! user_id with Some _ => p | None => <[user_id := 0]> p end in
  mk_store (<[user_id := row]> (users s)) (ensure_wallet user_id (wallets s)) p'
           (deposit_requests s) (deposit_seq s)
           (subscriptions s) (orders s) (orders_seq s) (links s) (links_seq s).

Definition get_user (user_id : Z) (s : store) : option user_row :=
  users s !! user_id.

(** [set_referrer_if_empty], for a [referrer_id] that is a 64-bit integer:
    binding a larger one to the [UPDATE] raises and nothing is stored. *)
Definition set_referrer_if_empty (user_id referrer_id : Z) (s : store) : store * bool :=
  match users s !! user_id with
  | None => (s, false)
  | Some u =>
      match u_referrer_id u with
      | Some _ => (s, false)
      | None =>
          (set_users (<[user_id := mk_user (u_username u) (u_first_name u) (Some referrer_id)]>
                        (users s)) s,
           true)
      end
  end.

(** The [total_profit] that [get_referral_stats] reads. *)
Definition get_referral_profit (referrer_id : Z) (s : store) : Z :=
  default 0 (referral_profits s !! referrer_id).

(** [add_ref_profit], for a resulting total that is a 64-bit integer. *)
Definition add_ref_profit (referrer_id amount : Z) (s : store) : store :=
  let p := referral_profits s in
  let p' :=
    match p !! referrer_id with
    | Some total => <[referrer_id := total + amount]> p
    | None => <[referrer_id := amount]> p
    end in
  set_referral_profits p' s.

(** *** Deposits *)

(** [create_deposit_request], for an [amount] that is a 64-bit integer:
    binding a larger one raises and no row is inserted. *)
Definition create_deposit_request (user_id amount : Z)
    (receipt_text receipt_file_id : option pystr) (s : store) : store * Z :=
  let id := next_rowid (deposit_seq s) (fst <$> map_to_list (deposit_requests s)) in
  let row := mk_deposit user_id amount "pending_admin" receipt_text receipt_file_id in
  (set_deposit_requests (<[id := row]> (deposit_requests s)) id s, id).

Definition get_deposit_request (dep_id : Z) (s : store) : option deposit_row :=
  deposit_requests s !! dep_id.

Definition set_deposit_status (dep_id : Z) (status : string) (s : store) : store :=
  let upd d :=
    mk_deposit (d_user_id d) (d_amount d) status (d_receipt_text d) (d_receipt_file_id d) in
  set_deposit_requests (alter upd dep_id (deposit_requests s)) (deposit_seq s) s.

(** *** Orders *)

Definition create_order (user_id plan_months amount : Z) (s : store) : store * Z :=
  let id := next_rowid (orders_seq s) (o_id <$> orders s) in
  let row := mk_order id user_id plan_months amount "paid_waiting_link" None in
  (set_orders (orders s ++ [row]) id s, id).

(** [UPDATE orders SET status='delivered', delivered_link=? WHERE id=?] *)
Definition deliver_row (order_id : Z) (delivered_link : pystr) (o : order_row) : order_row :=
  if decide (o_id o = order_id)
  then mk_order (o_id o) (o_user_id o) (o_plan_months o) (o_amount o)
                "delivered" (Some delivered_link)
  else o.

Definition set_order_delivered (order_id : Z) (delivered_link : pystr) (s : store) : store :=
  set_orders (deliver_row order_id delivered_link <$> orders s) (orders_seq s) s.

Definition is_pending (o : order_row) : bool :=
  bool_decide (o_status o = "paid_waiting_link").

Definition list_pending_orders (limit : Z) (s : store) : list order_row :=
  sql_limit limit (order_by o_id (List.filter is_pending (orders s))).

(** *** Subscription *)

Definition get_subscription (user_id : Z) (s : store) : option sub_row :=
  subscriptions s !! user_id.

Definition set_subscription (user_id : Z) (expires : Datetime.datetime) (s : store) : store :=
  set_subscriptions (<[user_id := mk_sub expires false false]> (subscriptions s)) s.

(** *** Links pool *)

(** [str.isspace] on one code point. *)
Definition is_space (c : N) : bool :=
  (((9 <=? c) && (c <=? 13)) || ((28 <=? c) && (c <=? 32)) || (c =? 133) || (c =? 160)
   || (c =? 5760) || ((8192 <=? c) && (c <=? 8202)) || (c =? 8232) || (c =? 8233)
   || (c =? 8239) || (c =? 8287) || (c =? 12288))%N.

Fixpoint lstrip (t : pystr) : pystr :=
  match t with
  | c :: t' => if is_space c then lstrip t' else t
  | [] => []
  end.

(** [str.strip()] *)
Definition strip (t : pystr) : pystr :=
  reverse (lstrip (reverse (lstrip t))).

Definition is_unused (r : link_row) : bool := negb (l_is_used r).

(** [INSERT INTO links(link, is_used) VALUES(?, 0)]: [None] when the
    [UNIQUE] constraint on [link] rejects the row. *)
Definition insert_link (ln : pystr) (s : store) : option store :=
  if decide (ln ∈ (l_link <$> links s)) then None
  else
    let id := next_rowid (links_seq s) (l_id <$> links s) in
    Some (set_links (links s ++ [mk_link id ln false None None]) id s).

(** The [for] loop of [add_links], threading the store and the counter.
    The source first replaces a [None] entry by the empty string; the
    [list[str]] argument has no such entry.  A rejected insert aborts that
    statement only; the rows inserted before it stay in the transaction. *)
Fixpoint add_links_loop (lns : list pystr) (s : store) (inserted : Z) : store * Z :=
  match lns with
  | [] => (s, inserted)
  | ln :: rest =>
      let ln := strip ln in
      if decide (ln = []) then add_links_loop rest s inserted
      else
        match insert_link ln s with
        | Some s' => add_links_loop rest s' (inserted + 1)
        | None => add_links_loop rest s inserted
        end
  end.

Definition add_links (lns : list pystr) (s : store) : store * Z :=
  match lns with
  | [] => (s, 0)
  | _ => add_links_loop lns s 0
  end.

Definition count_links (s : store) : Z * Z :=
  (Z.of_nat (length (List.filter is_unused (links s))),
   Z.of_nat (length (List.filter l_is_used (links s)))).

(** [UPDATE links SET is_used=1, used_by_order_id=?, used_by_user_id=? WHERE id=?] *)
Definition use_row (order_id user_id link_id : Z) (r : link_row) : link_row :=
  if decide (l_id r = link_id)
  then mk_link (l_id r) (l_link r) true (Some order_id) (Some user_id)
  else r.

Definition pop_available_link_for_order (order_id user_id : Z) (s : store)
    : store * option pystr :=
  match sql_limit 1 (order_by l_id (List.filter is_unused (links s))) with
  | [] => (s, None)
  | row :: _ =>
      let link_id := l_id row in
      let link := l_link row in
      let s1 := set_links (use_row order_id user_id link_id <$> links s) (links_seq s) s in
      let s2 := set_orders (deliver_row order_id link <$> orders s1) (orders_seq s1) s1 in
      (s2, Some link)
  end.

End Db.

(** ** Binary64 arithmetic, as far as [int(amount * REF_PERCENT)] needs it

    A finite double is [mant * 2 ^ expo] with [|mant| <= 2 ^ 53].  Only
    the three operations of the commission formula are modelled: the
    conversion of an [int], the product, and the truncation back to [int],
    the first two rounding to nearest, ties to even.  Exponent overflow and
    subnormals are out of reach for 64-bit amounts and are not modelled. *)

Module Float64.

Record f64 : Type := mk_f64 { mant : Z; expo : Z }.

(** The double nearest to [n * 2 ^ e]. *)
Definition round_nearest_even (n e : Z) : f64 :=
  let a := Z.abs n in
  if a <? 2 ^ 53 then mk_f64 n e
  else
    let s := Z.log2 a - 52 in
    let m := Z.shiftr a s in
    let rem := a mod 2 ^ s in
    let half := 2 ^ (s - 1) in
    let m' := if (rem >? half) || ((rem =? half) && Z.odd m) then m + 1 else m in
    mk_f64 (Z.sgn n * m') (e + s).

(** [float(i)] *)
Definition of_int (i : Z) : f64 := round_nearest_even i 0.

(** [x * y] *)
Definition mul (x y : f64) : f64 :=
  round_nearest_even (mant x * mant y) (expo x + expo y).

(** [int(x)]: truncation towards zero. *)
Definition to_int (x : f64) : Z :=
  if 0 <=? expo x then mant x * 2 ^ expo x
  else Z.quot (mant x) (2 ^ (- expo x)).

End Float64.

(** ** SQLite's 64-bit integers

    An [INTEGER] holds a signed 64-bit value, and [sqlite3] binds a Python
    [int] only if it is one: a larger one raises [OverflowError] before the
    statement runs.  An addition of two [INTEGER] values whose sum is not a
    64-bit integer is carried out on doubles, and its result stays a
    [REAL], which [int(row[0])] then reads.  The store record keeps
    [INTEGER] values only; this module says what the code does at the edge
    of that range. *)

Module Sqlite.

Import Db Float64.

Definition int64 (z : Z) : bool := (- 2 ^ 63 <=? z) && (z <? 2 ^ 63).

(** [x + y] on doubles: the exact sum, rounded. *)
Definition real_add (x y : f64) : f64 :=
  let e := Z.min (expo x) (expo y) in
  round_nearest_even (mant x * 2 ^ (expo x - e) + mant y * 2 ^ (expo y - e)) e.

(** [a + b] on two [INTEGER] values, as Python's [int] reads the result. *)
Definition add_integers (a b : Z) : Z :=
  if int64 (a + b) then a + b else to_int (real_add (of_int a) (of_int b)).

(** What [add_wallet_balance] returns on a store of [INTEGER] balances;
    [None] when binding [amount] raises. *)
Definition add_wallet_balance_returns (user_id amount : Z) (s : store) : option Z :=
  if int64 amount
  then Some (add_integers (default 0 (ensure_wallet user_id (wallets s) !! user_id)) amount)
  else None.

(** Every balance, referral total, deposit amount and referrer id of the
    store is a 64-bit integer. *)
Definition stores_int64 (s : store) : Prop :=
  map_Forall (λ _ b, int64 b = true) (wallets s)
  ∧ map_Forall (λ _ p, int64 p = true) (referral_profits s)
  ∧ map_Forall (λ _ dep, int64 (d_amount dep) = true) (deposit_requests s)
  ∧ map_Forall (λ _ usr, from_option int64 true (u_referrer_id usr) = true) (users s).

End Sqlite.

(** ** The engine's handlers ([main.py])

    A handler takes the caller, the arguments parsed from the callback data
    and the store, and returns the store it leaves behind with the reply it
    shows.  Messages sent to users and operators are best effort (every
    send is wrapped in [try/except: pass]) and are not part of the model. *)

Module Main.

Import Datetime Calendar Db.

Definition PLANS : gmap Z Z :=
  list_to_map [(2, 150000); (4, 265000); (6, 350000); (12, 600000)].

(** [REF_PERCENT = 0.15]: the double [0x1.3333333333333p-3]. *)
Definition REF_PERCENT : Float64.f64 := Float64.mk_f64 5404319552844595 (-55).

Inductive reply : Type :=
  | Silent
  | NotAllowed
  | NotActionable
  | DepositApproved (new_balance : Z)
  | DepositRejected
  | InsufficientFunds (bal price : Z)
  | DeductFailed
  | PurchaseDelivered (new_balance : Z) (new_exp_iran : datetime)
  | PurchaseQueued (new_balance : Z) (new_exp_iran : datetime)
  | NoPendingOrders
  | NoLinksLeft
  | Fulfilled (sent av : Z)
  | Raised.

(** [if link:] on the [str | None] that the allocator returns. *)
Definition truthy (link : option pystr) : bool :=
  match link with
  | Some (_ :: _) => true
  | _ => false
  end.

(** [profit = int(amount * REF_PERCENT)] *)
Definition ref_profit (amount : Z) : Z :=
  Float64.to_int (Float64.mul (Float64.of_int amount) REF_PERCENT).

Section handlers.

Context (ADMIN_IDS : gset Z).

Definition is_admin (user_id : Z) : bool := bool_decide (user_id ∈ ADMIN_IDS).

Definition deposit_approve (caller dep_id : Z) (s : store) : store * reply :=
  if negb (is_admin caller) then (s, NotAllowed)
  else
    match get_deposit_request dep_id s with
    | None => (s, NotActionable)
    | Some dep =>
        if negb (bool_decide (d_status dep = "pending_admin")) then (s, NotActionable)
        else
          let user_id := d_user_id dep in
          let amount := d_amount dep in
          let s := set_deposit_status dep_id "approved" s in
          let '(s, new_balance) := add_wallet_balance user_id amount s in
          let referrer_id := u ← get_user user_id s; u_referrer_id u in
          let s :=
            match referrer_id with
            | Some referrer_id =>
                if negb (referrer_id =? 0) && negb (referrer_id =? user_id) then
                  let profit := ref_profit amount in
                  if profit >? 0 then
                    let '(s, _) := add_wallet_balance referrer_id profit s in
                    add_ref_profit referrer_id profit s
                  else s
                else s
            | None => s
            end in
          (s, DepositApproved new_balance)
    end.

Definition deposit_reject (caller dep_id : Z) (s : store) : store * reply :=
  if negb (is_admin caller) then (s, NotAllowed)
  else
    match get_deposit_request dep_id s with
    | None => (s, NotActionable)
    | Some dep =>
        if negb (bool_decide (d_status dep = "pending_admin")) then (s, NotActionable)
        else (set_deposit_status dep_id "rejected" s, DepositRejected)
    end.

(** The renewal base of [confirm_purchase]. *)
Definition renewal_base (now_utc : datetime) (sub : option sub_row) : datetime :=
  match sub with
  | Some sub => if Datetime.gt (expires_at sub) now_utc then expires_at sub else now_utc
  | None => now_utc
  end.

(** [now_utc] is the value of [datetime.utcnow().replace(microsecond=0)] at
    the one point where the handler reads the clock. *)
Definition confirm_purchase (now_utc : datetime) (user_id months : Z) (s : store)
    : store * reply :=
  match PLANS !! months with
  | None => (s, Raised)
  | Some price =>
      let bal := get_wallet_balance user_id s in
      if bal <? price then (s, InsufficientFunds bal price)
      else
        let '(s, (ok, new_balance)) := try_deduct_wallet user_id price s in
        if negb ok then (s, DeductFailed)
        else
          let '(s, order_id) := create_order user_id months price s in
          let base_utc := renewal_base now_utc (get_subscription user_id s) in
          match
            base_iran ← to_iran base_utc;
            new_exp_iran ← add_months_shamsi base_iran months;
            new_exp_utc ← from_iran new_exp_iran;
            Some (new_exp_iran, new_exp_utc)
          with
          | None => (s, Raised)
          | Some (new_exp_iran, new_exp_utc) =>
              let s := set_subscription user_id new_exp_utc s in
              let '(s, link) := pop_available_link_for_order order_id user_id s in
              if truthy link then
                (set_order_delivered order_id (default [] link) s,
                 PurchaseDelivered new_balance new_exp_iran)
              else (s, PurchaseQueued new_balance new_exp_iran)
          end
  end.

(** The [for o in pending] loop of [admin_links_fulfill]; a falsy link is
    its [break]. *)
Fixpoint fulfill_loop (pending : list order_row) (s : store) (sent : Z) : store * Z :=
  match pending with
  | [] => (s, sent)
  | o :: rest =>
      let '(s, link) := pop_available_link_for_order (o_id o) (o_user_id o) s in
      if truthy link then
        fulfill_loop rest (set_order_delivered (o_id o) (default [] link) s) (sent + 1)
      else (s, sent)
  end.

Definition admin_links_fulfill (caller : Z) (s : store) : store * reply :=
  if negb (is_admin caller) then (s, Silent)
  else
    match list_pending_orders 50 s with
    | [] => (s, NoPendingOrders)
    | pending =>
        let '(s, sent) := fulfill_loop pending s 0 in
        let av := fst (count_links s) in
        if (sent =? 0) && (av =? 0) then (s, NoLinksLeft) else (s, Fulfilled sent av)
    end.

End handlers.

(** The [sent] counter a run of [admin_links_fulfill] ends with. *)
Definition sent_count (r : reply) : Z :=
  match r with
  | Fulfilled sent _ => sent
  | _ => 0
  end.

End Main.

(** ** Scenarios the properties are stated over *)

Module Scenario.

Import Db Main.

(** A call of the wallet ledger. *)
Inductive wallet_op : Type :=
  | Credit (amount : Z)
  | TryDebit (amount : Z).

Definition op_amount (op : wallet_op) : Z :=
  match op with Credit a | TryDebit a => a end.

(** One call on the wallet of [user_id]: the store it leaves and whether
    it succeeded (a credit always does). *)
Definition wallet_step (user_id : Z) (op : wallet_op) (s : store) : store * bool :=
  match op with
  | Credit a => (fst (add_wallet_balance user_id a s), true)
  | TryDebit a => let '(s', (ok, _)) := try_deduct_wallet user_id a s in (s', ok)
  end.

(** The calls of a run, each with its outcome and the store after it. *)
Fixpoint wallet_run (user_id : Z) (ops : list wallet_op) (s : store)
    : list (wallet_op * bool * store) :=
  match ops with
  | [] => []
  | op :: rest =>
      let '(s', ok) := wallet_step user_id op s in
      (op, ok, s') :: wallet_run user_id rest s'
  end.

(** What a finished call contributes to the balance. *)
Definition net_effect (e : wallet_op * bool * store) : Z :=
  match e with
  | (Credit a, _, _) => a
  | (TryDebit a, true, _) => - a
  | (TryDebit _, false, _) => 0
  end.

(** What a call asks to add to the balance. *)
Definition credited (op : wallet_op) : Z :=
  match op with Credit a => a | TryDebit _ => 0 end.

Definition final_store (s : store) (trace : list (wallet_op * bool * store)) : store :=
  match last trace with
  | Some (_, _, s') => s'
  | None => s
  end.

(** A sequence of [allocate] calls, each given as [(order_id, user_id)],
    with what each call returned. *)
Fixpoint allocate_all (calls : list (Z * Z)) (s : store)
    : store * list (Z * Z * option pystr) :=
  match calls with
  | [] => (s, [])
  | (order_id, user_id) :: rest =>
      let '(s1, tok) := pop_available_link_for_order order_id user_id s in
      let '(s2, log) := allocate_all rest s1 in
      (s2, (order_id, user_id, tok) :: log)
  end.

(** The tokens a log hands out. *)
Definition tokens_of (log : list (Z * Z * option pystr)) : list pystr :=
  omap snd log.

(** The token values [add_links] is meant to store, in input order: the
    stripped values that are not empty, not stored yet and not met earlier
    in the same call. *)
Fixpoint fresh_values (seen : list pystr) (values : list pystr) : list pystr :=
  match values with
  | [] => []
  | v :: rest =>
      if decide (v = [] ∨ v ∈ seen) then fresh_values seen rest
      else v :: fresh_values (seen ++ [v]) rest
  end.

(** [v] is [ln] without its leading and trailing whitespace: what is cut
    off at either end is whitespace only, and [v] neither starts nor ends
    with whitespace. *)
Definition stripped (ln v : pystr) : Prop :=
  ∃ pre post,
    ln = pre ++ v ++ post
    ∧ Forall (λ c, is_space c = true) pre ∧ Forall (λ c, is_space c = true) post
    ∧ (∀ c, head v = Some c → is_space c = false)
    ∧ (∀ c, last v = Some c → is_space c = false).

(** The row an allocation takes, once used. *)
Definition taken (order_id user_id : Z) (row : link_row) : link_row :=
  mk_link (l_id row) (l_link row) true (Some order_id) (Some user_id).

(** The deposit is absent or already resolved. *)
Definition not_pending (dep_id : Z) (s : store) : Prop :=
  ∀ dep, get_deposit_request dep_id s = Some dep → d_status dep ≠ "pending_admin".

(** Keys are unique, as [PRIMARY KEY] and [UNIQUE] enforce. *)
Definition links_wf (s : store) : Prop :=
  NoDup (l_id <$> links s) ∧ NoDup (l_link <$> links s).

(** No stored token is the empty string ([add_links] never stores one). *)
Definition links_nonempty (s : store) : Prop :=
  Forall (λ r, l_link r ≠ []) (links s).

(** A backlog: [n] unused tokens and [n] orders of one user waiting for
    one. *)
Fixpoint place_orders (n : nat) (s : store) : store :=
  match n with
  | O => s
  | S n' => place_orders n' (fst (create_order 7 2 150000 s))
  end.

Definition backlog (n : nat) : store :=
  place_orders n (fst (add_links ((λ i, [N.of_nat i + 65]%N) <$> seq 0 n) empty_store)).


End Scenario.

(** ** Day numbers

    Both conversions of [main.py] go through a day count: the first half of
    [gregorian_to_jalali] counts the days of a Gregorian date, its second
    half reads a civil date off the count, and [jalali_to_gregorian] does
    the same the other way round.  The halves are named here so that the
    proofs can treat them one at a time. *)

Module DayNumber.

Import Calendar.

(** The day count of [gregorian_to_jalali], for a year already reduced by
    1600. *)
Definition greg_days (y m d : Z) : Z :=
  let y2 := if m >? 2 then y + 1 else y in
  365 * y + (y2 + 3) / 4 - (y2 + 99) / 100 + (y2 + 399) / 400 - 80 + d
  + default 0 (g_d_m !! Z.to_nat (m - 1)).

(** The civil date of a day count, counted on from civil year [jy]. *)
Definition jalali_of_days (jy days : Z) : Z * Z * Z :=
  let jy := jy + 33 * (days / 12053) in
  let days := days mod 12053 in
  let jy := jy + 4 * (days / 1461) in
  let days := days mod 1461 in
  let '(jy, days) :=
    if days >? 365 then (jy + (days - 1) / 365, (days - 1) mod 365) else (jy, days) in
  if days <? 186
  then (jy, 1 + days / 31, 1 + days mod 31)
  else (jy, 7 + (days - 186) / 30, 1 + (days - 186) mod 30).

(** The day count of [jalali_to_gregorian]. *)
Definition jalali_days (jy jm jd : Z) : Z :=
  let jy := jy + 1595 in
  let days := -355668 + 365 * jy + (jy / 33) * 8 + ((jy mod 33) + 3) / 4 + jd in
  if jm <? 7 then days + (jm - 1) * 31 else days + ((jm - 7) * 30 + 186).

(** The leap test of [jalali_to_gregorian]. *)
Definition leapb (gy : Z) : bool :=
  ((gy mod 4 =? 0) && negb (gy mod 100 =? 0)) || (gy mod 400 =? 0).

(** [jalali_to_gregorian] after [days %= 146097]. *)
Definition greg_tail (gy days : Z) : Z * Z * Z :=
  let '(gy, days) :=
    if days >? 36524 then
      let gy := gy + 100 * ((days - 1) / 36524) in
      let days := (days - 1) mod 36524 in
      (gy, if days >=? 365 then days + 1 else days)
    else (gy, days) in
  let gy := gy + 4 * (days / 1461) in
  let days := days mod 1461 in
  let '(gy, days) :=
    if days >? 365 then (gy + (days - 1) / 365, (days - 1) mod 365) else (gy, days) in
  let gd := days + 1 in
  let '(gm, gd) := month_scan (sal_a (leapb gy)) 1 gd in
  (gy, gm, gd).

(** The Gregorian date of a day count. *)
Definition gregorian_of_days (days : Z) : Z * Z * Z :=
  greg_tail (400 * (days / 146097)) (days mod 146097).

(** A date [k] years later. *)
Definition shift_year (k : Z) (date : Z * Z * Z) : Z * Z * Z :=
  let '(y, m, d) := date in (y + k, m, d).

(** The offset between the two day counts. *)
Definition K : Z := 584467.

(** [f] holds on [lo, lo + 1, ..., lo + n - 1]. *)
Fixpoint forall_range (f : Z → bool) (lo : Z) (n : nat) : bool :=
  match n with
  | O => true
  | S n' => f lo && forall_range f (lo + 1) n'
  end.

End DayNumber.

(** ** Link maintenance ([db.py])

    The operator's side of the links pool: listing, deleting and editing
    tokens. *)

Module Links.

Import Db.

(** The row [SELECT ... FROM links WHERE id=?] fetches. *)
Definition find_link (link_id : Z) (s : store) : option link_row :=
  head (List.filter (λ r, bool_decide (l_id r = link_id)) (links s)).

Definition other_link (link_id : Z) (r : link_row) : bool :=
  negb (bool_decide (l_id r = link_id)).

Definition list_available_links (limit : Z) (s : store) : list (Z * pystr) :=
  (λ r, (l_id r, l_link r))
    <$> sql_limit limit (order_by l_id (List.filter is_unused (links s))).

(** [DELETE FROM links WHERE id=?] leaves [sqlite_sequence] as it is. *)
Definition delete_link (link_id : Z) (s : store) : store * bool :=
  match find_link link_id s with
  | None => (s, false)
  | Some row =>
      if l_is_used row then (s, false)
      else (set_links (List.filter (other_link link_id) (links s)) (links_seq s) s, true)
  end.

(** [UPDATE links SET link=? WHERE id=?] on one row. *)
Definition set_link_text (link_id : Z) (new_link : pystr) (r : link_row) : link_row :=
  if decide (l_id r = link_id)
  then mk_link (l_id r) new_link (l_is_used r) (l_used_by_order_id r) (l_used_by_user_id r)
  else r.

(** The [UPDATE] raises, and the function returns [False], when [UNIQUE]
    rejects the new value: another row holds it. *)
Definition update_link (link_id : Z) (new_link : pystr) (s : store) : store * bool :=
  let new_link := strip new_link in
  if decide (new_link = []) then (s, false)
  else
    match find_link link_id s with
    | None => (s, false)
    | Some row =>
        if l_is_used row then (s, false)
        else if decide (new_link ∈ (l_link <$> List.filter (other_link link_id) (links s)))
        then (s, false)
        else (set_links (set_link_text link_id new_link <$> links s) (links_seq s) s, true)
    end.

End Links.

(** ** The referrals table ([db.py])

    [referrals] is the one table the store record leaves out; a database is
    the store together with it. *)

Module Referrals.

Import Db.

Record referral_row : Type := mk_referral {
  r_id : Z;
  r_referrer_id : Z;
  r_referred_id : Z
}.

Record database : Type := mk_database {
  tables : store;
  referrals : list referral_row;
  referrals_seq : Z
}.

Definition set_tables (s : store) (d : database) : database :=
  mk_database s (referrals d) (referrals_seq d).

Definition empty_database : database := mk_database empty_store [] 0.

(** The [INSERT] raises, and the function returns [False], when [UNIQUE]
    on [referred_id] rejects the row. *)
Definition add_referral (referrer_id referred_id : Z) (d : database) : database * bool :=
  if decide (referred_id ∈ (r_referred_id <$> referrals d)) then (d, false)
  else
    let id := next_rowid (referrals_seq d) (r_id <$> referrals d) in
    (mk_database (tables d) (referrals d ++ [mk_referral id referrer_id referred_id]) id,
     true).

Definition get_referral_stats (referrer_id : Z) (d : database) : Z * Z :=
  (Z.of_nat (length (List.filter (λ r, bool_decide (r_referrer_id r = referrer_id))
                                 (referrals d))),
   get_referral_profit referrer_id (tables d)).

End Referrals.

(** ** Expiry bookkeeping ([db.py])

    [expires_at] is compared as text.  Every stored value and both bounds
    are [isoformat()] texts of datetimes with no microseconds, of the one
    shape [YYYY-MM-DDTHH:MM:SS], on which the order of the texts is the
    order of the field tuples. *)

Module Expiry.

Import Datetime Db.

(** [a <= b] on ISO texts. *)
Definition iso_le (a b : datetime) : bool := negb (Datetime.gt a b).

(** The rows of [subscriptions], as a table scan yields them: by rowid,
    which is [user_id]. *)
Definition subscription_rows (s : store) : list (Z * sub_row) :=
  order_by fst (map_to_list (subscriptions s)).

Definition expiring_soon (soon now : datetime) (r : Z * sub_row) : bool :=
  negb (reminded_before_expiry r.2)
  && iso_le (expires_at r.2) soon && Datetime.gt (expires_at r.2) now.

Definition expired (now : datetime) (r : Z * sub_row) : bool :=
  negb (notified_expired r.2) && iso_le (expires_at r.2) now.

Definition fetch_expiring_soon_not_reminded (soon now : datetime) (s : store)
    : list (Z * datetime) :=
  (λ r, (r.1, expires_at r.2)) <$> List.filter (expiring_soon soon now) (subscription_rows s).

Definition fetch_expired_not_notified (now : datetime) (s : store) : list (Z * datetime) :=
  (λ r, (r.1, expires_at r.2)) <$> List.filter (expired now) (subscription_rows s).

Definition mark_reminded_before_expiry (user_id : Z) (s : store) : store :=
  set_subscriptions
    (alter (λ r, mk_sub (expires_at r) true (notified_expired r)) user_id (subscriptions s)) s.

Definition mark_notified_expired (user_id : Z) (s : store) : store :=
  set_subscriptions
    (alter (λ r, mk_sub (expires_at r) (reminded_before_expiry r) true) user_id
           (subscriptions s)) s.

End Expiry.

(** ** More handlers ([main.py])

    The handlers outside deposit review, purchase and backfill that read
    or change the store.  The conventions are those of [Main]. *)

Module Handlers.

Import Datetime Calendar Db Main Links Referrals Expiry.

Inductive answer : Type :=
  | Ignored
  | ReceiptRefused
  | ReceiptFiled (dep_id : Z)
  | Preview (price : Z) (new_exp_iran : datetime)
  | OrderNotFound
  | Extended (user_id : Z) (new_exp_iran : datetime)
  | AddingDone
  | LinksAdded (inserted av used : Z)
  | LinkDeleted (link_id : Z)
  | LinkNotDeleted
  | LinkChanged (link_id : Z)
  | LinkNotChanged
  | Crashed.

(** What a receipt message carries: a text, or a photo or document (its
    [file_id]) with an optional caption, or neither. *)
Inductive receipt : Type :=
  | ReceiptText (text : pystr)
  | ReceiptFile (file_id : pystr) (caption : option pystr)
  | ReceiptOther.

(** [start]; [payload] is the number the part after [/start] reads as, if
    that part is there and is a digit string.  Without one the handler
    changes nothing after the upsert (also when [int] raises on a digit
    string it does not read). *)
Definition start (user_id : Z) (username first_name : option pystr) (payload : option Z)
    (d : database) : database :=
  let d := set_tables (upsert_user user_id username first_name (tables d)) d in
  match payload with
  | Some referrer_id =>
      if negb (referrer_id =? user_id) then
        let '(s, changed) := set_referrer_if_empty user_id referrer_id (tables d) in
        let d := set_tables s d in
        if changed then fst (add_referral referrer_id user_id d) else d
      else d
  | None => d
  end.

(** [topup_receipt_received]; [amount] is the value the conversation state
    holds.  An empty text is falsy, as a missing one. *)
Definition topup_receipt_received (user_id amount : Z) (r : receipt) (s : store)
    : store * answer :=
  let file (receipt_text receipt_file_id : option pystr) :=
    let '(s, dep_id) := create_deposit_request user_id amount receipt_text receipt_file_id s in
    (s, ReceiptFiled dep_id) in
  match r with
  | ReceiptText ((_ :: _) as text) => file (Some (strip text)) None
  | ReceiptFile file_id caption =>
      let text := strip (default [] caption) in
      file (match text with [] => None | _ => Some text end) (Some file_id)
  | _ => (s, ReceiptRefused)
  end.

(** [plan_selected]: the expiry shown before the purchase is confirmed. *)
Definition plan_selected (now_utc : datetime) (user_id months : Z) (s : store) : answer :=
  match PLANS !! months with
  | None => Crashed
  | Some price =>
      let base_utc := renewal_base now_utc (get_subscription user_id s) in
      match base_iran ← to_iran base_utc; add_months_shamsi base_iran months with
      | None => Crashed
      | Some new_exp_iran => Preview price new_exp_iran
      end
  end.

Definition PERSIAN_MONTHS : list pystr :=
  [ [];
    [1601; 1585; 1608; 1585; 1583; 1740; 1606];
    [1575; 1585; 1583; 1740; 1576; 1607; 1588; 1578];
    [1582; 1585; 1583; 1575; 1583];
    [1578; 1740; 1585];
    [1605; 1585; 1583; 1575; 1583];
    [1588; 1607; 1585; 1740; 1608; 1585];
    [1605; 1607; 1585];
    [1570; 1576; 1575; 1606];
    [1570; 1584; 1585];
    [1583; 1740];
    [1576; 1607; 1605; 1606];
    [1575; 1587; 1601; 1606; 1583] ]%N.

(** [to_jalali_pretty]: the values its text is formatted from -- day, month
    name, year, hour and minute -- or [None] when the conversion or the
    lookup of the month name raises. *)
Definition to_jalali_pretty (dt_greg : datetime) : option (Z * pystr * Z * Z * Z) :=
  '(jy, jm, jd) ← gregorian_to_jalali (year dt_greg) (month dt_greg) (day dt_greg);
  month_name ← py_index PERSIAN_MONTHS jm;
  Some (jd, month_name, jy, hour dt_greg, minute dt_greg).

Definition get_order_with_user (order_id : Z) (s : store) : option order_row :=
  head (List.filter (λ o, bool_decide (o_id o = order_id)) (orders s)).

(** [str.splitlines()] *)
Definition is_linebreak (c : N) : bool :=
  (((10 <=? c) && (c <=? 13)) || ((28 <=? c) && (c <=? 30)) || (c =? 133)
   || (c =? 8232) || (c =? 8233))%N.

Fixpoint splitlines_from (line : pystr) (t : pystr) : list pystr :=
  match t with
  | [] => match line with [] => [] | _ => [reverse line] end
  | c :: t' =>
      if is_linebreak c then
        reverse line ::
          match c, t' with
          | 13%N, 10%N :: t'' => splitlines_from [] t''
          | _, _ => splitlines_from [] t'
          end
      else splitlines_from (c :: line) t'
  end.

Definition splitlines (t : pystr) : list pystr := splitlines_from [] t.

(** [txt.lower() == "done"]: no character outside the ASCII letters
    lowers to one of [d], [o], [n], [e]. *)
Definition lower_is_done (t : pystr) : bool :=
  match t with
  | [d; o; n; e] =>
      (((d =? 100) || (d =? 68)) && ((o =? 111) || (o =? 79))
       && ((n =? 110) || (n =? 78)) && ((e =? 101) || (e =? 69)))%N
  | _ => false
  end.

Definition nonblank (l : pystr) : bool :=
  match strip l with [] => false | _ => true end.

Section handlers.

Context (ADMIN_IDS : gset Z).

Definition admin_order_extend (caller : Z) (now_utc : datetime) (order_id addm : Z)
    (s : store) : store * answer :=
  if negb (is_admin ADMIN_IDS caller) then (s, Ignored)
  else
    match get_order_with_user order_id s with
    | None => (s, OrderNotFound)
    | Some o =>
        let user_id := o_user_id o in
        let base_utc := renewal_base now_utc (get_subscription user_id s) in
        match
          base_iran ← to_iran base_utc;
          new_exp_iran ← add_months_shamsi base_iran addm;
          new_exp_utc ← from_iran new_exp_iran;
          Some (new_exp_iran, new_exp_utc)
        with
        | None => (s, Crashed)
        | Some (new_exp_iran, new_exp_utc) =>
            (set_subscription user_id new_exp_utc s, Extended user_id new_exp_iran)
        end
    end.

Definition admin_links_add_receive (caller : Z) (text : option pystr) (s : store)
    : store * answer :=
  if negb (is_admin ADMIN_IDS caller) then (s, Ignored)
  else
    let txt := strip (default [] text) in
    if lower_is_done txt then (s, AddingDone)
    else
      let lines := strip <$> List.filter nonblank (splitlines txt) in
      let '(s, inserted) := add_links lines s in
      let '(av, used) := count_links s in
      (s, LinksAdded inserted av used).

Definition admin_links_del (caller link_id : Z) (s : store) : store * answer :=
  if negb (is_admin ADMIN_IDS caller) then (s, Ignored)
  else
    let '(s, ok) := delete_link link_id s in
    (s, if ok then LinkDeleted link_id else LinkNotDeleted).

(** [admin_links_edit_save]; [link_id] is the value the conversation state
    holds. *)
Definition admin_links_edit_save (caller link_id : Z) (text : option pystr) (s : store)
    : store * answer :=
  if negb (is_admin ADMIN_IDS caller) then (s, Ignored)
  else
    let new_link := strip (default [] text) in
    let '(s, ok) := update_link link_id new_link s in
    (s, if ok then LinkChanged link_id else LinkNotChanged).

End handlers.

(** The two loops of one pass of [subscription_watcher].  A row whose
    expiry cannot be shifted to Iran time raises and ends the pass; the
    marks made before it are committed. *)
Fixpoint remind_loop (rows : list (Z * datetime)) (s : store) : store * bool :=
  match rows with
  | [] => (s, true)
  | (uid, exp) :: rest =>
      match to_iran exp with
      | None => (s, false)
      | Some _ => remind_loop rest (mark_reminded_before_expiry uid s)
      end
  end.

Fixpoint notify_loop (rows : list (Z * datetime)) (s : store) : store * bool :=
  match rows with
  | [] => (s, true)
  | (uid, exp) :: rest =>
      match to_iran exp with
      | None => (s, false)
      | Some _ => notify_loop rest (mark_notified_expired uid s)
      end
  end.

(** One pass of the [while True] loop of [subscription_watcher], with
    whether it ran to its end ([False]: the [except] branch logged an
    error). *)
Definition subscription_watcher (now_utc : datetime) (s : store) : store * bool :=
  match add_seconds now_utc 86400 with
  | None => (s, false)
  | Some soon =>
      let '(s, ok) := remind_loop (fetch_expiring_soon_not_reminded soon now_utc s) s in
      if ok then notify_loop (fetch_expired_not_notified now_utc s) s else (s, false)
  end.

End Handlers.

(** ** The engine as a whole

    Every statement of [main.py] that changes the database sits in one of
    eleven handlers.  An event is a call of one of them; a run applies
    events in turn. *)

Module Engine.

Import Datetime Db Main Referrals Handlers.

Inductive event : Type :=
  | Start (user_id : Z) (username first_name : option pystr) (payload : option Z)
  | TopUpReceipt (user_id amount : Z) (r : receipt)
  | DepositApprove (caller dep_id : Z)
  | DepositReject (caller dep_id : Z)
  | ConfirmPurchase (now_utc : datetime) (user_id months : Z)
  | OrderExtend (caller : Z) (now_utc : datetime) (order_id addm : Z)
  | LinksAdd (caller : Z) (text : option pystr)
  | LinksDel (caller link_id : Z)
  | LinksEdit (caller link_id : Z) (text : option pystr)
  | LinksFulfill (caller : Z)
  | WatcherPass (now_utc : datetime).

Section engine.

Context (ADMIN_IDS : gset Z).

Definition step_store (e : event) (s : store) : store :=
  match e with
  | Start _ _ _ _ => s
  | TopUpReceipt user_id amount r => fst (topup_receipt_received user_id amount r s)
  | DepositApprove caller dep_id => fst (deposit_approve ADMIN_IDS caller dep_id s)
  | DepositReject caller dep_id => fst (deposit_reject ADMIN_IDS caller dep_id s)
  | ConfirmPurchase now_utc user_id months => fst (confirm_purchase now_utc user_id months s)
  | OrderExtend caller now_utc order_id addm =>
      fst (admin_order_extend ADMIN_IDS caller now_utc order_id addm s)
  | LinksAdd caller text => fst (admin_links_add_receive ADMIN_IDS caller text s)
  | LinksDel caller link_id => fst (admin_links_del ADMIN_IDS caller link_id s)
  | LinksEdit caller link_id text =>
      fst (admin_links_edit_save ADMIN_IDS caller link_id text s)
  | LinksFulfill caller => fst (admin_links_fulfill ADMIN_IDS caller s)
  | WatcherPass now_utc => fst (subscription_watcher now_utc s)
  end.

Definition step (e : event) (d : database) : database :=
  match e with
  | Start user_id username first_name payload => start user_id username first_name payload d
  | _ => set_tables (step_store e (tables d)) d
  end.

Fixpoint run (events : list event) (d : database) : database :=
  match events with
  | [] => d
  | e :: rest => run rest (step e d)
  end.

End engine.

(** The amounts of the ledger. *)
Definition sum_of {A : Type} (f : A → Z) (m : gmap Z A) : Z :=
  map_fold (λ _ v acc, f v + acc) 0 m.

Definition approved_amount (dep : deposit_row) : Z :=
  if bool_decide (d_status dep = "approved") then d_amount dep else 0.

Definition total_balance (s : store) : Z := sum_of id (wallets s).

Definition total_approved (s : store) : Z := sum_of approved_amount (deposit_requests s).

Definition total_commission (s : store) : Z := sum_of id (referral_profits s).

Definition total_spent (s : store) : Z := foldr (λ o acc, o_amount o + acc) 0 (orders s).

(** The amount a top-up files is not negative ([parse_amount] returns a
    positive number or nothing, and the state's default is 0). *)
Definition amount_ok (e : event) : Prop :=
  match e with
  | TopUpReceipt _ amount _ => 0 ≤ amount
  | _ => True
  end.

End Engine.

(** ** Relations the properties are stated with *)

Module Invariant.

Import Datetime Db.

(** From [m] to [m'] no subscription appears or disappears, no expiry
    changes and no flag is cleared. *)
Definition flags_grow (m m' : gmap Z sub_row) : Prop :=
  ∀ u,
    match m !! u, m' !! u with
    | Some r, Some r' =>
        expires_at r' = expires_at r
        ∧ (reminded_before_expiry r = true → reminded_before_expiry r' = true)
        ∧ (notified_expired r = true → notified_expired r' = true)
    | None, None => True
    | _, _ => False
    end.

(** The wallets hold what approved deposits and commissions put in, less
    what the orders cost. *)
Definition ledger_balanced (s : store) : Prop :=
  Engine.total_balance s + Engine.total_spent s
  = Engine.total_approved s + Engine.total_commission s.

(** No wallet and no referral total is negative, and no deposit waiting
    for review has a negative amount. *)
Definition balances_ok (s : store) : Prop :=
  (∀ u b, wallets s !! u = Some b → 0 ≤ b)
  ∧ (∀ r p, referral_profits s !! r = Some p → 0 ≤ p)
  ∧ (∀ i dep, deposit_requests s !! i = Some dep →
       d_status dep = "pending_admin" → 0 ≤ d_amount dep).

(** Tokens and orders agree: keys are unique and no token is empty; a used
    token names an order that is delivered with it, and the order's user;
    an unused token names nobody; an order without a token is waiting, and
    an order with one is delivered and names a used token that names it. *)
Definition pool_ok (s : store) : Prop :=
  Scenario.links_wf s ∧ Scenario.links_nonempty s ∧ NoDup (o_id <$> orders s)
  ∧ (∀ r, r ∈ links s → l_is_used r = true →
       ∃ o, o ∈ orders s
            ∧ l_used_by_order_id r = Some (o_id o)
            ∧ l_used_by_user_id r = Some (o_user_id o)
            ∧ o_status o = "delivered" ∧ o_delivered_link o = Some (l_link r))
  ∧ (∀ r, r ∈ links s → l_is_used r = false →
       l_used_by_order_id r = None ∧ l_used_by_user_id r = None)
  ∧ (∀ o, o ∈ orders s →
       match o_delivered_link o with
       | None => o_status o = "paid_waiting_link"
       | Some t =>
           o_status o = "delivered"
           ∧ ∃ r, r ∈ links s ∧ l_is_used r = true ∧ l_link r = t
                  ∧ l_used_by_order_id r = Some (o_id o)
       end).

(** The [referrals] table and the [referrer_id] column agree: a user is
    referred at most once, never by themselves, and has a referral row
    exactly when the column is set, with the same referrer. *)
Definition referrals_ok (d : Referrals.database) : Prop :=
  NoDup (Referrals.r_referred_id <$> Referrals.referrals d)
  ∧ (∀ row, row ∈ Referrals.referrals d →
       Referrals.r_referrer_id row ≠ Referrals.r_referred_id row
       ∧ ∃ usr, users (Referrals.tables d) !! Referrals.r_referred_id row = Some usr
                ∧ u_referrer_id usr = Some (Referrals.r_referrer_id row))
  ∧ (∀ u usr r, users (Referrals.tables d) !! u = Some usr → u_referrer_id usr = Some r →
       r ≠ u
       ∧ ∃ row, row ∈ Referrals.referrals d
                ∧ Referrals.r_referred_id row = u ∧ Referrals.r_referrer_id row = r).

(** Every stored expiry is a datetime of the years 2 to 9998. *)
Definition expiries_ok (s : store) : Prop :=
  ∀ u r, subscriptions s !! u = Some r →
    Datetime.valid (expires_at r) = true ∧ 2 ≤ year (expires_at r) ≤ 9998.

End Invariant.

(** * Properties *)

Import Datetime Calendar Db Main Scenario Sqlite.

(** Closes a decidable goal about concrete data by evaluation. *)
Ltac by_decide := apply (bool_decide_unpack _); vm_compute; exact I.

(** ** Wallet ledger *)

Section wallet.

Implicit Types (s : store) (w : gmap Z Z) (u v a b : Z).

Lemma ensure_wallet_lookup w u : default 0 (ensure_wallet u w !! u) = default 0 (w !! u).
Proof.
  unfold ensure_wallet. destruct (w !! u) eqn:E; [by rewrite E|].
  by rewrite lookup_insert_eq.
Qed.

Lemma ensure_wallet_is_Some w u : is_Some (ensure_wallet u w !! u).
Proof.
  unfold ensure_wallet. destruct (w !! u) eqn:E; [by rewrite E|].
  rewrite lookup_insert_eq. eauto.
Qed.

Lemma ensure_wallet_other w u v : v ≠ u → ensure_wallet u w !! v = w !! v.
Proof.
  intros Hne. unfold ensure_wallet. destruct (w !! u); [done|].
  by rewrite lookup_insert_ne.
Qed.

Lemma bump_wallet_lookup w u a :
  is_Some (w !! u) → default 0 (bump_wallet u a w !! u) = default 0 (w !! u) + a.
Proof.
  intros [b Hb]. unfold bump_wallet. rewrite lookup_alter_eq, Hb. done.
Qed.

Lemma bump_wallet_other w u v a : v ≠ u → bump_wallet u a w !! v = w !! v.
Proof. intros Hne. unfold bump_wallet. by rewrite lookup_alter_ne. Qed.

Lemma add_wallet_balance_self u a s :
  get_wallet_balance u (fst (add_wallet_balance u a s)) = get_wallet_balance u s + a
  ∧ snd (add_wallet_balance u a s) = get_wallet_balance u s + a.
Proof.
  unfold add_wallet_balance, get_wallet_balance. simpl.
  rewrite bump_wallet_lookup by apply ensure_wallet_is_Some.
  by rewrite ensure_wallet_lookup.
Qed.

Lemma add_wallet_balance_other u v a s :
  v ≠ u → get_wallet_balance v (fst (add_wallet_balance u a s)) = get_wallet_balance v s.
Proof.
  intros Hne. unfold add_wallet_balance, get_wallet_balance. simpl.
  by rewrite bump_wallet_other, ensure_wallet_other.
Qed.

Lemma try_deduct_wallet_ok u a s :
  a ≤ get_wallet_balance u s →
  ∃ s', try_deduct_wallet u a s = (s', (true, get_wallet_balance u s - a))
        ∧ get_wallet_balance u s' = get_wallet_balance u s - a
        ∧ (∀ v, v ≠ u → wallets s' !! v = wallets s !! v).
Proof.
  intros Hle. unfold try_deduct_wallet, get_wallet_balance in *.
  rewrite ensure_wallet_lookup.
  destruct (Z.ltb_spec (default 0 (wallets s !! u)) a) as [Hlt|_]; [lia|].
  eexists. split; [|split].
  - f_equal. f_equal.
    rewrite bump_wallet_lookup by apply ensure_wallet_is_Some.
    rewrite ensure_wallet_lookup. lia.
  - simpl. rewrite bump_wallet_lookup by apply ensure_wallet_is_Some.
    rewrite ensure_wallet_lookup. lia.
  - intros v Hne. simpl. by rewrite bump_wallet_other, ensure_wallet_other.
Qed.

Lemma try_deduct_wallet_fail u a s :
  get_wallet_balance u s < a →
  try_deduct_wallet u a s = (s, (false, get_wallet_balance u s)).
Proof.
  intros Hlt. unfold try_deduct_wallet, get_wallet_balance in *.
  rewrite ensure_wallet_lookup.
  destruct (Z.ltb_spec (default 0 (wallets s !! u)) a) as [_|Hge]; [done|lia].
Qed.

(** C2: with a positive amount, [try_deduct_wallet] succeeds exactly when
    the current balance [b] covers the amount; on success it returns
    [(True, b - amount)] and stores [b - amount], leaving every other wallet
    alone; on failure it returns [(False, b)] and the store is unchanged. *)
Theorem try_deduct_wallet_spec (u a : Z) (s : store) :
  0 < a →
  let b := get_wallet_balance u s in
  let '(s', (ok, bal)) := try_deduct_wallet u a s in
  (ok = true ↔ a ≤ b)
  ∧ (ok = true →
       bal = b - a ∧ get_wallet_balance u s' = b - a
       ∧ ∀ v, v ≠ u → wallets s' !! v = wallets s !! v)
  ∧ (ok = false → bal = b ∧ s' = s).
Proof.
  intros _ b. subst b.
  destruct (Z.le_gt_cases a (get_wallet_balance u s)) as [Hle|Hgt].
  - destruct (try_deduct_wallet_ok u a s Hle) as (s' & -> & Hb & Ho).
    split; [tauto|]. split; [auto|discriminate].
  - rewrite (try_deduct_wallet_fail u a s) by lia.
    split; [split; [discriminate|lia]|]. split; [discriminate|auto].
Qed.

Lemma try_deduct_wallet_spec_witness :
  let s := fst (add_wallet_balance 7 100000 empty_store) in
  0 < 150000
  ∧ let b := get_wallet_balance 7 s in
    let '(s', (ok, bal)) := try_deduct_wallet 7 150000 s in
    (ok = true ↔ 150000 ≤ b)
    ∧ (ok = true →
         bal = b - 150000 ∧ get_wallet_balance 7 s' = b - 150000
         ∧ ∀ v, v ≠ 7 → wallets s' !! v = wallets s !! v)
    ∧ (ok = false → bal = b ∧ s' = s).
Proof.
  intros s. split; [lia|].
  apply (try_deduct_wallet_spec 7 150000 s). lia.
Defined.

Lemma wallet_step_balance u op s :
  0 ≤ get_wallet_balance u s → 0 < op_amount op →
  let '(s', ok) := wallet_step u op s in
  0 ≤ get_wallet_balance u s'
  ∧ get_wallet_balance u s' = get_wallet_balance u s + net_effect (op, ok, s').
Proof.
  intros Hb Ha. destruct op as [a|a]; cbn [op_amount] in Ha; unfold wallet_step.
  - destruct (add_wallet_balance_self u a s) as [-> _]. cbn [net_effect]. lia.
  - destruct (Z.le_gt_cases a (get_wallet_balance u s)) as [Hle|Hgt].
    + destruct (try_deduct_wallet_ok u a s Hle) as (s' & -> & -> & _).
      cbn [net_effect]. lia.
    + rewrite (try_deduct_wallet_fail u a s) by lia. cbn [net_effect]. lia.
Qed.

Lemma wallet_run_balance u ops : ∀ s,
  0 ≤ get_wallet_balance u s →
  Forall (λ op, 0 < op_amount op) ops →
  Forall (λ e, 0 ≤ get_wallet_balance u e.2) (wallet_run u ops s)
  ∧ get_wallet_balance u (final_store s (wallet_run u ops s))
    = get_wallet_balance u s + foldr (λ e acc, net_effect e + acc) 0 (wallet_run u ops s).
Proof.
  induction ops as [|op ops IH]; intros s Hb Hops.
  - split; [constructor|]. unfold final_store. simpl. lia.
  - inversion Hops as [|? ? Hop Hrest]; subst.
    pose proof (wallet_step_balance u op s Hb Hop) as Hstep.
    simpl. destruct (wallet_step u op s) as [s' ok].
    destruct Hstep as [Hb' Heq].
    destruct (IH s' Hb' Hrest) as [Hall Hfin].
    split; [constructor; [exact Hb'|exact Hall]|].
    replace (final_store s ((op, ok, s') :: wallet_run u ops s'))
      with (final_store s' (wallet_run u ops s')).
    + rewrite Hfin. cbn [foldr]. lia.
    + unfold final_store. destruct (wallet_run u ops s') as [|e tr] eqn:E; [done|].
      rewrite last_cons_cons.
      destruct (last (e :: tr)) as [[[? ?] ?]|] eqn:El; [done|].
      by apply last_None in El.
Qed.

Lemma add_wallet_balance_returns_exact u a s :
  int64 a = true → int64 (get_wallet_balance u s + a) = true →
  add_wallet_balance_returns u a s = Some (snd (add_wallet_balance u a s)).
Proof.
  intros Ha Hsum. unfold add_wallet_balance_returns, add_integers.
  rewrite Ha, ensure_wallet_lookup. fold (get_wallet_balance u s). rewrite Hsum.
  by destruct (add_wallet_balance_self u a s) as [_ ->].
Qed.

Lemma wallet_run_bound u ops : ∀ s,
  0 ≤ get_wallet_balance u s →
  Forall (λ op, 0 < op_amount op) ops →
  Forall (λ e, get_wallet_balance u e.2
               ≤ get_wallet_balance u s + foldr (λ op acc, credited op + acc) 0 ops)
         (wallet_run u ops s).
Proof.
  induction ops as [|op ops IH]; intros s Hb Hops; [constructor|].
  inversion Hops as [|? ? Hop Hrest]; subst.
  pose proof (wallet_step_balance u op s Hb Hop) as Hstep.
  cbn [wallet_run foldr]. destruct (wallet_step u op s) as [s' ok].
  destruct Hstep as [Hb' Heq].
  assert (Hnet : net_effect (op, ok, s') ≤ credited op).
  { destruct op as [a|a]; cbn [net_effect credited op_amount] in *; [lia|].
    destruct ok; lia. }
  assert (Hrest' : 0 ≤ foldr (λ op acc, credited op + acc) 0 ops).
  { clear -Hrest. induction Hrest as [|o l Ho _ IH']; cbn [foldr]; [lia|].
    destruct o; cbn [credited op_amount] in *; lia. }
  constructor; [cbn [snd]; lia|].
  eapply Forall_impl; [exact (IH s' Hb' Hrest)|]. intros e He. cbn beta in *. lia.
Qed.

(** C3: starting from a wallet with balance zero, after any sequence of
    credits and debit attempts of positive amounts whose credits sum to
    less than [2 ^ 63], the balance is non-negative (and a 64-bit integer)
    after every call, and the final balance is the sum of the credited
    amounts minus the sum of the amounts of the debits that succeeded. *)
Theorem wallet_never_negative (u : Z) (ops : list wallet_op) (s : store) :
  get_wallet_balance u s = 0 →
  Forall (λ op, 0 < op_amount op) ops →
  foldr (λ op acc, credited op + acc) 0 ops < 2 ^ 63 →
  let trace := wallet_run u ops s in
  Forall (λ e, 0 ≤ get_wallet_balance u e.2 < 2 ^ 63) trace
  ∧ get_wallet_balance u (final_store s trace)
    = foldr (λ e acc, net_effect e + acc) 0 trace.
Proof.
  intros Hz Hops Hsum trace.
  destruct (wallet_run_balance u ops s ltac:(lia) Hops) as [Hall Hfin].
  pose proof (wallet_run_bound u ops s ltac:(lia) Hops) as Hup.
  split; [|subst trace; rewrite Hfin; lia].
  subst trace. rewrite Forall_forall in Hall, Hup. apply Forall_forall.
  intros e He. specialize (Hall e He). specialize (Hup e He). cbn beta in *. lia.
Qed.

End wallet.

Lemma wallet_never_negative_witness :
  let ops := [TryDebit 5; Credit 100; TryDebit 30; TryDebit 200; Credit 1] in
  get_wallet_balance 7 empty_store = 0
  ∧ Forall (λ op, 0 < op_amount op) ops
  ∧ foldr (λ op acc, credited op + acc) 0 ops < 2 ^ 63
  ∧ let trace := wallet_run 7 ops empty_store in
    Forall (λ e, 0 ≤ get_wallet_balance 7 e.2 < 2 ^ 63) trace
    ∧ get_wallet_balance 7 (final_store empty_store trace)
      = foldr (λ e acc, net_effect e + acc) 0 trace.
Proof.
  intros ops.
  assert (Hz : get_wallet_balance 7 empty_store = 0) by reflexivity.
  assert (Hops : Forall (λ op, 0 < op_amount op) ops)
    by (repeat constructor).
  assert (Hsum : foldr (λ op acc, credited op + acc) 0 ops < 2 ^ 63)
    by (vm_compute; reflexivity).
  split; [exact Hz|]. split; [exact Hops|]. split; [exact Hsum|].
  exact (wallet_never_negative 7 ops empty_store Hz Hops Hsum).
Defined.

(** C3 as stated fails: two credits of [2 ^ 62 + 1] to a new wallet sum to
    [2 ^ 63 + 2], which is no 64-bit integer.  The first credit is exact;
    on the second, SQLite adds the two values as doubles and the balance
    the code reads back is [2 ^ 63]. *)
Lemma wallet_credit_overflow_counterexample :
  let a := 2 ^ 62 + 1 in
  let s1 := fst (add_wallet_balance 7 a empty_store) in
  0 < a
  ∧ add_wallet_balance_returns 7 a empty_store = Some a
  ∧ get_wallet_balance 7 s1 = a
  ∧ add_wallet_balance_returns 7 a s1 = Some (2 ^ 63)
  ∧ 2 ^ 63 ≠ a + a.
Proof. vm_compute. repeat split; discriminate. Qed.

(** ** Deposit review *)

Section deposits.

Context (ADMIN_IDS : gset Z).

Implicit Types (s : store) (caller dep_id : Z).

Lemma add_wallet_balance_deposits u a s :
  deposit_requests (fst (add_wallet_balance u a s)) = deposit_requests s.
Proof. reflexivity. Qed.

Lemma add_ref_profit_deposits r a s :
  deposit_requests (add_ref_profit r a s) = deposit_requests s.
Proof. reflexivity. Qed.

Lemma set_deposit_status_resolved dep_id status s :
  status ≠ "pending_admin" → not_pending dep_id (set_deposit_status dep_id status s).
Proof.
  intros Hst dep. unfold get_deposit_request, set_deposit_status. simpl.
  rewrite lookup_alter_eq.
  destruct (deposit_requests s !! dep_id) as [d|]; simpl; [|done].
  intros [= <-]. exact Hst.
Qed.

Lemma not_pending_ext dep_id s s' :
  deposit_requests s' = deposit_requests s → not_pending dep_id s → not_pending dep_id s'.
Proof. unfold not_pending, get_deposit_request. by intros ->. Qed.

Lemma deposit_approve_not_pending caller dep_id s :
  is_admin ADMIN_IDS caller = true → not_pending dep_id s →
  deposit_approve ADMIN_IDS caller dep_id s = (s, NotActionable).
Proof.
  intros Hadm Hnp. unfold deposit_approve. rewrite Hadm. simpl.
  destruct (get_deposit_request dep_id s) as [dep|] eqn:Hdep; [|done].
  specialize (Hnp dep Hdep).
  by rewrite bool_decide_eq_false_2.
Qed.

Lemma deposit_reject_not_pending caller dep_id s :
  is_admin ADMIN_IDS caller = true → not_pending dep_id s →
  deposit_reject ADMIN_IDS caller dep_id s = (s, NotActionable).
Proof.
  intros Hadm Hnp. unfold deposit_reject. rewrite Hadm. simpl.
  destruct (get_deposit_request dep_id s) as [dep|] eqn:Hdep; [|done].
  specialize (Hnp dep Hdep).
  by rewrite bool_decide_eq_false_2.
Qed.

Lemma deposit_approve_cases caller dep_id s :
  is_admin ADMIN_IDS caller = true →
  not_pending dep_id s
  ∨ deposit_requests (fst (deposit_approve ADMIN_IDS caller dep_id s))
    = deposit_requests (set_deposit_status dep_id "approved" s).
Proof.
  intros Hadm. unfold deposit_approve. rewrite Hadm. cbn [negb].
  destruct (get_deposit_request dep_id s) as [dep|] eqn:Hdep;
    [|left; intros dep; congruence].
  destruct (decide (d_status dep = "pending_admin")) as [Hst|Hst];
    [|left; intros dep'; congruence].
  right. rewrite bool_decide_eq_true_2 by done. cbn [negb].
  destruct (add_wallet_balance (d_user_id dep) (d_amount dep)
              (set_deposit_status dep_id "approved" s)) as [s2 nb] eqn:E2.
  assert (Hd2 : deposit_requests s2
                = deposit_requests (set_deposit_status dep_id "approved" s)).
  { change s2 with (fst (s2, nb)). rewrite <- E2. apply add_wallet_balance_deposits. }
  destruct (get_user (d_user_id dep) s2 ≫= u_referrer_id) as [r|]; [|exact Hd2].
  destruct (negb (r =? 0) && negb (r =? d_user_id dep)); [|exact Hd2].
  destruct (ref_profit (d_amount dep) >? 0); [|exact Hd2].
  destruct (add_wallet_balance r (ref_profit (d_amount dep)) s2) as [s3 nb3] eqn:E3.
  cbn [fst]. rewrite add_ref_profit_deposits.
  change s3 with (fst (s3, nb3)). rewrite <- E3.
  rewrite add_wallet_balance_deposits. exact Hd2.
Qed.

Lemma deposit_approve_resolves caller dep_id s :
  is_admin ADMIN_IDS caller = true →
  not_pending dep_id (fst (deposit_approve ADMIN_IDS caller dep_id s)).
Proof.
  intros Hadm.
  destruct (deposit_approve_cases caller dep_id s Hadm) as [Hnp|He].
  - by rewrite deposit_approve_not_pending.
  - eapply not_pending_ext; [exact He|]. by apply set_deposit_status_resolved.
Qed.

Lemma deposit_reject_resolves caller dep_id s :
  is_admin ADMIN_IDS caller = true →
  not_pending dep_id (fst (deposit_reject ADMIN_IDS caller dep_id s)).
Proof.
  intros Hadm. unfold deposit_reject. rewrite Hadm. cbn [negb].
  destruct (get_deposit_request dep_id s) as [dep|] eqn:Hdep;
    [|intros dep; cbn [fst]; congruence].
  destruct (decide (d_status dep = "pending_admin")) as [Hst|Hst].
  - rewrite bool_decide_eq_true_2 by done. cbn [negb fst].
    by apply set_deposit_status_resolved.
  - rewrite bool_decide_eq_false_2 by done. cbn [negb fst].
    intros dep'; congruence.
Qed.

(** C6: for a deposit that is absent or whose status is not
    ['pending_admin'], both the approve and the reject handler report "not
    actionable" and leave the whole store as it was; and whatever store a
    review call of an operator ends in, the deposit is not pending there,
    so a second review of it, by any operator, is such a no-op. *)
Theorem resolve_deposit_one_shot (caller dep_id : Z) (s : store) :
  is_admin ADMIN_IDS caller = true →
  (not_pending dep_id s →
     deposit_approve ADMIN_IDS caller dep_id s = (s, NotActionable)
     ∧ deposit_reject ADMIN_IDS caller dep_id s = (s, NotActionable))
  ∧ (∀ first s1 again,
       first ∈ [deposit_approve ADMIN_IDS caller dep_id;
                deposit_reject ADMIN_IDS caller dep_id] →
       s1 = fst (first s) →
       is_admin ADMIN_IDS again = true →
       deposit_approve ADMIN_IDS again dep_id s1 = (s1, NotActionable)
       ∧ deposit_reject ADMIN_IDS again dep_id s1 = (s1, NotActionable)).
Proof.
  intros Hadm. split.
  - intros Hnp. split;
      [by apply deposit_approve_not_pending|by apply deposit_reject_not_pending].
  - intros first s1 again Hfirst -> Hagain.
    assert (Hnp : not_pending dep_id (fst (first s))).
    { apply elem_of_cons in Hfirst as [->|Hfirst];
        [by apply deposit_approve_resolves|].
      apply list_elem_of_singleton in Hfirst as ->.
      by apply deposit_reject_resolves. }
    split;
      [by apply deposit_approve_not_pending|by apply deposit_reject_not_pending].
Qed.

End deposits.

Lemma resolve_deposit_one_shot_witness :
  let admins : gset Z := {[1]} in
  let s0 := fst (create_deposit_request 7 100000 None None empty_store) in
  let s1 := fst (deposit_approve admins 1 1 s0) in
  is_admin admins 1 = true
  ∧ get_wallet_balance 7 s1 = 100000
  ∧ deposit_approve admins 1 1 s1 = (s1, NotActionable)
  ∧ deposit_reject admins 1 1 s1 = (s1, NotActionable).
Proof.
  intros admins s0 s1.
  assert (Hadm : is_admin admins 1 = true) by (vm_compute; reflexivity).
  split; [exact Hadm|]. split; [vm_compute; reflexivity|].
  destruct (resolve_deposit_one_shot admins 1 1 s0 Hadm) as [_ Hagain].
  apply (Hagain (deposit_approve admins 1 1) s1 1);
    [apply list_elem_of_here|reflexivity|exact Hadm].
Defined.

(** ** Links pool *)

Section links_pool.

Implicit Types (s : store) (ln v : pystr) (rows : list link_row).

Lemma fresh_values_elem seen values : ∀ v,
  v ∈ fresh_values seen values ↔ v ∈ values ∧ v ≠ [] ∧ v ∉ seen.
Proof.
  revert seen. induction values as [|x rest IH]; intros seen v; simpl.
  - split; [by intros ?%elem_of_nil|by intros [?%elem_of_nil _]].
  - destruct (decide (x = [] ∨ x ∈ seen)) as [Hskip|Hkeep].
    + rewrite IH, elem_of_cons. split; [tauto|].
      intros ([->|Hin] & Hne & Hns); [tauto|done].
    + rewrite elem_of_cons, IH, elem_of_cons, elem_of_app, list_elem_of_singleton.
      destruct (decide (v = x)) as [->|Hvx]; [|tauto].
      split; [intros _|tauto]. split; [by left|]. tauto.
Qed.

Lemma fresh_values_NoDup seen values : NoDup (fresh_values seen values).
Proof.
  revert seen. induction values as [|x rest IH]; intros seen; simpl.
  - constructor.
  - destruct (decide (x = [] ∨ x ∈ seen)); [apply IH|].
    constructor; [|apply IH].
    rewrite fresh_values_elem, elem_of_app, list_elem_of_singleton. tauto.
Qed.

Lemma insert_link_Some ln s :
  ln ∉ l_link <$> links s →
  insert_link ln s
  = Some (set_links
            (links s ++ [mk_link (next_rowid (links_seq s) (l_id <$> links s))
                                 ln false None None])
            (next_rowid (links_seq s) (l_id <$> links s)) s).
Proof. intros Hn. unfold insert_link. by rewrite decide_False. Qed.

Lemma insert_link_None ln s : ln ∈ l_link <$> links s → insert_link ln s = None.
Proof. intros Hn. unfold insert_link. by rewrite decide_True. Qed.

(** What a run of the loop leaves: the rows it appended, all unused and
    unassigned, carry the fresh values, and the counter grew by their
    number. *)
Lemma add_links_loop_spec lns : ∀ s n,
  ∃ rows,
    links (fst (add_links_loop lns s n)) = links s ++ rows
    ∧ l_link <$> rows = fresh_values (l_link <$> links s) (strip <$> lns)
    ∧ Forall (λ r, l_is_used r = false ∧ l_used_by_order_id r = None
                   ∧ l_used_by_user_id r = None) rows
    ∧ snd (add_links_loop lns s n) = n + Z.of_nat (length rows).
Proof.
  induction lns as [|ln rest IH]; intros s n.
  - exists []. simpl. rewrite app_nil_r. repeat split; [constructor|lia].
  - cbn [add_links_loop fmap list_fmap fresh_values].
    destruct (decide (strip ln = [])) as [He|Hne].
    + rewrite decide_True by (by left). apply IH.
    + destruct (decide (strip ln ∈ l_link <$> links s)) as [Hin|Hnin].
      * rewrite insert_link_None by done.
        rewrite decide_True by (by right). apply IH.
      * rewrite insert_link_Some by done.
        rewrite decide_False by tauto.
        set (row := mk_link _ (strip ln) false None None).
        set (s' := set_links _ _ s).
        destruct (IH s' (n + 1)) as (rows & Hl & Hv & Hu & Hn).
        exists (row :: rows). 
        assert (Hs' : links s' = links s ++ [row]) by reflexivity.
        rewrite Hs' in Hl, Hv. rewrite fmap_app in Hv.
        split; [by rewrite Hl, <- app_assoc|].
        split; [by rewrite fmap_cons, Hv|].
        split; [by constructor|].
        rewrite Hn. simpl length. lia.
Qed.

Lemma next_rowid_fresh seq ids : next_rowid seq ids ∉ ids.
Proof.
  unfold next_rowid. intros Hin.
  assert (Hmax : ∀ i, i ∈ ids → i ≤ foldr Z.max 0 ids).
  { clear. induction ids as [|a l IH]; intros i Hi; [by apply elem_of_nil in Hi|].
    cbn [foldr]. apply elem_of_cons in Hi as [->|Hi]; [lia|].
    specialize (IH i Hi). lia. }
  specialize (Hmax _ Hin). lia.
Qed.

Lemma empty_store_wf : links_wf empty_store ∧ links_nonempty empty_store.
Proof. repeat split; constructor. Qed.

(** The constraints of the [links] table survive [add_links]. *)
Lemma add_links_loop_wf lns : ∀ s n,
  links_wf s → links_nonempty s →
  links_wf (fst (add_links_loop lns s n)) ∧ links_nonempty (fst (add_links_loop lns s n)).
Proof.
  induction lns as [|ln rest IH]; intros s n Hwf Hne; [done|].
  cbn [add_links_loop].
  destruct (decide (strip ln = [])) as [He|Hnz]; [by apply IH|].
  destruct (decide (strip ln ∈ l_link <$> links s)) as [Hin|Hnin].
  - rewrite insert_link_None by done. by apply IH.
  - rewrite insert_link_Some by done. apply IH.
    + destruct Hwf as [Hids Hvals]. unfold links_wf.
      cbn [links set_links]. rewrite !fmap_app. cbn [fmap list_fmap l_id l_link].
      split; apply NoDup_app; (split; [done|]);
        (split; [|apply NoDup_singleton]); intros x Hx Hx';
        apply list_elem_of_singleton in Hx' as ->; [|done].
      by apply next_rowid_fresh in Hx.
    + unfold links_nonempty in *. cbn [links set_links].
      apply Forall_app. split; [done|]. by constructor.
Qed.

Lemma add_links_wf lns s :
  links_wf s → links_nonempty s →
  links_wf (fst (add_links lns s)) ∧ links_nonempty (fst (add_links lns s)).
Proof.
  intros Hwf Hne. destruct lns as [|ln rest]; [done|]. by apply add_links_loop_wf.
Qed.

(** [str.strip] leaves no whitespace at either end. *)
Lemma lstrip_head t : ∀ c, head (lstrip t) = Some c → is_space c = false.
Proof.
  induction t as [|a t IH]; intros c; [done|].
  cbn [lstrip]. destruct (is_space a) eqn:Ha; [apply IH|].
  cbn. by intros [= <-].
Qed.

Lemma lstrip_suffix t : lstrip t `suffix_of` t.
Proof.
  induction t as [|a t IH]; [done|]. cbn [lstrip].
  destruct (is_space a); [by apply suffix_cons_r|done].
Qed.

Lemma strip_ends t :
  (∀ c, head (strip t) = Some c → is_space c = false)
  ∧ (∀ c, last (strip t) = Some c → is_space c = false).
Proof.
  unfold strip. split; intros c Hc.
  - rewrite head_reverse in Hc.
    destruct (lstrip_suffix (reverse (lstrip t))) as [pre Hpre].
    apply (f_equal reverse) in Hpre. rewrite reverse_involutive, reverse_app in Hpre.
    destruct (reverse (lstrip (reverse (lstrip t)))) as [|x l] eqn:Hr.
    { apply (f_equal reverse) in Hr. rewrite reverse_involutive in Hr.
      rewrite Hr in Hc. done. }
    assert (Hx : x = c).
    { apply (f_equal reverse) in Hr. rewrite reverse_involutive, reverse_cons in Hr.
      rewrite Hr, last_snoc in Hc. congruence. }
    subst x. apply (lstrip_head t). rewrite Hpre. done.
  - rewrite last_reverse in Hc. by apply (lstrip_head (reverse (lstrip t))).
Qed.

Lemma lstrip_spaces t :
  ∃ pre, t = pre ++ lstrip t ∧ Forall (λ c, is_space c = true) pre.
Proof.
  induction t as [|a t (pre & IH & Hpre)]; [by exists []|]. cbn [lstrip].
  destruct (is_space a) eqn:Ha; [|by exists []].
  exists (a :: pre). split; [by rewrite <- app_comm_cons, <- IH|by constructor].
Qed.

Lemma lstrip_all_spaces pre t :
  Forall (λ c, is_space c = true) pre → lstrip (pre ++ t) = lstrip t.
Proof.
  induction 1 as [|a pre Ha _ IH]; [done|].
  rewrite <- app_comm_cons. cbn [lstrip]. by rewrite Ha.
Qed.

Lemma lstrip_keeps t :
  (∀ c, head t = Some c → is_space c = false) → lstrip t = t.
Proof.
  destruct t as [|a t]; [done|]. intros H. cbn [lstrip]. by rewrite (H a eq_refl).
Qed.

Lemma stripped_strip ln : stripped ln (strip ln).
Proof.
  destruct (lstrip_spaces ln) as (pre & Hln & Hpre).
  destruct (lstrip_spaces (reverse (lstrip ln))) as (tail & Hrev & Htail).
  destruct (strip_ends ln) as [Hhead Hlast].
  exists pre, (reverse tail). split; [|split; [done|split; [by apply Forall_reverse|done]]].
  unfold strip. rewrite <- reverse_app, <- Hrev, reverse_involutive. exact Hln.
Qed.

Lemma stripped_unique ln v : stripped ln v → v = strip ln.
Proof.
  intros (pre & post & -> & Hpre & Hpost & Hhead & Hlast). unfold strip.
  rewrite (lstrip_all_spaces pre) by done.
  destruct v as [|a v'].
  - rewrite app_nil_l.
    assert (He : lstrip post = []).
    { rewrite <- (app_nil_r post) at 1. by rewrite lstrip_all_spaces. }
    by rewrite He.
  - set (v := a :: v') in *.
    rewrite (lstrip_keeps (v ++ post)).
    2:{ intros c Hc. apply Hhead. by rewrite <- Hc. }
    rewrite reverse_app, (lstrip_all_spaces (reverse post)) by (by apply Forall_reverse).
    rewrite lstrip_keeps; [by rewrite reverse_involutive|].
    intros c. rewrite head_reverse. apply Hlast.
Qed.

(** C10: [add_links] returns the number of rows it appended to [links].
    The appended rows are unused and carry, in input order, the input
    values with the whitespace at both ends removed, leaving out those
    that are then empty, stored before the call or met earlier in the
    call; no value is stored twice.  [strip] removes whitespace at the two
    ends and nothing else. *)
Theorem add_links_counts_inserted (lns : list pystr) (s : store) :
  let s' := fst (add_links lns s) in
  let inserted := snd (add_links lns s) in
  let added := fresh_values (l_link <$> links s) (strip <$> lns) in
  (∃ rows,
     links s' = links s ++ rows
     ∧ inserted = Z.of_nat (length rows)
     ∧ l_link <$> rows = added
     ∧ Forall (λ r, l_is_used r = false ∧ l_used_by_order_id r = None
                    ∧ l_used_by_user_id r = None) rows
     ∧ NoDup added
     ∧ (∀ v, v ∈ added ↔ v ∈ strip <$> lns ∧ v ≠ [] ∧ v ∉ l_link <$> links s)
     ∧ (∀ v, v ∈ added
             ↔ (∃ ln, ln ∈ lns ∧ stripped ln v) ∧ v ≠ [] ∧ v ∉ l_link <$> links s))
  ∧ (∀ ln v, v = strip ln ↔ stripped ln v).
Proof.
  intros s' inserted added. subst s' inserted added.
  assert (Hstrip : ∀ ln v, v = strip ln ↔ stripped ln v).
  { intros ln v. split; [intros ->; apply stripped_strip|apply stripped_unique]. }
  split; [|exact Hstrip].
  assert (Hloop : add_links lns s = add_links_loop lns s 0) by (by destruct lns).
  rewrite Hloop.
  destruct (add_links_loop_spec lns s 0) as (rows & Hl & Hv & Hu & Hn).
  exists rows. split; [exact Hl|]. split; [rewrite Hn; lia|].
  split; [exact Hv|]. split; [exact Hu|].
  split; [apply fresh_values_NoDup|]. split; [apply fresh_values_elem|].
  intros v. rewrite fresh_values_elem, list_elem_of_fmap.
  split.
  - intros ((ln & -> & Hin) & Hne & Hnew). split; [|done].
    exists ln. split; [done|apply stripped_strip].
  - intros ((ln & Hin & Hs) & Hne & Hnew). split; [|done].
    exists ln. split; [by apply Hstrip|done].
Qed.
#[local] Instance key_le_total {A : Type} (key : A → Z) : Total (key_le key).
Proof. intros a b. unfold key_le. lia. Qed.

#[local] Instance key_le_trans {A : Type} (key : A → Z) : Transitive (key_le key).
Proof. intros a b c. unfold key_le. lia. Qed.

Lemma elem_of_bool_filter {A : Type} (p : A → bool) (l : list A) (x : A) :
  x ∈ List.filter p l ↔ x ∈ l ∧ p x = true.
Proof. rewrite !list_elem_of_In. apply filter_In. Qed.

Lemma order_by_perm {A : Type} (key : A → Z) (l : list A) : order_by key l ≡ₚ l.
Proof. apply merge_sort_Permutation. Qed.

Lemma order_by_sorted {A : Type} (key : A → Z) (l : list A) :
  StronglySorted (key_le key) (order_by key l).
Proof. apply StronglySorted_merge_sort; apply _. Qed.

(** The first row of [ORDER BY key ASC] has the smallest key. *)
Lemma order_by_head {A : Type} (key : A → Z) (l : list A) :
  match order_by key l with
  | [] => l = []
  | x :: _ => x ∈ l ∧ ∀ y, y ∈ l → key x ≤ key y
  end.
Proof.
  pose proof (order_by_perm key l) as Hp.
  pose proof (order_by_sorted key l) as Hs.
  destruct (order_by key l) as [|x t].
  - symmetry in Hp. by apply Permutation_nil_r in Hp.
  - split; [rewrite <- Hp; apply list_elem_of_here|].
    intros y Hy. rewrite <- Hp in Hy.
    apply elem_of_cons in Hy as [->|Hy]; [unfold key_le; lia|].
    apply StronglySorted_inv in Hs as [_ Hall].
    rewrite Forall_forall in Hall. by apply Hall.
Qed.

Lemma NoDup_fmap_eq {A B : Type} (f : A → B) (l : list A) (x y : A) :
  NoDup (f <$> l) → x ∈ l → y ∈ l → f x = f y → x = y.
Proof.
  induction l as [|a l IH]; [by intros _ ?%elem_of_nil|].
  rewrite fmap_cons, NoDup_cons.
  intros [Hna Hnd] Hx Hy Hf.
  apply elem_of_cons in Hx as [->|Hx]; apply elem_of_cons in Hy as [->|Hy]; auto.
  - exfalso. apply Hna. rewrite Hf. by apply list_elem_of_fmap_2.
  - exfalso. apply Hna. rewrite <- Hf. by apply list_elem_of_fmap_2.
Qed.

Lemma pop_none order_id user_id s :
  List.filter is_unused (links s) = [] →
  pop_available_link_for_order order_id user_id s = (s, None).
Proof.
  intros He. unfold pop_available_link_for_order. rewrite He. reflexivity.
Qed.

Lemma pop_some order_id user_id s :
  List.filter is_unused (links s) ≠ [] →
  ∃ row,
    row ∈ links s ∧ l_is_used row = false
    ∧ (∀ r, r ∈ links s → l_is_used r = false → l_id row ≤ l_id r)
    ∧ pop_available_link_for_order order_id user_id s
      = (set_orders (deliver_row order_id (l_link row) <$> orders s) (orders_seq s)
           (set_links (use_row order_id user_id (l_id row) <$> links s) (links_seq s) s),
         Some (l_link row)).
Proof.
  intros Hne. unfold pop_available_link_for_order.
  pose proof (order_by_head l_id (List.filter is_unused (links s))) as Hh.
  destruct (order_by l_id (List.filter is_unused (links s))) as [|row t]; [done|].
  destruct Hh as [Hin Hmin]. apply elem_of_bool_filter in Hin as [Hin Hun].
  exists row. split; [exact Hin|].
  split; [by apply negb_true_iff in Hun|].
  split; [|reflexivity].
  intros r Hr Hu. apply Hmin. apply elem_of_bool_filter.
  split; [exact Hr|]. unfold is_unused. by rewrite Hu.
Qed.

(** With unique ids the [UPDATE ... WHERE id=?] touches one row. *)
Lemma use_row_exact order_id user_id row rows :
  NoDup (l_id <$> rows) → row ∈ rows →
  use_row order_id user_id (l_id row) <$> rows
  = (λ r, if decide (r = row) then taken order_id user_id row else r) <$> rows.
Proof.
  intros Hnd Hin. apply Forall_fmap_ext_1, Forall_forall. intros r Hr. unfold use_row.
  destruct (decide (l_id r = l_id row)) as [Hid|Hid].
  - assert (r = row) as -> by (by eapply (NoDup_fmap_eq l_id rows)).
    by rewrite decide_True.
  - rewrite decide_False; [done|]. by intros ->.
Qed.

Lemma deliver_row_sets order_id link o :
  o_id o = order_id →
  o_status (deliver_row order_id link o) = "delivered"
  ∧ o_delivered_link (deliver_row order_id link o) = Some link.
Proof. intros Hid. unfold deliver_row. by rewrite decide_True. Qed.

Lemma deliver_row_id order_id link o : o_id (deliver_row order_id link o) = o_id o.
Proof. unfold deliver_row. by destruct (decide _). Qed.

Lemma deliver_row_other order_id link o :
  o_id o ≠ order_id → deliver_row order_id link o = o.
Proof. intros Hid. unfold deliver_row. by rewrite decide_False. Qed.

Lemma use_row_id order_id user_id link_id r :
  l_id (use_row order_id user_id link_id r) = l_id r.
Proof. unfold use_row. by destruct (decide _). Qed.

Lemma use_row_link order_id user_id link_id r :
  l_link (use_row order_id user_id link_id r) = l_link r.
Proof. unfold use_row. by destruct (decide _). Qed.

Lemma use_row_ids order_id user_id link_id rows :
  l_id <$> (use_row order_id user_id link_id <$> rows) = l_id <$> rows.
Proof.
  rewrite <- list_fmap_compose. apply list_fmap_ext. intros ? r _. apply use_row_id.
Qed.

Lemma use_row_values order_id user_id link_id rows :
  l_link <$> (use_row order_id user_id link_id <$> rows) = l_link <$> rows.
Proof.
  rewrite <- list_fmap_compose. apply list_fmap_ext. intros ? r _. apply use_row_link.
Qed.

(** One allocation on a well-formed pool: either nothing is unused and
    nothing changes, or the unused row with the smallest id is taken. *)
Lemma pop_cases order_id user_id s :
  links_wf s →
  (List.filter is_unused (links s) = []
   ∧ pop_available_link_for_order order_id user_id s = (s, None))
  ∨ (∃ row s',
       row ∈ links s ∧ l_is_used row = false
       ∧ (∀ r, r ∈ links s → l_is_used r = false → l_id row ≤ l_id r)
       ∧ pop_available_link_for_order order_id user_id s = (s', Some (l_link row))
       ∧ links s'
         = (λ r, if decide (r = row) then taken order_id user_id row else r) <$> links s
       ∧ orders s' = deliver_row order_id (l_link row) <$> orders s).
Proof.
  intros [Hids _].
  destruct (List.filter is_unused (links s)) as [|x t] eqn:Hf.
  - left. split; [done|]. by apply pop_none.
  - right.
    destruct (pop_some order_id user_id s) as (row & Hin & Hun & Hmin & Hpop);
      [by rewrite Hf|].
    eexists row, _. split; [exact Hin|]. split; [exact Hun|].
    split; [exact Hmin|]. split; [exact Hpop|].
    split; [|reflexivity].
    cbn [links set_orders set_links]. by apply use_row_exact.
Qed.

Lemma pop_preserves_wf order_id user_id s :
  links_wf s → links_wf (fst (pop_available_link_for_order order_id user_id s)).
Proof.
  intros Hwf. pose proof Hwf as [Hids Hvals].
  destruct (List.filter is_unused (links s)) as [|x t] eqn:Hf.
  - by rewrite pop_none.
  - destruct (pop_some order_id user_id s) as (row & _ & _ & _ & ->);
      [by rewrite Hf|].
    unfold links_wf. cbn [fst links set_orders set_links].
    by rewrite use_row_ids, use_row_values.
Qed.

(** The token values still unused. *)
Lemma pool_after_take order_id user_id row rows (t : pystr) :
  NoDup (l_link <$> rows) → row ∈ rows →
  t ∈ l_link <$> List.filter is_unused
        ((λ r, if decide (r = row) then taken order_id user_id row else r) <$> rows) →
  t ∈ l_link <$> List.filter is_unused rows ∧ t ≠ l_link row.
Proof.
  intros Hnd Hrow (r1 & -> & Hr1)%list_elem_of_fmap.
  apply elem_of_bool_filter in Hr1 as [Hr1 Hun].
  apply list_elem_of_fmap in Hr1 as (r & -> & Hr).
  destruct (decide (r = row)) as [->|Hne]; [done|].
  split.
  - apply list_elem_of_fmap_2, elem_of_bool_filter. done.
  - intros Heq. apply Hne. by eapply (NoDup_fmap_eq l_link rows).
Qed.

Lemma used_row_stays order_id user_id row rows r :
  l_is_used row = false → r ∈ rows → l_is_used r = true →
  r ∈ (λ r, if decide (r = row) then taken order_id user_id row else r) <$> rows.
Proof.
  intros Hun Hr Hu. apply list_elem_of_fmap. exists r. split; [|exact Hr].
  rewrite decide_False; [done|]. intros ->. congruence.
Qed.

Lemma allocate_all_spec calls : ∀ s,
  links_wf s →
  links_wf (fst (allocate_all calls s))
  ∧ NoDup (tokens_of (snd (allocate_all calls s)))
  ∧ (∀ t, t ∈ tokens_of (snd (allocate_all calls s)) →
          t ∈ l_link <$> List.filter is_unused (links s))
  ∧ (∀ o u t, (o, u, Some t) ∈ snd (allocate_all calls s) →
       ∃ row, l_link row = t ∧ taken o u row ∈ links (fst (allocate_all calls s)))
  ∧ (∀ r, r ∈ links s → l_is_used r = true → r ∈ links (fst (allocate_all calls s))).
Proof.
  induction calls as [|[o u] rest IH]; intros s Hwf.
  - cbn. split; [exact Hwf|]. split; [constructor|].
    split; [by intros t ?%elem_of_nil|].
    split; [by intros ? ? ? ?%elem_of_nil|auto].
  - cbn [allocate_all].
    pose proof (pop_preserves_wf o u s Hwf) as Hwf1.
    destruct (pop_cases o u s Hwf)
      as [[Hnone Hpop]|(row & s1 & Hin & Hun & _ & Hpop & Hl1 & _)];
      rewrite Hpop in *; cbn [fst] in Hwf1.
    + destruct (IH s Hwf1) as (Hw & Hnd & Hsub & Has & Hst).
      destruct (allocate_all rest s) as [s2 log]. cbn [fst snd] in *.
      split; [exact Hw|]. split; [exact Hnd|]. split; [exact Hsub|].
      split; [|exact Hst].
      intros o' u' t [Hhd|Htl]%elem_of_cons; [congruence|eauto].
    + destruct (IH s1 Hwf1) as (Hw & Hnd & Hsub & Has & Hst).
      destruct (allocate_all rest s1) as [s2 log]. cbn [fst snd] in *.
      assert (Hpool : ∀ t, t ∈ tokens_of log →
                t ∈ l_link <$> List.filter is_unused (links s) ∧ t ≠ l_link row).
      { intros t Ht. apply (pool_after_take o u row (links s));
          [apply Hwf|exact Hin|]. rewrite <- Hl1. by apply Hsub. }
      split; [exact Hw|].
      unfold tokens_of in *. cbn [omap list_omap snd].
      split.
      { constructor; [|exact Hnd]. intros Ht. by destruct (Hpool _ Ht). }
      split.
      { intros t [->|Ht]%elem_of_cons; [|by destruct (Hpool _ Ht)].
        apply list_elem_of_fmap_2, elem_of_bool_filter.
        split; [exact Hin|]. unfold is_unused. by rewrite Hun. }
      split.
      { intros o' u' t [Hhd|Htl]%elem_of_cons; [|eauto].
        injection Hhd as -> -> ->. exists row. split; [done|].
        apply Hst; [|done]. rewrite Hl1. apply list_elem_of_fmap.
        exists row. split; [by rewrite decide_True|exact Hin]. }
      intros r Hr Hu. apply Hst; [|exact Hu]. rewrite Hl1.
      by apply used_row_stays.
Qed.

(** C1: on a pool with unique ids and unique token values, one call either
    finds no unused token, returns [None] and leaves the store as it was, or
    returns the unused token with the smallest id, marks that row and no
    other as used by the order and the user, and sets every order row with
    the order's id to ['delivered'] with that token.  Over any sequence of
    calls no token is returned twice, and the row of every returned token
    ends up used and assigned to the order and user of the call that got
    it. *)
Theorem allocate_exactly_once (s : store) :
  links_wf s →
  (∀ order_id user_id,
     let '(s', tok) := pop_available_link_for_order order_id user_id s in
     (List.filter is_unused (links s) = [] → tok = None ∧ s' = s)
     ∧ (List.filter is_unused (links s) ≠ [] →
          ∃ row,
            row ∈ links s ∧ l_is_used row = false
            ∧ (∀ r, r ∈ links s → l_is_used r = false → l_id row ≤ l_id r)
            ∧ tok = Some (l_link row)
            ∧ links s'
              = (λ r, if decide (r = row) then taken order_id user_id row else r)
                <$> links s
            ∧ orders s' = deliver_row order_id (l_link row) <$> orders s
            ∧ (∀ o, o ∈ orders s' → o_id o = order_id →
                 o_status o = "delivered" ∧ o_delivered_link o = Some (l_link row))))
  ∧ (∀ calls,
       let '(s', log) := allocate_all calls s in
       NoDup (tokens_of log)
       ∧ ∀ o u t r,
           (o, u, Some t) ∈ log → r ∈ links s' → l_link r = t →
           l_is_used r = true
           ∧ l_used_by_order_id r = Some o ∧ l_used_by_user_id r = Some u).
Proof.
  intros Hwf. split.
  - intros order_id user_id.
    destruct (pop_cases order_id user_id s Hwf)
      as [[Hnone Hpop]|(row & s1 & Hin & Hun & Hmin & Hpop & Hl1 & Ho1)];
      rewrite Hpop.
    + split; [done|]. by rewrite Hnone.
    + split.
      { intros He. exfalso.
        assert (Hr : row ∈ List.filter is_unused (links s)).
        { apply elem_of_bool_filter. split; [done|]. unfold is_unused. by rewrite Hun. }
        rewrite He in Hr. by apply elem_of_nil in Hr. }
      intros _. exists row. repeat (split; [done|]).
      intros o Ho Hid. rewrite Ho1 in Ho.
      apply list_elem_of_fmap in Ho as (o0 & -> & _).
      rewrite deliver_row_id in Hid. by apply deliver_row_sets.
  - intros calls.
    destruct (allocate_all_spec calls s Hwf) as (Hw & Hnd & _ & Has & _).
    destruct (allocate_all calls s) as [s' log]. cbn [fst snd] in *.
    split; [exact Hnd|].
    intros o u t r Hlog Hr Ht.
    destruct (Has o u t Hlog) as (row & Hrow & Hin).
    assert (r = taken o u row) as ->; [|done].
    apply (NoDup_fmap_eq l_link (links s')); [apply Hw|done|done|].
    by rewrite Ht.
Qed.

End links_pool.

Lemma add_links_counts_inserted_witness :
  let lns := [[32; 97; 160]; [97]; [9; 98; 32; 99; 13; 10]; [32; 12288]; []]%N in
  let s := fst (add_links [[100%N]] empty_store) in
  snd (add_links ([10; 100; 32]%N :: lns) s) = 2
  ∧ l_link <$> links (fst (add_links ([10; 100; 32]%N :: lns) s))
    = [[100]; [97]; [98; 32; 99]]%N.
Proof.
  intros lns s.
  destruct (add_links_counts_inserted ([10; 100; 32]%N :: lns) s)
    as [(rows & Hl & Hn & Hv & _) _].
  assert (Hr : l_link <$> rows = [[97]; [98; 32; 99]]%N) by (rewrite Hv; reflexivity).
  split.
  - rewrite Hn. apply (f_equal length) in Hr. rewrite length_fmap in Hr.
    rewrite Hr. reflexivity.
  - rewrite Hl, fmap_app, Hr. reflexivity.
Defined.

Lemma allocate_exactly_once_witness :
  let s := fst (add_links [[97%N]; [98%N]] empty_store) in
  let calls := [(1, 7); (2, 8); (3, 9)] in
  links_wf s
  ∧ NoDup (tokens_of (snd (allocate_all calls s)))
  ∧ tokens_of (snd (allocate_all calls s)) = [[97%N]; [98%N]].
Proof.
  intros s calls.
  assert (Hwf : links_wf s) by (split; by_decide).
  split; [exact Hwf|].
  destruct (allocate_exactly_once s Hwf) as [_ Hmany].
  specialize (Hmany calls).
  destruct (allocate_all calls s) as [s' log] eqn:Hrun.
  split; [exact (proj1 Hmany)|].
  apply (f_equal snd) in Hrun. cbn [snd] in Hrun. rewrite <- Hrun.
  vm_compute. reflexivity.
Defined.

(** ** Backfill *)

Section backfill.

Context (ADMIN_IDS : gset Z).

Implicit Types (s : store) (rows : list link_row).

Lemma take_row_unused_length order_id user_id row rows :
  NoDup rows → row ∈ rows → l_is_used row = false →
  S (length (List.filter is_unused
       ((λ r, if decide (r = row) then taken order_id user_id row else r) <$> rows)))
  = length (List.filter is_unused rows).
Proof.
  intros Hnd Hin Hun. induction rows as [|a l IH]; [by apply elem_of_nil in Hin|].
  apply NoDup_cons in Hnd as [Hna Hnd]. rewrite fmap_cons.
  destruct (decide (a = row)) as [->|Hne].
  - cbn [List.filter taken is_unused l_is_used negb].
    unfold is_unused at 2. rewrite Hun. cbn [negb length]. do 3 f_equal.
    transitivity (id <$> l); [|by rewrite list_fmap_id].
    apply Forall_fmap_ext_1, Forall_forall. intros r Hr.
    rewrite decide_False; [done|]. by intros ->.
  - apply elem_of_cons in Hin as [->|Hin]; [done|].
    cbn [List.filter]. destruct (is_unused a); cbn [length]; rewrite <- (IH Hnd Hin); done.
Qed.

Lemma pop_keeps_nonempty order_id user_id s :
  links_nonempty s →
  links_nonempty (fst (pop_available_link_for_order order_id user_id s)).
Proof.
  intros Hne.
  destruct (List.filter is_unused (links s)) as [|x t] eqn:Hf.
  - by rewrite pop_none.
  - destruct (pop_some order_id user_id s) as (row & _ & _ & _ & ->);
      [by rewrite Hf|].
    unfold links_nonempty in *. cbn [fst links set_orders set_links].
    rewrite Forall_fmap. eapply Forall_impl; [exact Hne|].
    intros r Hr. cbn. by rewrite use_row_link.
Qed.

(** The loop hands out one token per order until one of the two runs out. *)
Lemma fulfill_loop_count pending : ∀ s sent,
  links_wf s → links_nonempty s →
  snd (fulfill_loop pending s sent)
  = sent + Z.min (Z.of_nat (length pending))
                 (Z.of_nat (length (List.filter is_unused (links s)))).
Proof.
  induction pending as [|o rest IH]; intros s sent Hwf Hne.
  - cbn. lia.
  - cbn [fulfill_loop length].
    pose proof (pop_preserves_wf (o_id o) (o_user_id o) s Hwf) as Hwf1.
    pose proof (pop_keeps_nonempty (o_id o) (o_user_id o) s Hne) as Hne1.
    destruct (pop_cases (o_id o) (o_user_id o) s Hwf)
      as [[Hnone Hpop]|(row & s1 & Hin & Hun & _ & Hpop & Hl1 & _)];
      rewrite Hpop in *; cbn [fst] in *.
    + rewrite Hnone. cbn. lia.
    + assert (Hlink : l_link row ≠ []).
      { unfold links_nonempty in Hne. rewrite Forall_forall in Hne. by apply Hne. }
      assert (Htr : truthy (Some (l_link row)) = true)
        by (cbn; by destruct (l_link row)).
      rewrite Htr. rewrite IH; [| exact Hwf1 | exact Hne1].
      cbn [links set_order_delivered set_orders]. rewrite Hl1.
      pose proof (take_row_unused_length (o_id o) (o_user_id o) row (links s)) as Hlen.
      rewrite <- Hlen; [lia| |exact Hin|exact Hun].
      destruct Hwf as [Hids _]. by apply NoDup_fmap_1 in Hids.
Qed.

Lemma list_pending_orders_length s :
  Z.of_nat (length (list_pending_orders 50 s))
  = Z.min (Z.of_nat (length (List.filter is_pending (orders s)))) 50.
Proof.
  unfold list_pending_orders, sql_limit. cbn [Z.ltb Z.compare].
  rewrite length_take. rewrite (Permutation_length (order_by_perm _ _)).
  change (Z.to_nat 50) with 50%nat. lia.
Qed.

(** The batch is the head of the pending orders in ascending id order. *)
Lemma list_pending_orders_oldest s :
  ∃ later,
    list_pending_orders 50 s ++ later ≡ₚ List.filter is_pending (orders s)
    ∧ StronglySorted (key_le o_id) (list_pending_orders 50 s ++ later).
Proof.
  exists (drop 50 (order_by o_id (List.filter is_pending (orders s)))).
  unfold list_pending_orders, sql_limit. cbn [Z.ltb Z.compare].
  change (Z.to_nat 50) with 50%nat. rewrite take_drop.
  split; [apply order_by_perm|apply order_by_sorted].
Qed.

(** C9, as the code has it: a run takes the pending orders in ascending id
    order, at most 50 of them, and allocates to each in that order until
    the pool or the batch is exhausted; the number of orders it fulfils is
    the minimum of the batch size, [min(pending, 50)], and the number of
    unused tokens at the start. *)
Theorem fulfill_pending_count (caller : Z) (s : store) :
  is_admin ADMIN_IDS caller = true →
  links_wf s → links_nonempty s →
  let pending := List.filter is_pending (orders s) in
  let available := List.filter is_unused (links s) in
  let batch := list_pending_orders 50 s in
  (∃ later, batch ++ later ≡ₚ pending ∧ StronglySorted (key_le o_id) (batch ++ later))
  ∧ Z.of_nat (length batch) = Z.min (Z.of_nat (length pending)) 50
  ∧ sent_count (snd (admin_links_fulfill ADMIN_IDS caller s))
    = snd (fulfill_loop batch s 0)
  ∧ sent_count (snd (admin_links_fulfill ADMIN_IDS caller s))
    = Z.min (Z.min (Z.of_nat (length pending)) 50) (Z.of_nat (length available)).
Proof.
  intros Hadm Hwf Hne pending available batch.
  pose proof (list_pending_orders_length s) as Hlen.
  pose proof (fulfill_loop_count batch s 0 Hwf Hne) as Hcount.
  fold batch pending in Hlen. fold available in Hcount.
  split; [apply list_pending_orders_oldest|]. split; [exact Hlen|].
  assert (Hsent : sent_count (snd (admin_links_fulfill ADMIN_IDS caller s))
                  = snd (fulfill_loop batch s 0)).
  { unfold admin_links_fulfill. rewrite Hadm. cbn [negb]. fold batch.
    destruct batch as [|o rest] eqn:Hb; [reflexivity|].
    destruct (fulfill_loop (o :: rest) s 0) as [s' sent]. cbn [snd].
    destruct ((sent =? 0) && (fst (count_links s') =? 0)) eqn:Hz; [|reflexivity].
    cbn [snd sent_count]. apply andb_true_iff in Hz as [Hz _]. lia. }
  split; [exact Hsent|]. rewrite Hsent, Hcount, Hlen. lia.
Qed.

End backfill.

Lemma fulfill_pending_count_witness :
  let admins : gset Z := {[1]} in
  let s := backlog 51 in
  is_admin admins 1 = true ∧ links_wf s ∧ links_nonempty s
  ∧ sent_count (snd (admin_links_fulfill admins 1 s)) = 50.
Proof.
  intros admins s.
  assert (Hadm : is_admin admins 1 = true) by (vm_compute; reflexivity).
  assert (Hwf : links_wf s) by (split; by_decide).
  assert (Hne : links_nonempty s) by by_decide.
  split; [exact Hadm|]. split; [exact Hwf|]. split; [exact Hne|].
  destruct (fulfill_pending_count admins 1 s Hadm Hwf Hne) as (_ & _ & _ & ->).
  vm_compute. reflexivity.
Defined.

(** C9 as stated fails: with 51 pending orders and 51 unused tokens a run
    fulfils 50 orders, not [min 51 51]. *)
Lemma fulfill_pending_all_counterexample :
  let s := backlog 51 in
  sent_count (snd (admin_links_fulfill {[1]} 1 s))
  ≠ Z.min (Z.of_nat (length (List.filter is_pending (orders s))))
          (Z.of_nat (length (List.filter is_unused (links s)))).
Proof.
  intros s H. vm_compute in H. discriminate H.
Qed.

(** ** Referral commission *)

Section commission.

Context (ADMIN_IDS : gset Z).







End commission.



(** ** Calendar arithmetic *)

Section calendar.

Import DayNumber.

Lemma j2g_split jy jm jd : jalali_to_gregorian jy jm jd = gregorian_of_days (jalali_days jy jm jd).
Proof. unfold jalali_to_gregorian, gregorian_of_days, greg_tail, jalali_days. destruct (jm <? 7); reflexivity. Qed.

Lemma g_d_m_index gm : 1 ≤ gm ≤ 12 →
  py_index g_d_m (gm - 1) = Some (default 0 (g_d_m !! Z.to_nat (gm - 1))).
Proof.
  intros Hm. unfold py_index. destruct (Z.leb_spec 0 (gm - 1)); [|lia].
  assert (Hgm : gm = 1 ∨ gm = 2 ∨ gm = 3 ∨ gm = 4 ∨ gm = 5 ∨ gm = 6 ∨ gm = 7 ∨ gm = 8
                ∨ gm = 9 ∨ gm = 10 ∨ gm = 11 ∨ gm = 12) by lia.
  destruct Hgm as [->|[->|[->|[->|[->|[->|[->|[->|[->|[->|[->| ->]]]]]]]]]]]; reflexivity.
Qed.

Lemma g2j_split gy gm gd : 1600 < gy → 1 ≤ gm ≤ 12 →
  gregorian_to_jalali gy gm gd = Some (jalali_of_days 979 (greg_days (gy - 1600) gm gd)).
Proof.
  intros Hy Hm. unfold gregorian_to_jalali, jalali_of_days, greg_days.
  destruct (Z.gtb_spec gy 1600); [|lia].
  rewrite (g_d_m_index gm Hm). cbn [mbind option_bind].
  generalize (default 0 (g_d_m !! Z.to_nat (gm - 1))). intros off.
  repeat match goal with |- context [if ?c then _ else _] => destruct c end; reflexivity.
Qed.

Lemma leapb_shift gy k : leapb (gy + 400 * k) = leapb gy.
Proof.
  unfold leapb.
  replace (gy + 400 * k) with (gy + (100 * k) * 4) at 1 by lia.
  replace (gy + 400 * k) with (gy + (4 * k) * 100) at 1 by lia.
  replace (gy + 400 * k) with (gy + k * 400) by lia.
  by rewrite !Z.mod_add.
Qed.

Lemma leapb_eq y y' k : y' = y + 400 * k → leapb y' = leapb y.
Proof. intros ->. apply leapb_shift. Qed.

Lemma greg_tail_shift gy k days :
  greg_tail (gy + 400 * k) days = shift_year (400 * k) (greg_tail gy days).
Proof.
  unfold greg_tail, shift_year.
  repeat match goal with |- context [if ?c then _ else _] => destruct c end;
    cbv zeta;
    match goal with
    | |- context [leapb ?a] =>
        match a with
        | context [k] =>
            match goal with
            | |- context [leapb ?b] =>
                lazymatch b with
                | context [k] => fail
                | _ => rewrite (leapb_eq b a k) by lia
                end
            end
        end
    end;
    match goal with
    | |- context [month_scan ?t ?m ?g] => destruct (month_scan t m g)
    end; f_equal; f_equal; lia.
Qed.

Lemma gregorian_of_days_shift days k :
  gregorian_of_days (days + 146097 * k) = shift_year (400 * k) (gregorian_of_days days).
Proof.
  unfold gregorian_of_days.
  replace (days + 146097 * k) with (days + k * 146097) by lia.
  rewrite Z.div_add, Z.mod_add by lia.
  replace (400 * (days / 146097 + k)) with (400 * (days / 146097) + 400 * k) by lia.
  apply greg_tail_shift.
Qed.

Lemma greg_days_shift y k m d : greg_days (y + 400 * k) m d = greg_days y m d + 146097 * k.
Proof.
  unfold greg_days. destruct (m >? 2); cbv zeta.
  - replace (y + 400 * k + 1 + 3) with (y + 1 + 3 + (100 * k) * 4) by lia.
    replace (y + 400 * k + 1 + 99) with (y + 1 + 99 + (4 * k) * 100) by lia.
    replace (y + 400 * k + 1 + 399) with (y + 1 + 399 + k * 400) by lia.
    rewrite !Z.div_add by lia. lia.
  - replace (y + 400 * k + 3) with (y + 3 + (100 * k) * 4) by lia.
    replace (y + 400 * k + 99) with (y + 99 + (4 * k) * 100) by lia.
    replace (y + 400 * k + 399) with (y + 399 + k * 400) by lia.
    rewrite !Z.div_add by lia. lia.
Qed.

Lemma jalali_days_shift jy k jm jd :
  jalali_days (jy + 33 * k) jm jd = jalali_days jy jm jd + 12053 * k.
Proof.
  unfold jalali_days. cbv zeta.
  replace (jy + 33 * k + 1595) with (jy + 1595 + k * 33) by lia.
  rewrite Z.div_add, Z.mod_add by lia. destruct (jm <? 7); lia.
Qed.

Lemma jalali_of_days_shift jy days k :
  jalali_of_days jy (days + 12053 * k) = shift_year (33 * k) (jalali_of_days jy days).
Proof.
  unfold jalali_of_days, shift_year. cbv zeta.
  replace (days + 12053 * k) with (days + k * 12053) by lia.
  rewrite Z.div_add, Z.mod_add by lia.
  repeat match goal with |- context [if ?c then _ else _] => destruct c end;
    f_equal; f_equal; lia.
Qed.

Lemma forall_range_spec f n : ∀ lo x,
  forall_range f lo n = true → lo ≤ x < lo + Z.of_nat n → f x = true.
Proof.
  induction n as [|n IH]; intros lo x Hall Hx; [lia|].
  cbn [forall_range] in Hall. apply andb_true_iff in Hall as [Hlo Hrest].
  destruct (Z.eq_dec x lo) as [->|Hne]; [done|].
  apply (IH (lo + 1)); [done|lia].
Qed.

Lemma jalali_cycle_checked r :
  0 ≤ r < 12053 →
  (let '(y, m, d) := jalali_of_days 979 r in
   (jalali_days y m d =? r + K)
   && (1 <=? m) && (m <=? 12) && (1 <=? d) && (d <=? if m <=? 6 then 31 else 30)) = true.
Proof.
  intros Hr.
  apply (forall_range_spec
           (λ r, let '(y, m, d) := jalali_of_days 979 r in
                 (jalali_days y m d =? r + K)
                 && (1 <=? m) && (m <=? 12) && (1 <=? d)
                 && (d <=? if m <=? 6 then 31 else 30))
           (Z.to_nat 12053) 0); [vm_compute; reflexivity|lia].
Qed.

Lemma jalali_inverse_checked jy jm jd :
  0 ≤ jy < 33 → 1 ≤ jm ≤ 11 → 1 ≤ jd ≤ (if jm <=? 6 then 31 else 30) →
  (let '(y, m, d) := jalali_of_days 979 (jalali_days jy jm jd - K) in
   (y =? jy) && (m =? jm) && (d =? jd)) = true.
Proof.
  intros Hy Hm Hd.
  apply (forall_range_spec
           (λ jd, let '(y, m, d) := jalali_of_days 979 (jalali_days jy jm jd - K) in
                  (y =? jy) && (m =? jm) && (d =? jd))
           (if jm <=? 6 then 31%nat else 30%nat) 1);
    [|destruct (jm <=? 6); lia].
  apply (forall_range_spec
           (λ jm, forall_range
                    (λ jd, let '(y, m, d) :=
                             jalali_of_days 979 (jalali_days jy jm jd - K) in
                           (y =? jy) && (m =? jm) && (d =? jd))
                    1 (if jm <=? 6 then 31%nat else 30%nat))
           11%nat 1); [|lia].
  apply (forall_range_spec
           (λ jy, forall_range
                    (λ jm, forall_range
                             (λ jd, let '(y, m, d) :=
                                      jalali_of_days 979 (jalali_days jy jm jd - K) in
                                    (y =? jy) && (m =? jm) && (d =? jd))
                             1 (if jm <=? 6 then 31%nat else 30%nat))
                    1 11%nat)
           33%nat 0); [vm_compute; reflexivity|lia].
Qed.

Lemma gregorian_cycle_checked y m d :
  1 ≤ y ≤ 400 → 1 ≤ m ≤ 12 → 1 ≤ d ≤ days_in_month (1600 + y) m →
  (let '(gy, gm, gd) := gregorian_of_days (greg_days y m d + K) in
   (gy =? 1600 + y) && (gm =? m) && (gd =? d)) = true.
Proof.
  intros Hy Hm Hd.
  apply (forall_range_spec
           (λ d, let '(gy, gm, gd) := gregorian_of_days (greg_days y m d + K) in
                 (gy =? 1600 + y) && (gm =? m) && (gd =? d))
           (Z.to_nat (days_in_month (1600 + y) m)) 1); [|lia].
  apply (forall_range_spec
           (λ m, forall_range
                   (λ d, let '(gy, gm, gd) := gregorian_of_days (greg_days y m d + K) in
                         (gy =? 1600 + y) && (gm =? m) && (gd =? d))
                   1 (Z.to_nat (days_in_month (1600 + y) m)))
           12%nat 1); [|lia].
  apply (forall_range_spec
           (λ y, forall_range
                   (λ m, forall_range
                           (λ d, let '(gy, gm, gd) :=
                                   gregorian_of_days (greg_days y m d + K) in
                                 (gy =? 1600 + y) && (gm =? m) && (gd =? d))
                           1 (Z.to_nat (days_in_month (1600 + y) m)))
                   1 12%nat)
           400%nat 1); [vm_compute; reflexivity|lia].
Qed.

Lemma gregorian_inverse_checked r :
  0 ≤ r < 146097 →
  (let '(gy, gm, gd) := gregorian_of_days r in
   (1 <=? gm) && (gm <=? 12) && (1 <=? gd) && (gd <=? days_in_month gy gm)
   && (greg_days (gy - 1600) gm gd + K =? r)) = true.
Proof.
  intros Hr.
  apply (forall_range_spec
           (λ r, let '(gy, gm, gd) := gregorian_of_days r in
                 (1 <=? gm) && (gm <=? 12) && (1 <=? gd) && (gd <=? days_in_month gy gm)
                 && (greg_days (gy - 1600) gm gd + K =? r))
           (Z.to_nat 146097) 0); [vm_compute; reflexivity|lia].
Qed.

Lemma is_leap_shift y k : is_leap (y + 400 * k) = is_leap y.
Proof.
  unfold is_leap.
  replace (y + 400 * k) with (y + (100 * k) * 4) at 1 by lia.
  replace (y + 400 * k) with (y + (4 * k) * 100) at 1 by lia.
  replace (y + 400 * k) with (y + k * 400) by lia.
  by rewrite !Z.mod_add.
Qed.

Lemma days_in_month_shift y k m : days_in_month (y + 400 * k) m = days_in_month y m.
Proof. unfold days_in_month. by rewrite is_leap_shift. Qed.

(** Day number to civil date and back, for every day number. *)
Lemma jalali_cycle days :
  let '(y, m, d) := jalali_of_days 979 days in
  jalali_days y m d = days + K
  ∧ 1 ≤ m ≤ 12 ∧ 1 ≤ d ≤ (if m <=? 6 then 31 else 30).
Proof.
  pose proof (Z.div_mod days 12053 ltac:(lia)) as Hd.
  pose proof (Z.mod_pos_bound days 12053 ltac:(lia)) as Hr.
  set (k := days / 12053) in *. set (r := days mod 12053) in *.
  replace days with (r + 12053 * k) by lia.
  rewrite jalali_of_days_shift.
  pose proof (jalali_cycle_checked r Hr) as Hc.
  destruct (jalali_of_days 979 r) as [[y m] d]. cbn [shift_year].
  rewrite jalali_days_shift.
  repeat (apply andb_true_iff in Hc as [Hc ?]).
  split; [lia|]. split; [lia|]. split; [lia|].
  destruct (m <=? 6); lia.
Qed.

Lemma jalali_inverse jy jm jd :
  1 ≤ jm ≤ 11 → 1 ≤ jd ≤ (if jm <=? 6 then 31 else 30) →
  jalali_of_days 979 (jalali_days jy jm jd - K) = (jy, jm, jd).
Proof.
  intros Hm Hd.
  pose proof (Z.div_mod jy 33 ltac:(lia)) as Hy.
  pose proof (Z.mod_pos_bound jy 33 ltac:(lia)) as Hy0.
  set (k := jy / 33) in *. set (y0 := jy mod 33) in *.
  replace jy with (y0 + 33 * k) by lia.
  rewrite jalali_days_shift.
  replace (jalali_days y0 jm jd + 12053 * k - K)
    with (jalali_days y0 jm jd - K + 12053 * k) by lia.
  rewrite jalali_of_days_shift.
  pose proof (jalali_inverse_checked y0 jm jd Hy0 Hm Hd) as Hc3.
  destruct (jalali_of_days 979 (jalali_days y0 jm jd - K)) as [[y m] d].
  cbn [shift_year].
  repeat (apply andb_true_iff in Hc3 as [Hc3 ?]).
  f_equal; [f_equal|]; lia.
Qed.

Lemma gregorian_cycle y m d :
  1 ≤ m ≤ 12 → 1 ≤ d ≤ days_in_month (1600 + y) m →
  gregorian_of_days (greg_days y m d + K) = (1600 + y, m, d).
Proof.
  intros Hm Hd.
  pose proof (Z.div_mod (y - 1) 400 ltac:(lia)) as Hy.
  pose proof (Z.mod_pos_bound (y - 1) 400 ltac:(lia)) as Hy0.
  set (k := (y - 1) / 400) in *. set (y0 := (y - 1) mod 400 + 1).
  assert (Hyk : y = y0 + 400 * k) by (subst y0; lia).
  assert (Hy0' : 1 ≤ y0 ≤ 400) by (subst y0; lia).
  clearbody y0 k. subst y.
  replace (1600 + (y0 + 400 * k)) with (1600 + y0 + 400 * k) in * by lia.
  rewrite days_in_month_shift in Hd.
  rewrite greg_days_shift.
  replace (greg_days y0 m d + 146097 * k + K)
    with (greg_days y0 m d + K + 146097 * k) by lia.
  rewrite gregorian_of_days_shift.
  pose proof (gregorian_cycle_checked y0 m d Hy0' Hm Hd) as Hc3.
  destruct (gregorian_of_days (greg_days y0 m d + K)) as [[gy gm] gd].
  cbn [shift_year].
  repeat (apply andb_true_iff in Hc3 as [Hc3 ?]).
  f_equal; [f_equal|]; lia.
Qed.

Lemma gregorian_inverse days :
  let '(gy, gm, gd) := gregorian_of_days days in
  1 ≤ gm ≤ 12 ∧ 1 ≤ gd ≤ days_in_month gy gm
  ∧ greg_days (gy - 1600) gm gd + K = days.
Proof.
  pose proof (Z.div_mod days 146097 ltac:(lia)) as Hd.
  pose proof (Z.mod_pos_bound days 146097 ltac:(lia)) as Hr.
  set (k := days / 146097) in *. set (r := days mod 146097) in *.
  replace days with (r + 146097 * k) by lia.
  rewrite gregorian_of_days_shift.
  pose proof (gregorian_inverse_checked r Hr) as Hc.
  destruct (gregorian_of_days r) as [[gy gm] gd]. cbn [shift_year].
  repeat (apply andb_true_iff in Hc as [Hc ?]).
  rewrite days_in_month_shift.
  replace (gy + 400 * k - 1600) with (gy - 1600 + 400 * k) by lia.
  rewrite greg_days_shift. lia.
Qed.

(** C7: every date that Python can represent and that lies after the year
    1600 converts to the civil calendar, and converting the result back
    gives the date again. *)
Theorem calendar_round_trip (gy gm gd : Z) :
  valid_date gy gm gd = true → 1600 < gy →
  ∃ jy jm jd,
    gregorian_to_jalali gy gm gd = Some (jy, jm, jd)
    ∧ jalali_to_gregorian jy jm jd = (gy, gm, gd).
Proof.
  intros Hv Hy. unfold valid_date in Hv.
  repeat (apply andb_true_iff in Hv as [Hv ?]).
  assert (Hm : 1 ≤ gm ≤ 12) by lia.
  rewrite (g2j_split gy gm gd Hy Hm).
  pose proof (jalali_cycle (greg_days (gy - 1600) gm gd)) as Hj.
  destruct (jalali_of_days 979 (greg_days (gy - 1600) gm gd)) as [[jy jm] jd].
  destruct Hj as [Hj _].
  exists jy, jm, jd. split; [reflexivity|].
  rewrite j2g_split, Hj.
  replace gy with (1600 + (gy - 1600)) at 2 by lia.
  apply gregorian_cycle; [lia|].
  replace (1600 + (gy - 1600)) with gy by lia. lia.
Qed.

Lemma g_d_m_bound m : 0 ≤ default 0 (g_d_m !! Z.to_nat (m - 1)) ≤ 334.
Proof.
  destruct (Z.to_nat (m - 1)) as [|[|[|[|[|[|[|[|[|[|[|[|k]]]]]]]]]]]];
    try (cbn; lia); destruct k; cbn; lia.
Qed.

Lemma days_in_month_bound y m : days_in_month y m ≤ 31.
Proof.
  unfold days_in_month. destruct ((m =? 2) && is_leap y); [lia|].
  destruct (Z.to_nat m) as [|[|[|[|[|[|[|[|[|[|[|[|[|k]]]]]]]]]]]]];
    try (cbn; lia); destruct k; cbn; lia.
Qed.

Lemma jalali_days_range jy jm jd :
  980 ≤ jy ≤ 9377 → 1 ≤ jm ≤ 12 → 1 ≤ jd ≤ 31 →
  584833 ≤ jalali_days jy jm jd ≤ 3652139.
Proof.
  intros Hy Hm Hd. unfold jalali_days. cbv zeta.
  destruct (Z.ltb_spec jm 7); Z.div_mod_to_equations; lia.
Qed.

Lemma greg_days_far y m d : 8400 ≤ y → 1 ≤ d → 3067958 ≤ greg_days y m d.
Proof.
  intros Hy Hd. unfold greg_days. cbv zeta.
  pose proof (g_d_m_bound m) as Hoff.
  generalize dependent (default 0 (g_d_m !! Z.to_nat (m - 1))). intros off Hoff.
  destruct (m >? 2); Z.div_mod_to_equations; lia.
Qed.

Lemma greg_days_near y m d : y ≤ 0 → d ≤ 31 → greg_days y m d ≤ 286.
Proof.
  intros Hy Hd. unfold greg_days. cbv zeta.
  pose proof (g_d_m_bound m) as Hoff.
  generalize dependent (default 0 (g_d_m !! Z.to_nat (m - 1))). intros off Hoff.
  destruct (m >? 2); Z.div_mod_to_equations; lia.
Qed.

(** A civil date of the years 980 to 9377 converts to a date Python can
    represent, later than 1600, with the same day number. *)
Lemma gregorian_year_range jy jm jd :
  980 ≤ jy ≤ 9377 → 1 ≤ jm ≤ 12 → 1 ≤ jd ≤ 31 →
  let '(gy, gm, gd) := jalali_to_gregorian jy jm jd in
  valid_date gy gm gd = true ∧ 1600 < gy
  ∧ greg_days (gy - 1600) gm gd + K = jalali_days jy jm jd.
Proof.
  intros Hy Hm Hd. rewrite j2g_split.
  pose proof (gregorian_inverse (jalali_days jy jm jd)) as Hg.
  pose proof (jalali_days_range jy jm jd Hy Hm Hd) as Hjr.
  destruct (gregorian_of_days (jalali_days jy jm jd)) as [[gy gm] gd].
  destruct Hg as (Hgm & Hgd & Hinv).
  pose proof (days_in_month_bound gy gm) as Hdim.
  unfold K in *.
  assert (Hlo : 1600 < gy).
  { destruct (Z_lt_le_dec 1600 gy) as [?|Hle]; [done|].
    pose proof (greg_days_near (gy - 1600) gm gd ltac:(lia) ltac:(lia)). lia. }
  assert (Hhi : gy ≤ 9999).
  { destruct (Z_le_gt_dec gy 9999) as [?|Hgt]; [done|].
    pose proof (greg_days_far (gy - 1600) gm gd ltac:(lia) ltac:(lia)). lia. }
  split; [|split; [lia|exact Hinv]].
  unfold valid_date, MAXYEAR.
  repeat (apply andb_true_iff; split); lia.
Qed.

Lemma jalali_days_before_980 jy jm jd :
  jy ≤ 979 → 1 ≤ jm ≤ 12 → 1 ≤ jd ≤ 31 → jalali_days jy jm jd ≤ 584833.
Proof.
  intros Hy Hm Hd. unfold jalali_days. cbv zeta.
  destruct (Z.ltb_spec jm 7); Z.div_mod_to_equations; lia.
Qed.

Lemma greg_days_from_1602 y m d : 2 ≤ y → 1 ≤ d → 652 ≤ greg_days y m d.
Proof.
  intros Hy Hd. unfold greg_days. cbv zeta.
  pose proof (g_d_m_bound m) as Hoff.
  generalize dependent (default 0 (g_d_m !! Z.to_nat (m - 1))). intros off Hoff.
  destruct (m >? 2); Z.div_mod_to_equations; lia.
Qed.

Lemma jalali_month_days_range jy jm :
  29 ≤ jalali_month_days jy jm ≤ 31
  ∧ (jm ≤ 11 → jalali_month_days jy jm = if jm <=? 6 then 31 else 30).
Proof.
  unfold jalali_month_days.
  destruct (Z.leb_spec jm 6); [lia|].
  destruct (Z.leb_spec jm 11); [lia|].
  destruct (_ <? 682); lia.
Qed.

(** What [add_months_shamsi] returns, and the civil form of the result. *)
Lemma add_months_shamsi_result (dt : datetime) (n jy jm jd : Z) :
  Datetime.valid dt = true → 1601 < year dt →
  gregorian_to_jalali (year dt) (month dt) (day dt) = Some (jy, jm, jd) →
  0 ≤ n →
  let total := (jm - 1) + n in
  let new_jy := jy + total / 12 in
  let new_jm := total mod 12 + 1 in
  let new_jd := Z.min jd (jalali_month_days new_jy new_jm) in
  new_jy ≤ 9377 →
  ∃ dt',
    add_months_shamsi dt n = Some dt'
    ∧ Datetime.valid dt' = true
    ∧ (year dt', month dt', day dt') = jalali_to_gregorian new_jy new_jm new_jd
    ∧ (hour dt', minute dt', second dt') = (hour dt, minute dt, second dt)
    ∧ (new_jm ≤ 11 →
         gregorian_to_jalali (year dt') (month dt') (day dt')
         = Some (new_jy, new_jm, new_jd))
    ∧ (n = 1 → jd = 31 → jalali_month_days jy jm = 31 →
       jalali_month_days new_jy new_jm = 30 →
         gregorian_to_jalali (year dt') (month dt') (day dt') = Some (jy, jm + 1, 30)).
Proof.
  intros Hv Hy Hciv Hn total new_jy new_jm new_jd Hmax.
  unfold Datetime.valid in Hv. apply andb_true_iff in Hv as [Hvd Hvt].
  unfold valid_date in Hvd. repeat (apply andb_true_iff in Hvd as [Hvd ?]).
  assert (Hgm : 1 ≤ month dt ≤ 12) by lia.
  rewrite (g2j_split (year dt) (month dt) (day dt) ltac:(lia) Hgm) in Hciv.
  pose proof (jalali_cycle (greg_days (year dt - 1600) (month dt) (day dt))) as Hcyc.
  injection Hciv as Hciv. rewrite Hciv in Hcyc. destruct Hcyc as (Hdays & Hjm & Hjd).
  assert (Hjd31 : 1 ≤ jd ≤ 31) by (destruct (jm <=? 6); lia).
  assert (Hjy : 980 ≤ jy).
  { destruct (Z_le_gt_dec 980 jy) as [?|Hlt]; [done|].
    pose proof (jalali_days_before_980 jy jm jd ltac:(lia) Hjm Hjd31).
    pose proof (greg_days_from_1602 (year dt - 1600) (month dt) (day dt)
                  ltac:(lia) ltac:(lia)).
    unfold K in *. lia. }
  assert (Htot : 0 ≤ total) by (subst total; lia).
  assert (Hq : 0 ≤ total / 12) by (apply Z.div_pos; lia).
  pose proof (Z.mod_pos_bound total 12 ltac:(lia)) as Hmod.
  assert (Hnm : 1 ≤ new_jm ≤ 12) by (subst new_jm; lia).
  assert (Hny : 980 ≤ new_jy ≤ 9377) by (subst new_jy; lia).
  destruct (jalali_month_days_range new_jy new_jm) as [Hmd Hmd11].
  assert (Hnd : 1 ≤ new_jd ≤ 31) by (subst new_jd; lia).
  pose proof (gregorian_year_range new_jy new_jm new_jd Hny Hnm Hnd) as Hg.
  unfold add_months_shamsi.
  rewrite (g2j_split (year dt) (month dt) (day dt) ltac:(lia) Hgm), Hciv.
  cbn [mbind option_bind]. fold total. fold new_jy. fold new_jm. fold new_jd.
  destruct (jalali_to_gregorian new_jy new_jm new_jd) as [[gy gm] gd] eqn:Hj2g.
  destruct Hg as (Hvalid & Hgy & Hinv).
  unfold Datetime.replace. rewrite Hvalid.
  eexists. split; [reflexivity|].
  split; [unfold Datetime.valid; cbn [year month day hour minute second];
          by rewrite Hvalid, Hvt|].
  cbn [year month day hour minute second].
  split; [reflexivity|]. split; [reflexivity|].
  assert (Hback : new_jm ≤ 11 →
            gregorian_to_jalali gy gm gd = Some (new_jy, new_jm, new_jd)).
  { intros H11. unfold valid_date in Hvalid.
    repeat (apply andb_true_iff in Hvalid as [Hvalid ?]).
    rewrite (g2j_split gy gm gd Hgy ltac:(lia)). f_equal.
    replace (greg_days (gy - 1600) gm gd)
      with (jalali_days new_jy new_jm new_jd - K) by lia.
    apply jalali_inverse; [lia|].
    specialize (Hmd11 H11). subst new_jd. destruct (new_jm <=? 6); lia. }
  split; [exact Hback|].
  intros -> -> H31 H30.
  assert (Hjm6 : jm ≤ 6).
  { unfold jalali_month_days in H31. destruct (Z.leb_spec jm 6); [done|].
    destruct (jm <=? 11); [lia|]. destruct (_ <? 682); lia. }
  assert (Htq : total / 12 = 0) by (apply Z.div_small; subst total; lia).
  assert (Htm : total mod 12 = jm) by (rewrite Z.mod_small; subst total; lia).
  assert (Hnj : new_jm = jm + 1) by (subst new_jm; lia).
  assert (Hnyj : new_jy = jy) by (subst new_jy; lia).
  assert (H7 : 7 ≤ new_jm).
  { unfold jalali_month_days in H30. destruct (Z.leb_spec new_jm 6); lia. }
  rewrite Hback by lia. f_equal. f_equal; [f_equal|]; [lia|lia|].
  subst new_jd. rewrite H30. lia.
Qed.

Lemma esfand_inverse_checked jy jd :
  0 ≤ jy < 33 → 1 ≤ jd ≤ 30 →
  (let '(y, m, d) := jalali_of_days 979 (jalali_days jy 12 jd - K) in
   ((y =? jy) && (m =? 12) && (d =? jd))
   || ((jd =? 30) && (y =? jy + 1) && (m =? 1) && (d =? 1))) = true.
Proof.
  intros Hy Hd.
  apply (forall_range_spec
           (λ jd, let '(y, m, d) := jalali_of_days 979 (jalali_days jy 12 jd - K) in
                  ((y =? jy) && (m =? 12) && (d =? jd))
                  || ((jd =? 30) && (y =? jy + 1) && (m =? 1) && (d =? 1)))
           30%nat 1); [|lia].
  apply (forall_range_spec
           (λ jy, forall_range
                    (λ jd, let '(y, m, d) :=
                             jalali_of_days 979 (jalali_days jy 12 jd - K) in
                           ((y =? jy) && (m =? 12) && (d =? jd))
                           || ((jd =? 30) && (y =? jy + 1) && (m =? 1) && (d =? 1)))
                    1 30%nat)
           33%nat 0); [vm_compute; reflexivity|lia].
Qed.

(** Day 30 of the last month is read back as itself in a leap year of the
    converters and as the first day of the next year otherwise; the days
    before it are read back as themselves. *)
Lemma esfand_inverse jy jd :
  1 ≤ jd ≤ 30 →
  jalali_of_days 979 (jalali_days jy 12 jd - K) = (jy, 12, jd)
  ∨ (jd = 30 ∧ jalali_of_days 979 (jalali_days jy 12 jd - K) = (jy + 1, 1, 1)).
Proof.
  intros Hd.
  pose proof (Z.div_mod jy 33 ltac:(lia)) as Hy.
  pose proof (Z.mod_pos_bound jy 33 ltac:(lia)) as Hy0.
  set (k := jy / 33) in *. set (y0 := jy mod 33) in *.
  replace jy with (y0 + 33 * k) by lia.
  rewrite jalali_days_shift.
  replace (jalali_days y0 12 jd + 12053 * k - K)
    with (jalali_days y0 12 jd - K + 12053 * k) by lia.
  rewrite jalali_of_days_shift.
  pose proof (esfand_inverse_checked y0 jd Hy0 Hd) as Hc.
  destruct (jalali_of_days 979 (jalali_days y0 12 jd - K)) as [[y m] d].
  cbn [shift_year].
  apply orb_true_iff in Hc as [Hc|Hc]; repeat (apply andb_true_iff in Hc as [Hc ?]).
  - left. f_equal; [f_equal|]; lia.
  - right. split; [lia|]. f_equal; [f_equal|]; lia.
Qed.


Lemma days_before_year_shift y k :
  days_before_year (y + 400 * k) = days_before_year y + 146097 * k.
Proof.
  unfold days_before_year. cbv zeta.
  replace (y + 400 * k - 1) with (y - 1 + (100 * k) * 4) at 2 by lia.
  replace (y + 400 * k - 1) with (y - 1 + (4 * k) * 100) at 2 by lia.
  replace (y + 400 * k - 1) with (y - 1 + k * 400) at 2 by lia.
  rewrite !Z.div_add by lia. lia.
Qed.

Lemma ymd2ord_shift y k m d : ymd2ord (y + 400 * k) m d = ymd2ord y m d + 146097 * k.
Proof.
  unfold ymd2ord, days_before_month. rewrite days_before_year_shift, is_leap_shift. lia.
Qed.

Lemma ord2ymd_shift n k : ord2ymd (n + 146097 * k) = shift_year (400 * k) (ord2ymd n).
Proof.
  unfold ord2ymd, shift_year. cbv zeta.
  replace (n + 146097 * k - 1) with (n - 1 + k * 146097) by lia.
  rewrite Z.div_add, Z.mod_add by lia.
  repeat match goal with |- context [if ?c then _ else _] => destruct c end;
    f_equal; f_equal; lia.
Qed.

Lemma ord2ymd_checked n :
  1 ≤ n < 146098 →
  (let '(y, m, d) := ord2ymd n in
   (1 <=? m) && (m <=? 12) && (1 <=? d) && (d <=? days_in_month y m)
   && (ymd2ord y m d =? n)) = true.
Proof.
  intros Hn.
  apply (forall_range_spec
           (λ n, let '(y, m, d) := ord2ymd n in
                 (1 <=? m) && (m <=? 12) && (1 <=? d) && (d <=? days_in_month y m)
                 && (ymd2ord y m d =? n))
           (Z.to_nat 146097) 1); [vm_compute; reflexivity|lia].
Qed.

Lemma ord2ymd_inverse n :
  let '(y, m, d) := ord2ymd n in
  1 ≤ m ≤ 12 ∧ 1 ≤ d ≤ days_in_month y m ∧ ymd2ord y m d = n.
Proof.
  pose proof (Z.div_mod (n - 1) 146097 ltac:(lia)) as Hd.
  pose proof (Z.mod_pos_bound (n - 1) 146097 ltac:(lia)) as Hr.
  set (k := (n - 1) / 146097) in *. set (r := (n - 1) mod 146097 + 1).
  assert (Hn : n = r + 146097 * k) by (subst r; lia).
  assert (Hr' : 1 ≤ r < 146098) by (subst r; lia).
  clearbody r k. subst n.
  rewrite ord2ymd_shift.
  pose proof (ord2ymd_checked r Hr') as Hc.
  destruct (ord2ymd r) as [[y m] d]. cbn [shift_year].
  repeat (apply andb_true_iff in Hc as [Hc ?]).
  rewrite days_in_month_shift, ymd2ord_shift. lia.
Qed.

Lemma days_before_month_bound y m : 1 ≤ m ≤ 12 → 0 ≤ days_before_month y m ≤ 335.
Proof.
  intros Hm. unfold days_before_month.
  assert (Hb : 0 ≤ default 0 (DAYS_BEFORE_MONTH !! Z.to_nat m) ≤ 334).
  { assert (Hgm : m = 1 ∨ m = 2 ∨ m = 3 ∨ m = 4 ∨ m = 5 ∨ m = 6 ∨ m = 7 ∨ m = 8
                  ∨ m = 9 ∨ m = 10 ∨ m = 11 ∨ m = 12) by lia.
    destruct Hgm as [->|[->|[->|[->|[->|[->|[->|[->|[->|[->|[->| ->]]]]]]]]]]];
      match goal with
      | |- context [default 0 ?x] =>
          let v := eval vm_compute in (default 0 x) in change (default 0 x) with v
      end; lia. }
  destruct ((m >? 2) && is_leap y); lia.
Qed.

Lemma ymd2ord_bounds y m d :
  1 ≤ m ≤ 12 → 1 ≤ d ≤ 31 →
  (y - 1) * 365 + (y - 1) / 4 - (y - 1) / 100 + (y - 1) / 400 + 1 ≤ ymd2ord y m d
  ∧ ymd2ord y m d ≤ (y - 1) * 365 + (y - 1) / 4 - (y - 1) / 100 + (y - 1) / 400 + 366.
Proof.
  intros Hm Hd. unfold ymd2ord, days_before_year. cbv zeta.
  pose proof (days_before_month_bound y m Hm). lia.
Qed.

Lemma ymd2ord_year_close y m d y' m' d' :
  1 ≤ m ≤ 12 → 1 ≤ d ≤ 31 → 1 ≤ m' ≤ 12 → 1 ≤ d' ≤ 31 →
  ymd2ord y m d - 1 ≤ ymd2ord y' m' d' ≤ ymd2ord y m d + 1 →
  y - 1 ≤ y' ≤ y + 1.
Proof.
  intros Hm Hd Hm' Hd' Hclose.
  destruct (ymd2ord_bounds y m d Hm Hd) as [Hl Hu].
  destruct (ymd2ord_bounds y' m' d' Hm' Hd') as [Hl' Hu'].
  revert Hl Hu Hl' Hu' Hclose.
  generalize (ymd2ord y m d) (ymd2ord y' m' d'). intros o o' Hl Hu Hl' Hu' Hclose.
  Z.div_mod_to_equations; lia.
Qed.

Lemma ymd2ord_range y m d :
  2 ≤ y ≤ 9998 → 1 ≤ m ≤ 12 → 1 ≤ d ≤ 31 → 366 ≤ ymd2ord y m d ≤ 3652058.
Proof.
  intros Hy Hm Hd. destruct (ymd2ord_bounds y m d Hm Hd) as [Hl Hu].
  revert Hl Hu. generalize (ymd2ord y m d). intros o Hl Hu.
  Z.div_mod_to_equations; lia.
Qed.

Lemma ymd2ord_year_range y m d :
  1 ≤ m ≤ 12 → 1 ≤ d ≤ 31 → 1 ≤ ymd2ord y m d ≤ 3652059 → 1 ≤ y ≤ 9999.
Proof.
  intros Hm Hd. destruct (ymd2ord_bounds y m d Hm Hd) as [Hl Hu].
  revert Hl Hu. generalize (ymd2ord y m d). intros o Hl Hu Ho.
  Z.div_mod_to_equations; lia.
Qed.

(** Adding less than a day to a valid datetime of the years 2 to 9998
    gives a valid datetime at most one year away. *)
Lemma add_seconds_valid dt delta :
  Datetime.valid dt = true → -86400 < delta < 86400 → 2 ≤ year dt ≤ 9998 →
  ∃ dt',
    add_seconds dt delta = Some dt' ∧ Datetime.valid dt' = true
    ∧ year dt - 1 ≤ year dt' ≤ year dt + 1.
Proof.
  intros Hv Hdelta Hy. unfold Datetime.valid in Hv.
  apply andb_true_iff in Hv as [Hvd Hvt].
  unfold valid_date in Hvd. repeat (apply andb_true_iff in Hvd as [Hvd ?]).
  unfold valid_time in Hvt. repeat (apply andb_true_iff in Hvt as [Hvt ?]).
  pose proof (days_in_month_bound (year dt) (month dt)) as Hdim.
  assert (Hm : 1 ≤ month dt ≤ 12) by lia.
  assert (Hd : 1 ≤ day dt ≤ 31) by lia.
  pose proof (ymd2ord_range _ _ _ Hy Hm Hd) as Hord.
  unfold add_seconds.
  set (ord := ymd2ord (year dt) (month dt) (day dt)) in *.
  set (total := ord * 86400 + hour dt * 3600 + minute dt * 60 + second dt + delta).
  assert (Hdays : ord - 1 ≤ total / 86400 ≤ ord + 1).
  { subst total. Z.div_mod_to_equations; lia. }
  pose proof (Z.mod_pos_bound total 86400 ltac:(lia)) as Hsecs.
  set (days := total / 86400) in *. set (secs := total mod 86400) in *.
  destruct (Z.ltb_spec 0 days); [|lia].
  unfold MAXORDINAL. destruct (Z.leb_spec days 3652059); [|lia].
  cbn [andb].
  pose proof (ord2ymd_inverse days) as Hinv.
  destruct (ord2ymd days) as [[y' m'] d'].
  destruct Hinv as (Hm' & Hd' & Hord').
  pose proof (days_in_month_bound y' m') as Hdim'.
  assert (Hd31 : 1 ≤ d' ≤ 31) by lia.
  pose proof (ymd2ord_year_range y' m' d' Hm' Hd31 ltac:(lia)) as Hy'.
  pose proof (ymd2ord_year_close (year dt) (month dt) (day dt) y' m' d'
                Hm Hd Hm' Hd31 ltac:(fold ord; lia)) as Hclose.
  eexists. split; [reflexivity|]. cbn [year]. split; [|exact Hclose].
  unfold Datetime.valid, valid_date, valid_time, MAXYEAR.
  cbn [year month day hour minute second].
  repeat (apply andb_true_iff; split); try lia;
    apply Z.leb_le; Z.div_mod_to_equations; lia.
Qed.

Lemma civil_year_upper gy gm gd jy jm jd :
  1600 < gy ≤ 9999 → 1 ≤ gm ≤ 12 → 1 ≤ gd ≤ 31 →
  1 ≤ jm ≤ 12 → 1 ≤ jd ≤ 31 →
  jalali_days jy jm jd = greg_days (gy - 1600) gm gd + K →
  jy ≤ gy - 621.
Proof.
  intros Hy Hm Hd Hjm Hjd. unfold jalali_days, greg_days, K. cbv zeta.
  pose proof (g_d_m_bound gm) as Hoff.
  generalize dependent (default 0 (g_d_m !! Z.to_nat (gm - 1))). intros off Hoff.
  destruct (gm >? 2); destruct (jm <? 7); intros Heq;
    Z.div_mod_to_equations; lia.
Qed.

Lemma civil_year_lower gy gm gd jy jm jd :
  980 ≤ jy ≤ 9377 → 1 ≤ gm ≤ 12 → 1 ≤ gd ≤ 31 →
  1 ≤ jm ≤ 12 → 1 ≤ jd ≤ 31 →
  jalali_days jy jm jd = greg_days (gy - 1600) gm gd + K →
  gy ≤ jy + 622.
Proof.
  intros Hy Hm Hd Hjm Hjd. unfold jalali_days, greg_days, K. cbv zeta.
  pose proof (g_d_m_bound gm) as Hoff.
  generalize dependent (default 0 (g_d_m !! Z.to_nat (gm - 1))). intros off Hoff.
  destruct (gm >? 2); destruct (jm <? 7); intros Heq;
    Z.div_mod_to_equations; lia.
Qed.

(** The three date computations of a renewal succeed on every valid base
    of the years 1603 to 9995, for up to twelve months. *)
Lemma renewal_dates_exist (base : datetime) (months : Z) :
  Datetime.valid base = true → 1602 < year base ≤ 9995 → 0 ≤ months ≤ 12 →
  ∃ base_iran new_exp_iran new_exp_utc,
    to_iran base = Some base_iran
    ∧ add_months_shamsi base_iran months = Some new_exp_iran
    ∧ from_iran new_exp_iran = Some new_exp_utc
    ∧ Datetime.valid new_exp_utc = true.
Proof.
  intros Hv Hy Hmonths.
  destruct (add_seconds_valid base IRAN_OFFSET Hv ltac:(unfold IRAN_OFFSET; lia)
              ltac:(lia)) as (bi & Hto & Hvbi & Hybi).
  pose proof Hvbi as Hvbi'. unfold Datetime.valid in Hvbi'.
  apply andb_true_iff in Hvbi' as [Hvd _].
  unfold valid_date in Hvd. repeat (apply andb_true_iff in Hvd as [Hvd ?]).
  pose proof (days_in_month_bound (year bi) (month bi)) as Hdim.
  assert (Hgm : 1 ≤ month bi ≤ 12) by lia.
  pose proof (g2j_split (year bi) (month bi) (day bi) ltac:(lia) Hgm) as Hciv.
  pose proof (jalali_cycle (greg_days (year bi - 1600) (month bi) (day bi))) as Hcyc.
  destruct (jalali_of_days 979 (greg_days (year bi - 1600) (month bi) (day bi)))
    as [[jy jm] jd].
  destruct Hcyc as (Hdays & Hjm & Hjd).
  assert (Hjd31 : 1 ≤ jd ≤ 31) by (destruct (jm <=? 6); lia).
  pose proof (civil_year_upper (year bi) (month bi) (day bi) jy jm jd
                ltac:(lia) Hgm ltac:(lia) Hjm Hjd31 Hdays) as Hjy.
  assert (Hq : (jm - 1 + months) / 12 ≤ 1) by (Z.div_mod_to_equations; lia).
  destruct (add_months_shamsi_result bi months jy jm jd Hvbi ltac:(lia) Hciv
              ltac:(lia) ltac:(lia))
    as (ne & Hadd & Hvne & Hdate & _ & _ & _).
  set (total := jm - 1 + months) in *.
  assert (Hq0 : 0 ≤ total / 12) by (apply Z.div_pos; subst total; lia).
  pose proof (Z.mod_pos_bound total 12 ltac:(lia)) as Hmod.
  set (ny := jy + total / 12) in *. set (nm := total mod 12 + 1) in *.
  destruct (jalali_month_days_range ny nm) as [Hmd _].
  set (nd := Z.min jd (jalali_month_days ny nm)) in *.
  assert (Hjy980 : 980 ≤ jy).
  { destruct (Z_le_gt_dec 980 jy) as [?|Hlt]; [done|].
    pose proof (jalali_days_before_980 jy jm jd ltac:(lia) Hjm Hjd31).
    pose proof (greg_days_from_1602 (year bi - 1600) (month bi) (day bi)
                  ltac:(lia) ltac:(lia)).
    unfold K in *. lia. }
  assert (Hny : 980 ≤ ny ≤ 9377) by (subst ny; lia).
  assert (Hnm : 1 ≤ nm ≤ 12) by (subst nm; lia).
  assert (Hnd : 1 ≤ nd ≤ 31) by (subst nd; lia).
  pose proof (gregorian_year_range ny nm nd Hny Hnm Hnd) as Hrange.
  rewrite <- Hdate in Hrange. destruct Hrange as (Hvd' & Hgy & Hinv).
  unfold valid_date in Hvd'. repeat (apply andb_true_iff in Hvd' as [Hvd' ?]).
  pose proof (days_in_month_bound (year ne) (month ne)) as Hdim'.
  pose proof (civil_year_lower (year ne) (month ne) (day ne) ny nm nd
                Hny ltac:(lia) ltac:(lia) Hnm Hnd (eq_sym Hinv)) as Hyne.
  destruct (add_seconds_valid ne (- IRAN_OFFSET) Hvne ltac:(unfold IRAN_OFFSET; lia)
              ltac:(lia)) as (nu & Hfrom & Hvnu & _).
  exists bi, ne, nu. done.
Qed.

End calendar.

Lemma calendar_round_trip_witness :
  valid_date 2024 3 20 = true ∧ 1600 < 2024
  ∧ ∃ jy jm jd,
      gregorian_to_jalali 2024 3 20 = Some (jy, jm, jd)
      ∧ jalali_to_gregorian jy jm jd = (2024, 3, 20).
Proof.
  split; [reflexivity|]. split; [lia|].
  apply (calendar_round_trip 2024 3 20); [reflexivity|lia].
Defined.



(** ** Purchase and renewal *)

Section purchase.

Implicit Types (s : store).

Lemma try_deduct_wallet_frame u a s :
  let s' := fst (try_deduct_wallet u a s) in
  subscriptions s' = subscriptions s ∧ orders s' = orders s ∧ links s' = links s.
Proof. unfold try_deduct_wallet. by destruct (_ <? a). Qed.

Lemma pop_subscriptions order_id user_id s :
  subscriptions (fst (pop_available_link_for_order order_id user_id s)) = subscriptions s.
Proof.
  unfold pop_available_link_for_order.
  by destruct (sql_limit 1 (order_by l_id (List.filter is_unused (links s)))).
Qed.

Lemma pop_wallets order_id user_id s :
  wallets (fst (pop_available_link_for_order order_id user_id s)) = wallets s.
Proof.
  unfold pop_available_link_for_order.
  by destruct (sql_limit 1 (order_by l_id (List.filter is_unused (links s)))).
Qed.

(** What a purchase stores, once the three date computations are known
    to succeed. *)
Lemma purchase_stores_expiry
    (now_utc : datetime) (user_id months price : Z) (s : store)
    (base_iran new_exp_iran new_exp_utc : datetime) :
  PLANS !! months = Some price →
  price ≤ get_wallet_balance user_id s →
  to_iran (renewal_base now_utc (get_subscription user_id s)) = Some base_iran →
  add_months_shamsi base_iran months = Some new_exp_iran →
  from_iran new_exp_iran = Some new_exp_utc →
  let s' := fst (confirm_purchase now_utc user_id months s) in
  get_subscription user_id s' = Some (mk_sub new_exp_utc false false)
  ∧ get_wallet_balance user_id s' = get_wallet_balance user_id s - price.
Proof.
  intros Hplan Hbal Hto Hadd Hfrom s'.
  subst s'. unfold confirm_purchase. rewrite Hplan.
  destruct (Z.ltb_spec (get_wallet_balance user_id s) price) as [?|_]; [lia|].
  destruct (try_deduct_wallet_frame user_id price s) as (Hsub1 & _ & _).
  destruct (try_deduct_wallet_ok user_id price s Hbal) as (s1 & Hded & Hbal1 & _).
  rewrite Hded in *. cbn [fst negb] in *.
  destruct (create_order user_id months price s1) as [s2 order_id] eqn:Hco.
  assert (Hs2 : subscriptions s2 = subscriptions s ∧ wallets s2 = wallets s1).
  { apply (f_equal fst) in Hco. cbn [fst] in Hco. subst s2. by rewrite <- Hsub1. }
  destruct Hs2 as [Hsub2 Hw2].
  assert (Hbase : get_subscription user_id s2 = get_subscription user_id s).
  { unfold get_subscription. by rewrite Hsub2. }
  rewrite Hbase, Hto. cbn [mbind option_bind]. rewrite Hadd. cbn [mbind option_bind].
  rewrite Hfrom. cbn [mbind option_bind].
  set (s3 := set_subscription user_id new_exp_utc s2).
  pose proof (pop_subscriptions order_id user_id s3) as Hsub4.
  pose proof (pop_wallets order_id user_id s3) as Hw4.
  destruct (pop_available_link_for_order order_id user_id s3) as [s4 link].
  cbn [fst] in Hsub4, Hw4.
  assert (Hfinal : ∀ sf, subscriptions sf = subscriptions s4 → wallets sf = wallets s4 →
            get_subscription user_id sf = Some (mk_sub new_exp_utc false false)
            ∧ get_wallet_balance user_id sf = get_wallet_balance user_id s - price).
  { intros sf Hs Hw. unfold get_subscription, get_wallet_balance in *.
    rewrite Hs, Hsub4, Hw, Hw4. subst s3.
    cbn [subscriptions wallets set_subscription set_subscriptions].
    rewrite lookup_insert_eq, Hw2. split; [done|exact Hbal1]. }
  destruct (truthy link); cbn [fst]; apply Hfinal; reflexivity.
Qed.

Lemma PLANS_months months price : PLANS !! months = Some price → 0 ≤ months ≤ 12.
Proof.
  intros H.
  destruct (decide (months = 2)) as [->|?]; [lia|].
  destruct (decide (months = 4)) as [->|?]; [lia|].
  destruct (decide (months = 6)) as [->|?]; [lia|].
  destruct (decide (months = 12)) as [->|?]; [lia|].
  exfalso. unfold PLANS in H. cbn [list_to_map foldr fst snd] in H.
  rewrite !lookup_insert_ne, lookup_empty in H by done. done.
Qed.

(** C5, as the code has it: a purchase that debits successfully takes as
    base the stored expiry when it is strictly later than now, and now
    otherwise (also when there is no subscription).  For a valid base of
    the years 1603 to 9995 it moves the base to Iran local time (UTC+3:30),
    adds the months there and moves the result back to UTC, all three
    without error; the subscription row is upserted with that expiry and
    both notification flags false, and the wallet is debited by the
    price. *)
Theorem purchase_renews_in_iran_time
    (now_utc : datetime) (user_id months price : Z) (s : store) :
  PLANS !! months = Some price →
  price ≤ get_wallet_balance user_id s →
  let base_utc := renewal_base now_utc (get_subscription user_id s) in
  Datetime.valid base_utc = true → 1602 < year base_utc ≤ 9995 →
  let s' := fst (confirm_purchase now_utc user_id months s) in
  match get_subscription user_id s with
  | Some sub =>
      if Datetime.gt (expires_at sub) now_utc
      then base_utc = expires_at sub else base_utc = now_utc
  | None => base_utc = now_utc
  end
  ∧ (∃ base_iran new_exp_iran new_exp_utc,
       to_iran base_utc = Some base_iran
       ∧ add_months_shamsi base_iran months = Some new_exp_iran
       ∧ from_iran new_exp_iran = Some new_exp_utc
       ∧ get_subscription user_id s' = Some (mk_sub new_exp_utc false false))
  ∧ get_wallet_balance user_id s' = get_wallet_balance user_id s - price.
Proof.
  intros Hplan Hbal base_utc Hv Hy s'.
  split.
  { subst base_utc. unfold renewal_base.
    destruct (get_subscription user_id s) as [sub|]; [|done].
    by destruct (Datetime.gt (expires_at sub) now_utc). }
  destruct (renewal_dates_exist base_utc months Hv Hy (PLANS_months _ _ Hplan))
    as (base_iran & new_exp_iran & new_exp_utc & Hto & Hadd & Hfrom & _).
  destruct (purchase_stores_expiry now_utc user_id months price s
              base_iran new_exp_iran new_exp_utc Hplan Hbal Hto Hadd Hfrom)
    as [Hsub Hw].
  split; [|exact Hw].
  exists base_iran, new_exp_iran, new_exp_utc. done.
Qed.

End purchase.

Lemma purchase_renews_in_iran_time_witness :
  let now_utc := mkdt 2024 3 1 12 0 0 in
  let s := set_subscription 7 (mkdt 2024 3 19 21 0 0)
             (fst (add_wallet_balance 7 200000 empty_store)) in
  let base_utc := renewal_base now_utc (get_subscription 7 s) in
  PLANS !! 2 = Some 150000
  ∧ 150000 ≤ get_wallet_balance 7 s
  ∧ Datetime.valid base_utc = true
  ∧ 1602 < year base_utc ≤ 9995
  ∧ get_subscription 7 (fst (confirm_purchase now_utc 7 2 s))
    = Some (mk_sub (mkdt 2024 5 20 21 0 0) false false).
Proof.
  intros now_utc s base_utc.
  assert (Hplan : PLANS !! 2 = Some 150000) by reflexivity.
  assert (Hbal : 150000 ≤ get_wallet_balance 7 s) by (vm_compute; discriminate).
  assert (Hv : Datetime.valid base_utc = true) by reflexivity.
  assert (Hy : 1602 < year base_utc ≤ 9995) by (vm_compute; split; [reflexivity|discriminate]).
  split; [exact Hplan|]. split; [exact Hbal|]. split; [exact Hv|]. split; [exact Hy|].
  destruct (purchase_renews_in_iran_time now_utc 7 2 150000 s Hplan Hbal Hv Hy)
    as (_ & (bi & ne & nu & Hto & Hadd & Hfrom & Hsub) & _).
  rewrite Hsub. f_equal. f_equal.
  assert (Hbi : bi = mkdt 2024 3 20 0 30 0) by (vm_compute in Hto; congruence).
  subst bi.
  assert (Hne : ne = mkdt 2024 5 21 0 30 0) by (vm_compute in Hadd; congruence).
  subst ne. vm_compute in Hfrom. congruence.
Defined.

(** C5 as stated fails: with a stored expiry of 2024-03-19 21:00 UTC (already
    1 Farvardin 1403 in Iran) a two-month purchase stores 2024-05-20 21:00,
    while [add_months_shamsi] of the stored expiry is 2024-05-18 21:00. *)
Lemma purchase_renewal_utc_counterexample :
  let now_utc := mkdt 2024 3 1 12 0 0 in
  let current := mkdt 2024 3 19 21 0 0 in
  let s := set_subscription 7 current (fst (add_wallet_balance 7 200000 empty_store)) in
  Datetime.gt current now_utc = true
  ∧ expires_at <$> get_subscription 7 (fst (confirm_purchase now_utc 7 2 s))
    ≠ add_months_shamsi current 2.
Proof.
  intros now_utc current s. split; [reflexivity|].
  intros H. vm_compute in H. discriminate H.
Qed.

(** * Properties of the remaining handlers

    The operator's link maintenance, the referral links of [start], the
    expiry watcher, the handlers around a purchase, and the invariants the
    handlers keep over whole runs. *)

Import Links Referrals Expiry Handlers Engine Invariant.

(** ** Link maintenance *)

Section link_maintenance.

Lemma head_filter_Some {A : Type} (p : A → bool) (l : list A) (x : A) :
  head (List.filter p l) = Some x → x ∈ l ∧ p x = true.
Proof.
  intros H. apply elem_of_bool_filter.
  destruct (List.filter p l) as [|y t]; [done|].
  injection H as ->. apply list_elem_of_here.
Qed.

Lemma head_filter_None {A : Type} (p : A → bool) (l : list A) :
  head (List.filter p l) = None → ∀ x, x ∈ l → p x = false.
Proof.
  intros H x Hx. destruct (p x) eqn:Hp; [|done].
  assert (Hin : x ∈ List.filter p l) by (by apply elem_of_bool_filter).
  destruct (List.filter p l); [by apply elem_of_nil in Hin|done].
Qed.

Lemma find_link_Some link_id s row :
  find_link link_id s = Some row → row ∈ links s ∧ l_id row = link_id.
Proof.
  intros [Hin Hp]%head_filter_Some. split; [done|]. by apply bool_decide_eq_true in Hp.
Qed.

Lemma find_link_None link_id s :
  find_link link_id s = None → ∀ r, r ∈ links s → l_id r ≠ link_id.
Proof.
  intros H r Hr. apply (head_filter_None _ _ H) in Hr.
  by apply bool_decide_eq_false in Hr.
Qed.

Lemma find_link_unique s row :
  NoDup (l_id <$> links s) → row ∈ links s → find_link (l_id row) s = Some row.
Proof.
  intros Hnd Hin. destruct (find_link (l_id row) s) as [r|] eqn:Hf.
  - apply find_link_Some in Hf as [Hr Hid]. f_equal.
    by apply (NoDup_fmap_eq l_id (links s)).
  - by apply (find_link_None _ _ Hf) in Hin.
Qed.

Lemma other_link_true link_id r : other_link link_id r = true ↔ l_id r ≠ link_id.
Proof.
  unfold other_link. rewrite negb_true_iff, bool_decide_eq_false. done.
Qed.

Lemma NoDup_fmap_filter {A B : Type} (f : A → B) (p : A → bool) (l : list A) :
  NoDup (f <$> l) → NoDup (f <$> List.filter p l).
Proof.
  induction l as [|a l IH]; [done|].
  rewrite fmap_cons, NoDup_cons. intros [Hna Hnd]. cbn [List.filter].
  destruct (p a); [|by apply IH].
  rewrite fmap_cons, NoDup_cons. split; [|by apply IH].
  intros (x & Hx & Hin)%list_elem_of_fmap. apply Hna.
  apply elem_of_bool_filter in Hin as [Hin _]. rewrite Hx. by apply list_elem_of_fmap_2.
Qed.

Lemma Forall_bool_filter {A : Type} (P : A → Prop) (p : A → bool) (l : list A) :
  Forall P l → Forall P (List.filter p l).
Proof.
  rewrite !Forall_forall. intros H x [Hx _]%elem_of_bool_filter. by apply H.
Qed.

(** X1: on a pool with unique ids, [delete_link] succeeds exactly when a row
    with that id exists and is unused; it then removes that row and no
    other, and otherwise leaves the store as it was.  A used row is never
    removed, and the keys stay unique. *)
Theorem delete_link_spec (link_id : Z) (s : store) :
  links_wf s →
  let s' := fst (delete_link link_id s) in
  let ok := snd (delete_link link_id s) in
  (ok = true ↔ ∃ row, row ∈ links s ∧ l_id row = link_id ∧ l_is_used row = false)
  ∧ (ok = false → s' = s)
  ∧ (ok = true → ∀ r, r ∈ links s' ↔ r ∈ links s ∧ l_id r ≠ link_id)
  ∧ (∀ r, r ∈ links s → l_is_used r = true → r ∈ links s')
  ∧ links_wf s'.
Proof.
  intros Hwf s' ok. subst s' ok. pose proof Hwf as [Hids Hvals].
  unfold delete_link.
  destruct (find_link link_id s) as [row|] eqn:Hf.
  - pose proof (find_link_Some _ _ _ Hf) as [Hin Hid].
    destruct (l_is_used row) eqn:Hu; cbn [fst snd].
    + split.
      { split; [done|]. intros (r & Hr & Hrid & Hru).
        assert (r = row) as -> by (apply (NoDup_fmap_eq l_id (links s)); congruence).
        congruence. }
      done.
    + split; [split; [|done]; intros _; by exists row|].
      split; [done|]. cbn [links set_links].
      split.
      { intros _ r. rewrite elem_of_bool_filter, other_link_true. done. }
      split.
      { intros r Hr Hru. apply elem_of_bool_filter. split; [done|].
        apply other_link_true. intros Hrid.
        assert (r = row) as -> by (apply (NoDup_fmap_eq l_id (links s)); congruence).
        congruence. }
      split; by apply NoDup_fmap_filter.
  - cbn [fst snd]. split; [|done].
    split; [done|]. intros (r & Hr & Hrid & _).
    by apply (find_link_None _ _ Hf) in Hr.
Qed.

Lemma set_link_text_id link_id new_link r : l_id (set_link_text link_id new_link r) = l_id r.
Proof. unfold set_link_text. by destruct (decide _). Qed.

Lemma set_link_text_used link_id new_link r :
  l_is_used (set_link_text link_id new_link r) = l_is_used r.
Proof. unfold set_link_text. by destruct (decide _). Qed.

Lemma set_link_text_ids link_id new_link (rows : list link_row) :
  l_id <$> (set_link_text link_id new_link <$> rows) = l_id <$> rows.
Proof.
  rewrite <- list_fmap_compose. apply Forall_fmap_ext_1, Forall_forall.
  intros r _. apply set_link_text_id.
Qed.

Lemma filter_other_all link_id (rows : list link_row) :
  link_id ∉ l_id <$> rows → List.filter (other_link link_id) rows = rows.
Proof.
  induction rows as [|a l IH]; [done|].
  rewrite fmap_cons, not_elem_of_cons. intros [Hne Hl]. cbn [List.filter].
  assert (other_link link_id a = true) as -> by (by apply other_link_true).
  f_equal. by apply IH.
Qed.

Lemma set_link_text_absent link_id new_link (rows : list link_row) :
  link_id ∉ l_id <$> rows → set_link_text link_id new_link <$> rows = rows.
Proof.
  intros Hn. rewrite <- (list_fmap_id rows) at 2.
  apply Forall_fmap_ext_1, Forall_forall. intros r Hr. unfold set_link_text.
  rewrite decide_False; [done|]. intros <-. apply Hn. by apply list_elem_of_fmap_2.
Qed.

Lemma set_link_text_values link_id new_link (rows : list link_row) :
  NoDup (l_id <$> rows) → NoDup (l_link <$> rows) →
  new_link ∉ l_link <$> List.filter (other_link link_id) rows →
  NoDup (l_link <$> (set_link_text link_id new_link <$> rows)).
Proof.
  induction rows as [|a l IH]; [done|].
  rewrite !fmap_cons, !NoDup_cons. intros [Hida Hids] [Hva Hvals] Hnew.
  cbn [List.filter] in Hnew. unfold set_link_text at 1.
  destruct (decide (l_id a = link_id)) as [Hid|Hid].
  - assert (other_link link_id a = false) as Ho.
    { apply not_true_iff_false. rewrite other_link_true. intros Hn. by apply Hn. }
    rewrite Ho in Hnew. subst link_id.
    rewrite set_link_text_absent by done. rewrite filter_other_all in Hnew by done.
    done.
  - assert (other_link link_id a = true) as Ho by (by apply other_link_true).
    rewrite Ho, fmap_cons, not_elem_of_cons in Hnew. destruct Hnew as [Hne Hnew].
    split; [|by apply IH].
    intros (r' & Hv & Hr')%list_elem_of_fmap.
    apply list_elem_of_fmap in Hr' as (r & -> & Hr).
    unfold set_link_text in Hv. destruct (decide (l_id r = link_id)).
    + cbn [l_link] in Hv. congruence.
    + apply Hva. rewrite Hv. by apply list_elem_of_fmap_2.
Qed.

(** X2: on a pool with unique keys, [update_link] succeeds exactly when the
    stripped new value is not empty, a row with that id exists and is
    unused, and no other row holds the value; it then changes the text of
    that row and nothing else, and otherwise leaves the store as it was.
    A used row is never changed, and the pool keeps unique keys and
    non-empty tokens. *)
Theorem update_link_spec (link_id : Z) (new_link : pystr) (s : store) :
  links_wf s → links_nonempty s →
  let s' := fst (update_link link_id new_link s) in
  let ok := snd (update_link link_id new_link s) in
  (ok = true ↔
     strip new_link ≠ []
     ∧ (∃ row, row ∈ links s ∧ l_id row = link_id ∧ l_is_used row = false)
     ∧ (∀ r, r ∈ links s → l_link r = strip new_link → l_id r = link_id))
  ∧ (ok = false → s' = s)
  ∧ (ok = true →
       l_id <$> links s' = l_id <$> links s
       ∧ (∀ r, r ∈ links s → l_id r ≠ link_id → r ∈ links s')
       ∧ (∀ r, r ∈ links s' → l_id r = link_id →
            l_link r = strip new_link ∧ l_is_used r = false))
  ∧ (∀ r, r ∈ links s → l_is_used r = true → r ∈ links s')
  ∧ links_wf s' ∧ links_nonempty s'.
Proof.
  intros Hwf Hne s' ok. subst s' ok. pose proof Hwf as [Hids Hvals].
  unfold update_link.
  destruct (decide (strip new_link = [])) as [He|Hnz].
  { cbn [fst snd]. split; [|done]. split; [done|]. by intros [? _]. }
  destruct (find_link link_id s) as [row|] eqn:Hf.
  2:{ cbn [fst snd]. split; [|done]. split; [done|].
      intros (_ & (r & Hr & Hrid & _) & _). by apply (find_link_None _ _ Hf) in Hr. }
  pose proof (find_link_Some _ _ _ Hf) as [Hin Hid].
  destruct (l_is_used row) eqn:Hu.
  { cbn [fst snd]. split; [|done]. split; [done|].
    intros (_ & (r & Hr & Hrid & Hru) & _).
    assert (r = row) as -> by (apply (NoDup_fmap_eq l_id (links s)); congruence).
    congruence. }
  destruct (decide (strip new_link ∈ l_link <$> List.filter (other_link link_id) (links s)))
    as [Hdup|Hfresh].
  { cbn [fst snd]. split; [|done]. split; [done|].
    intros (_ & _ & Huniq). apply list_elem_of_fmap in Hdup as (r & Hv & Hr).
    apply elem_of_bool_filter in Hr as [Hr Ho]. apply other_link_true in Ho.
    exfalso. by apply Ho, Huniq. }
  cbn [fst snd links set_links]. split.
  { split; [|done]. intros _. split; [done|]. split; [by exists row|].
    intros r Hr Hv. destruct (decide (l_id r = link_id)) as [|Hn]; [done|].
    exfalso. apply Hfresh. rewrite <- Hv. apply list_elem_of_fmap_2, elem_of_bool_filter.
    split; [done|]. by apply other_link_true. }
  split; [done|]. split.
  { intros _. split; [apply set_link_text_ids|]. split.
    - intros r Hr Hn. apply list_elem_of_fmap. exists r. split; [|done].
      unfold set_link_text. by rewrite decide_False.
    - intros r' (r & -> & Hr)%list_elem_of_fmap. rewrite set_link_text_id. intros Hrid.
      assert (r = row) as -> by (apply (NoDup_fmap_eq l_id (links s)); congruence).
      unfold set_link_text. rewrite decide_True by done. cbn [l_link l_is_used]. done. }
  split.
  { intros r Hr Hru. apply list_elem_of_fmap. exists r. split; [|done].
    unfold set_link_text. rewrite decide_False; [done|]. intros Hrid.
    assert (r = row) as -> by (apply (NoDup_fmap_eq l_id (links s)); congruence).
    congruence. }
  split.
  - unfold links_wf. cbn [links set_links].
    split; [by rewrite set_link_text_ids|]. by apply set_link_text_values.
  - unfold links_nonempty in *. cbn [links set_links]. rewrite Forall_fmap.
    eapply Forall_impl; [exact Hne|]. intros r Hr. cbn. unfold set_link_text.
    by destruct (decide _).
Qed.

End link_maintenance.
Lemma delete_link_spec_witness :
  let s := fst (add_links [[97%N]; [98%N]] empty_store) in
  links_wf s
  ∧ snd (delete_link 1 s) = true
  ∧ ∀ r, r ∈ links (fst (delete_link 1 s)) ↔ r ∈ links s ∧ l_id r ≠ 1.
Proof.
  intros s.
  assert (Hwf : links_wf s) by (split; by_decide).
  split; [exact Hwf|].
  destruct (delete_link_spec 1 s Hwf) as (_ & _ & Hrows & _).
  assert (Hok : snd (delete_link 1 s) = true) by (vm_compute; reflexivity).
  split; [exact Hok|]. exact (Hrows Hok).
Defined.

Lemma update_link_spec_witness :
  let s := fst (add_links [[97%N]; [98%N]] empty_store) in
  let new_link := [32; 99; 10]%N in
  links_wf s ∧ links_nonempty s
  ∧ snd (update_link 1 new_link s) = true
  ∧ ∀ r, r ∈ links (fst (update_link 1 new_link s)) → l_id r = 1 →
      l_link r = [99%N] ∧ l_is_used r = false.
Proof.
  intros s new_link.
  assert (Hwf : links_wf s) by (split; by_decide).
  assert (Hne : links_nonempty s) by by_decide.
  split; [exact Hwf|]. split; [exact Hne|].
  destruct (update_link_spec 1 new_link s Hwf Hne) as (_ & _ & Hrows & _).
  assert (Hok : snd (update_link 1 new_link s) = true) by (vm_compute; reflexivity).
  split; [exact Hok|]. exact (proj2 (proj2 (Hrows Hok))).
Defined.

(** ** Referral links *)

Section referral_links.

Lemma upsert_user_lookup u un fn s :
  users (upsert_user u un fn s) !! u
  = Some (mk_user un fn (u0 ← users s !! u; u_referrer_id u0)).
Proof.
  unfold upsert_user. cbn [users]. rewrite lookup_insert_eq.
  by destruct (users s !! u).
Qed.

Lemma upsert_user_other u v un fn s :
  v ≠ u → users (upsert_user u un fn s) !! v = users s !! v.
Proof. intros Hne. unfold upsert_user. cbn [users]. by rewrite lookup_insert_ne. Qed.

Lemma set_referrer_if_empty_users u r s :
  users (fst (set_referrer_if_empty u r s))
  = match users s !! u with
    | Some usr =>
        match u_referrer_id usr with
        | Some _ => users s
        | None => <[u := mk_user (u_username usr) (u_first_name usr) (Some r)]> (users s)
        end
    | None => users s
    end.
Proof.
  unfold set_referrer_if_empty. destruct (users s !! u) as [usr|]; [|done].
  by destruct (u_referrer_id usr).
Qed.

Lemma set_referrer_if_empty_changed u r s :
  snd (set_referrer_if_empty u r s) = true
  ↔ ∃ usr, users s !! u = Some usr ∧ u_referrer_id usr = None.
Proof.
  unfold set_referrer_if_empty. destruct (users s !! u) as [usr|] eqn:Hu.
  - destruct (u_referrer_id usr) eqn:Hr; cbn [snd].
    + split; [done|]. intros (usr' & [= <-] & Hn). congruence.
    + split; [|done]. intros _. by exists usr.
  - cbn. split; [done|]. by intros (? & ? & _).
Qed.

Lemma start_users u un fn payload d :
  users (tables (start u un fn payload d))
  = match payload with
    | Some p =>
        if negb (p =? u)
        then users (fst (set_referrer_if_empty u p (upsert_user u un fn (tables d))))
        else users (upsert_user u un fn (tables d))
    | None => users (upsert_user u un fn (tables d))
    end.
Proof.
  unfold start. destruct payload as [p|]; [|done].
  destruct (negb (p =? u)); [|done]. cbn [tables set_tables].
  destruct (set_referrer_if_empty u p (upsert_user u un fn (tables d))) as [s changed].
  cbn [fst]. destruct changed; [|done].
  unfold add_referral. cbn [referrals set_tables tables].
  by destruct (decide _).
Qed.

(** X3: [start] by a user rewrites that user's names and nobody else's row.
    The user's referrer is set from the payload only if the user had none
    and the payload is not the user's own id; a referrer once stored is
    kept, and then the [referrals] table is not touched either.  The
    payload is a 64-bit integer ([sqlite3] binds no other). *)
Theorem start_sets_referrer_once
    (u : Z) (un fn : option pystr) (payload : option Z) (d : database) :
  (∀ p, payload = Some p → int64 p = true) →
  let d' := start u un fn payload d in
  let old := usr ← get_user u (tables d); u_referrer_id usr in
  (∀ v, v ≠ u → get_user v (tables d') = get_user v (tables d))
  ∧ (∃ usr,
       get_user u (tables d') = Some usr
       ∧ u_username usr = un ∧ u_first_name usr = fn
       ∧ u_referrer_id usr
         = match old, payload with
           | Some r, _ => Some r
           | None, Some p => if p =? u then None else Some p
           | None, None => None
           end)
  ∧ (∀ r, old = Some r → referrals d' = referrals d)
  ∧ (payload = Some u → referrals d' = referrals d).
Proof.
  intros _ d' old. subst d' old. unfold get_user.
  set (s0 := upsert_user u un fn (tables d)).
  pose proof (upsert_user_lookup u un fn (tables d)) as Hu0. fold s0 in Hu0.
  split; [|split; [|split]].
  - intros v Hv. rewrite start_users.
    assert (Hup : users s0 !! v = users (tables d) !! v) by (by apply upsert_user_other).
    destruct payload as [p|]; [|done]. destruct (negb (p =? u)); [|done]. fold s0.
    rewrite set_referrer_if_empty_users, Hu0. cbn [u_referrer_id].
    destruct (u0 ← users (tables d) !! u; u_referrer_id u0); [done|].
    by rewrite lookup_insert_ne.
  - rewrite start_users. fold s0.
    destruct (users (tables d) !! u ≫= u_referrer_id) as [r|] eqn:Hold.
    + assert (Hrow : ∀ p, users (fst (set_referrer_if_empty u p s0)) !! u
                          = Some (mk_user un fn (Some r))).
      { intros p. by rewrite set_referrer_if_empty_users, Hu0. }
      destruct payload as [p|]; [destruct (negb (p =? u))|];
        eexists; (split; [first [apply Hrow|exact Hu0]|done]).
    + assert (Hrow : ∀ p, users (fst (set_referrer_if_empty u p s0)) !! u
                          = Some (mk_user un fn (Some p))).
      { intros p. rewrite set_referrer_if_empty_users, Hu0. cbn [u_referrer_id].
        apply lookup_insert_eq. }
      destruct payload as [p|]; [destruct (p =? u) eqn:Hp; cbn [negb]|];
        eexists; (split; [first [apply Hrow|exact Hu0]|done]).
  - intros r Hold. unfold start. destruct payload as [p|]; [|done].
    destruct (negb (p =? u)); [|done]. cbn [tables set_tables]. fold s0.
    assert (Hch : snd (set_referrer_if_empty u p s0) = false).
    { apply not_true_iff_false. rewrite set_referrer_if_empty_changed.
      intros (usr & Hl & Hn). rewrite Hu0 in Hl. injection Hl as <-.
      cbn [u_referrer_id] in Hn. congruence. }
    destruct (set_referrer_if_empty u p s0) as [s changed]. cbn [snd] in Hch.
    by subst changed.
  - intros ->. unfold start. by rewrite Z.eqb_refl.
Qed.

End referral_links.

Lemma start_sets_referrer_once_witness :
  let d := start 7 None None (Some 3) empty_database in
  (∀ p, Some 3 = Some p → int64 p = true)
  ∧ (∃ usr, get_user 7 (tables d) = Some usr ∧ u_referrer_id usr = Some 3)
  ∧ ∃ usr, get_user 7 (tables (start 7 None None (Some 4) d)) = Some usr
           ∧ u_referrer_id usr = Some 3.
Proof.
  intros d.
  assert (H3 : ∀ p, Some 3 = Some p → int64 p = true) by (by intros p [= <-]).
  assert (H4 : ∀ p, Some 4 = Some p → int64 p = true) by (by intros p [= <-]).
  split; [exact H3|]. split.
  - destruct (start_sets_referrer_once 7 None None (Some 3) empty_database H3)
      as (_ & (usr & Hu & _ & _ & Hr) & _).
    exists usr. split; [exact Hu|exact Hr].
  - destruct (start_sets_referrer_once 7 None None (Some 4) d H4)
      as (_ & (usr & Hu & _ & _ & Hr) & _).
    exists usr. split; [exact Hu|exact Hr].
Defined.

(** ** Expiry watcher *)

Section expiry_watcher.

Lemma set_subscriptions_same s : set_subscriptions (subscriptions s) s = s.
Proof. by destruct s. Qed.

Lemma set_subscriptions_frame m s1 s3 :
  set_subscriptions (subscriptions (set_subscriptions m s1)) s3 = set_subscriptions m s1 →
  set_subscriptions (subscriptions s1) s3 = s1.
Proof.
  destruct s1, s3. unfold set_subscriptions. cbn.
  intros H. injection H as -> -> -> -> -> -> -> -> ->. reflexivity.
Qed.

Lemma set_subscriptions_twice m m' s :
  set_subscriptions m (set_subscriptions m' s) = set_subscriptions m s.
Proof. by destruct s. Qed.

Lemma flags_grow_refl m : flags_grow m m.
Proof. intros u. by destruct (m !! u). Qed.

Lemma flags_grow_trans m1 m2 m3 : flags_grow m1 m2 → flags_grow m2 m3 → flags_grow m1 m3.
Proof.
  intros H12 H23 u. specialize (H12 u). specialize (H23 u).
  destruct (m1 !! u), (m2 !! u), (m3 !! u); try done.
  destruct H12 as (E1 & ? & ?), H23 as (E2 & ? & ?). rewrite E2, E1. auto.
Qed.

Lemma flags_grow_alter (f : sub_row → sub_row) k m :
  (∀ r, expires_at (f r) = expires_at r
        ∧ (reminded_before_expiry r = true → reminded_before_expiry (f r) = true)
        ∧ (notified_expired r = true → notified_expired (f r) = true)) →
  flags_grow m (alter f k m).
Proof.
  intros Hf u. destruct (decide (u = k)) as [->|Hne].
  - rewrite lookup_alter_eq. destruct (m !! k); [apply Hf|done].
  - rewrite lookup_alter_ne by done. by destruct (m !! u).
Qed.

Lemma remind_loop_frame rows : ∀ s,
  set_subscriptions (subscriptions s) (fst (remind_loop rows s)) = s
  ∧ flags_grow (subscriptions s) (subscriptions (fst (remind_loop rows s))).
Proof.
  induction rows as [|[uid exp] rest IH]; intros s.
  - cbn. split; [apply set_subscriptions_same|apply flags_grow_refl].
  - cbn [remind_loop]. destruct (to_iran exp).
    2:{ cbn. split; [apply set_subscriptions_same|apply flags_grow_refl]. }
    destruct (IH (mark_reminded_before_expiry uid s)) as [Hfr Hgr]. split.
    + by eapply set_subscriptions_frame.
    + eapply flags_grow_trans; [|exact Hgr]. apply flags_grow_alter. by intros r.
Qed.

Lemma notify_loop_frame rows : ∀ s,
  set_subscriptions (subscriptions s) (fst (notify_loop rows s)) = s
  ∧ flags_grow (subscriptions s) (subscriptions (fst (notify_loop rows s))).
Proof.
  induction rows as [|[uid exp] rest IH]; intros s.
  - cbn. split; [apply set_subscriptions_same|apply flags_grow_refl].
  - cbn [notify_loop]. destruct (to_iran exp).
    2:{ cbn. split; [apply set_subscriptions_same|apply flags_grow_refl]. }
    destruct (IH (mark_notified_expired uid s)) as [Hfr Hgr]. split.
    + by eapply set_subscriptions_frame.
    + eapply flags_grow_trans; [|exact Hgr]. apply flags_grow_alter. by intros r.
Qed.

(** X4: a pass of the watcher, finished or cut short by an error, changes
    nothing in the store but subscription flags, and those only from 0 to
    1: no subscription appears or disappears and no expiry moves. *)
Theorem watcher_only_raises_flags (now_utc : datetime) (s : store) :
  let s' := fst (subscription_watcher now_utc s) in
  set_subscriptions (subscriptions s) s' = s
  ∧ flags_grow (subscriptions s) (subscriptions s').
Proof.
  intros s'. subst s'. unfold subscription_watcher.
  destruct (add_seconds now_utc 86400) as [soon|].
  2:{ cbn. split; [apply set_subscriptions_same|apply flags_grow_refl]. }
  destruct (remind_loop_frame (fetch_expiring_soon_not_reminded soon now_utc s) s)
    as [Hfr1 Hgr1].
  destruct (remind_loop (fetch_expiring_soon_not_reminded soon now_utc s) s) as [s1 ok].
  cbn [fst] in *. destruct ok; [|done].
  destruct (notify_loop_frame (fetch_expired_not_notified now_utc s1) s1) as [Hfr2 Hgr2].
  split.
  - by rewrite <- (set_subscriptions_twice _ (subscriptions s1)), Hfr2.
  - by eapply flags_grow_trans.
Qed.

Lemma subscription_rows_elem s u r :
  (u, r) ∈ subscription_rows s ↔ subscriptions s !! u = Some r.
Proof.
  unfold subscription_rows. rewrite (order_by_perm fst (map_to_list (subscriptions s))).
  apply elem_of_map_to_list.
Qed.

Lemma fetch_keys (p : Z * sub_row → bool) s u :
  u ∈ ((λ r : Z * sub_row, (r.1, expires_at r.2)) <$> List.filter p (subscription_rows s)).*1
  ↔ ∃ r, subscriptions s !! u = Some r ∧ p (u, r) = true.
Proof.
  rewrite <- list_fmap_compose. split.
  - intros ([u' r] & -> & Hin)%list_elem_of_fmap.
    apply elem_of_bool_filter in Hin as [Hin Hp]. exists r.
    split; [by apply subscription_rows_elem|done].
  - intros (r & Hl & Hp). apply list_elem_of_fmap. exists (u, r). split; [done|].
    apply elem_of_bool_filter. split; [by apply subscription_rows_elem|done].
Qed.

Lemma fetch_values (p : Z * sub_row → bool) s :
  Forall (λ x : Z * datetime, ∃ u r, subscriptions s !! u = Some r ∧ x.2 = expires_at r)
         ((λ r : Z * sub_row, (r.1, expires_at r.2)) <$> List.filter p (subscription_rows s)).
Proof.
  apply Forall_forall. intros x ([u r] & -> & Hin)%list_elem_of_fmap.
  apply elem_of_bool_filter in Hin as [Hin _]. exists u, r.
  split; [by apply subscription_rows_elem|done].
Qed.

Lemma loop_lookup
    (mark : Z → store → store) (f : sub_row → sub_row)
    (loop : list (Z * datetime) → store → store * bool) :
  (∀ s, loop [] s = (s, true)) →
  (∀ uid exp rest s,
     loop ((uid, exp) :: rest) s
     = match to_iran exp with
       | None => (s, false)
       | Some _ => loop rest (mark uid s)
       end) →
  (∀ uid s, subscriptions (mark uid s) = alter f uid (subscriptions s)) →
  (∀ r, f (f r) = f r) →
  ∀ rows s,
    Forall (λ x : Z * datetime, is_Some (to_iran x.2)) rows →
    snd (loop rows s) = true
    ∧ ∀ u, subscriptions (fst (loop rows s)) !! u
           = (if decide (u ∈ rows.*1) then f else id) <$> subscriptions s !! u.
Proof.
  intros Hnil Hcons Hmark Hidem rows.
  induction rows as [|[uid exp] rest IH]; intros s Hall.
  - rewrite Hnil. split; [done|]. intros u. cbn. by rewrite option_fmap_id.
  - apply Forall_cons in Hall as [[e He] Hall]. cbn [snd] in He.
    rewrite Hcons, He. destruct (IH (mark uid s) Hall) as [Hok Hl].
    split; [done|]. intros u. rewrite Hl, Hmark, fmap_cons. cbn [fst].
    destruct (decide (u = uid)) as [->|Hne].
    + rewrite lookup_alter_eq.
      destruct (decide (uid ∈ uid :: rest.*1)) as [_|Hn];
        [|exfalso; apply Hn, list_elem_of_here].
      destruct (subscriptions s !! uid) as [r|]; [|done].
      cbn. destruct (decide _); cbn; by rewrite ?Hidem.
    + rewrite lookup_alter_ne by done.
      destruct (decide (u ∈ rest.*1)) as [Hin|Hnin];
        destruct (decide (u ∈ uid :: rest.*1)) as [Hin'|Hnin']; try done.
      * exfalso. by apply Hnin', list_elem_of_further.
      * exfalso. by apply elem_of_cons in Hin' as [?|?].
Qed.

Lemma remind_loop_lookup rows s :
  Forall (λ x : Z * datetime, is_Some (to_iran x.2)) rows →
  snd (remind_loop rows s) = true
  ∧ ∀ u, subscriptions (fst (remind_loop rows s)) !! u
         = (if decide (u ∈ rows.*1)
            then λ r, mk_sub (expires_at r) true (notified_expired r) else id)
           <$> subscriptions s !! u.
Proof. by apply (loop_lookup mark_reminded_before_expiry). Qed.

Lemma notify_loop_lookup rows s :
  Forall (λ x : Z * datetime, is_Some (to_iran x.2)) rows →
  snd (notify_loop rows s) = true
  ∧ ∀ u, subscriptions (fst (notify_loop rows s)) !! u
         = (if decide (u ∈ rows.*1)
            then λ r, mk_sub (expires_at r) (reminded_before_expiry r) true else id)
           <$> subscriptions s !! u.
Proof. by apply (loop_lookup mark_notified_expired). Qed.

(** Adding at most a day to a valid datetime of the years 2 to 9998 gives
    a valid datetime. *)
Lemma add_seconds_within_day dt delta :
  Datetime.valid dt = true → -86400 ≤ delta ≤ 86400 → 2 ≤ year dt ≤ 9998 →
  ∃ dt', add_seconds dt delta = Some dt' ∧ Datetime.valid dt' = true.
Proof.
  intros Hv Hdelta Hy. unfold Datetime.valid in Hv.
  apply andb_true_iff in Hv as [Hvd Hvt].
  unfold valid_date in Hvd. repeat (apply andb_true_iff in Hvd as [Hvd ?]).
  unfold valid_time in Hvt. repeat (apply andb_true_iff in Hvt as [Hvt ?]).
  pose proof (days_in_month_bound (year dt) (month dt)) as Hdim.
  assert (Hm : 1 ≤ month dt ≤ 12) by lia.
  assert (Hd : 1 ≤ day dt ≤ 31) by lia.
  pose proof (ymd2ord_range _ _ _ Hy Hm Hd) as Hord.
  unfold add_seconds.
  set (ord := ymd2ord (year dt) (month dt) (day dt)) in *.
  set (total := ord * 86400 + hour dt * 3600 + minute dt * 60 + second dt + delta).
  assert (Hdays : ord - 1 ≤ total / 86400 ≤ ord + 1).
  { subst total. Z.div_mod_to_equations; lia. }
  pose proof (Z.mod_pos_bound total 86400 ltac:(lia)) as Hsecs.
  set (days := total / 86400) in *. set (secs := total mod 86400) in *.
  destruct (Z.ltb_spec 0 days); [|lia].
  unfold MAXORDINAL. destruct (Z.leb_spec days 3652059); [|lia].
  cbn [andb].
  pose proof (ord2ymd_inverse days) as Hinv.
  destruct (ord2ymd days) as [[y' m'] d'].
  destruct Hinv as (Hm' & Hd' & Hord').
  pose proof (days_in_month_bound y' m') as Hdim'.
  assert (Hd31 : 1 ≤ d' ≤ 31) by lia.
  pose proof (ymd2ord_year_range y' m' d' Hm' Hd31 ltac:(lia)) as Hy'.
  eexists. split; [reflexivity|].
  unfold Datetime.valid, valid_date, valid_time, MAXYEAR.
  cbn [year month day hour minute second].
  repeat (apply andb_true_iff; split); try lia;
    apply Z.leb_le; Z.div_mod_to_equations; lia.
Qed.

Lemma to_iran_defined dt :
  Datetime.valid dt = true → 2 ≤ year dt ≤ 9998 → is_Some (to_iran dt).
Proof.
  intros Hv Hy. unfold to_iran.
  destruct (add_seconds_within_day dt IRAN_OFFSET Hv) as (dt' & -> & _);
    [unfold IRAN_OFFSET; lia|done|done].
Qed.

Lemma bool_filter_nil {A : Type} (p : A → bool) (l : list A) :
  (∀ x, x ∈ l → p x = false) → List.filter p l = [].
Proof.
  intros H. destruct (List.filter p l) as [|x t] eqn:Hf; [done|].
  assert (Hx : x ∈ List.filter p l) by (rewrite Hf; apply list_elem_of_here).
  apply elem_of_bool_filter in Hx as [Hx Hp]. rewrite (H x Hx) in Hp. done.
Qed.

(** X5: with the clock and every stored expiry at valid datetimes of the
    years 2 to 9998, a pass of the watcher runs to its end and leaves each
    subscription with its expiry, with the reminder flag raised if it was
    raised or the expiry lies in [(now, now + 1 day]], and with the expired
    flag raised if it was raised or the expiry is not after [now].  A
    second pass at the same clock reading selects nothing and changes
    nothing. *)
Theorem watcher_pass_flags_due (now_utc : datetime) (s : store) :
  Datetime.valid now_utc = true → 2 ≤ year now_utc ≤ 9998 → expiries_ok s →
  let s' := fst (subscription_watcher now_utc s) in
  ∃ soon,
    add_seconds now_utc 86400 = Some soon
    ∧ snd (subscription_watcher now_utc s) = true
    ∧ (∀ u,
         subscriptions s' !! u
         = (λ r, mk_sub (expires_at r)
                   (reminded_before_expiry r
                    || (iso_le (expires_at r) soon && Datetime.gt (expires_at r) now_utc))
                   (notified_expired r || iso_le (expires_at r) now_utc))
           <$> subscriptions s !! u)
    ∧ fetch_expiring_soon_not_reminded soon now_utc s' = []
    ∧ fetch_expired_not_notified now_utc s' = []
    ∧ subscription_watcher now_utc s' = (s', true).
Proof.
  intros Hv Hy Hexp s'.
  destruct (add_seconds_within_day now_utc 86400 Hv ltac:(lia) Hy) as (soon & Hsoon & _).
  exists soon. split; [exact Hsoon|].
  assert (Hdef : ∀ (p : Z * sub_row → bool) s0,
            (∀ u r, subscriptions s0 !! u = Some r →
                    Datetime.valid (expires_at r) = true ∧ 2 ≤ year (expires_at r) ≤ 9998) →
            Forall (λ x : Z * datetime, is_Some (to_iran x.2))
              ((λ r : Z * sub_row, (r.1, expires_at r.2))
                 <$> List.filter p (subscription_rows s0))).
  { intros p s0 Hs0. eapply Forall_impl; [apply fetch_values|].
    intros x (u & r & Hl & ->). destruct (Hs0 u r Hl). by apply to_iran_defined. }
  assert (Hpass : ∀ s0,
            expiries_ok s0 →
            snd (subscription_watcher now_utc s0) = true
            ∧ ∀ u,
                subscriptions (fst (subscription_watcher now_utc s0)) !! u
                = (λ r, mk_sub (expires_at r)
                          (reminded_before_expiry r
                           || (iso_le (expires_at r) soon
                               && Datetime.gt (expires_at r) now_utc))
                          (notified_expired r || iso_le (expires_at r) now_utc))
                  <$> subscriptions s0 !! u).
  { intros s0 Hs0. unfold subscription_watcher. rewrite Hsoon.
    destruct (remind_loop_lookup (fetch_expiring_soon_not_reminded soon now_utc s0) s0)
      as [Hok1 Hl1]; [by apply Hdef|].
    destruct (remind_loop (fetch_expiring_soon_not_reminded soon now_utc s0) s0)
      as [s1 ok1]. cbn [fst snd] in *. subst ok1.
    assert (Hs1 : ∀ u r, subscriptions s1 !! u = Some r →
                    Datetime.valid (expires_at r) = true ∧ 2 ≤ year (expires_at r) ≤ 9998).
    { intros u r. rewrite Hl1. destruct (subscriptions s0 !! u) as [r0|] eqn:Hr0; [|done].
      cbn. intros [= <-]. destruct (decide _); cbn; by apply (Hs0 u). }
    destruct (notify_loop_lookup (fetch_expired_not_notified now_utc s1) s1)
      as [Hok2 Hl2]; [by apply Hdef|].
    split; [exact Hok2|]. intros u.
    destruct (subscriptions s0 !! u) as [r0|] eqn:Hr0; [|by rewrite Hl2, Hl1, Hr0].
    assert (Hin1 : u ∈ (fetch_expiring_soon_not_reminded soon now_utc s0).*1
                   ↔ expiring_soon soon now_utc (u, r0) = true).
    { unfold fetch_expiring_soon_not_reminded. rewrite fetch_keys. split.
      - intros (r & Hl & Hp). congruence.
      - intros Hp. by exists r0. }
    set (r1 := (if decide (u ∈ (fetch_expiring_soon_not_reminded soon now_utc s0).*1)
                then λ r, mk_sub (expires_at r) true (notified_expired r) else id) r0).
    assert (Hr1 : subscriptions s1 !! u = Some r1) by (by rewrite Hl1, Hr0).
    assert (Hin2 : u ∈ (fetch_expired_not_notified now_utc s1).*1
                   ↔ expired now_utc (u, r1) = true).
    { unfold fetch_expired_not_notified. rewrite fetch_keys. split.
      - intros (r & Hl & Hp). congruence.
      - intros Hp. by exists r1. }
    assert (Hr1' : r1 = mk_sub (expires_at r0)
                          (reminded_before_expiry r0
                           || (iso_le (expires_at r0) soon
                               && Datetime.gt (expires_at r0) now_utc))
                          (notified_expired r0)).
    { subst r1. unfold expiring_soon in Hin1. cbn [snd] in Hin1.
      destruct r0 as [e rem ntf]. cbn [expires_at reminded_before_expiry notified_expired] in *.
      destruct (decide _) as [Hd|Hd].
      - apply Hin1 in Hd. destruct rem; [done|]. cbn [negb andb] in Hd.
        cbn [orb]. by rewrite Hd.
      - cbn [id]. destruct rem; [done|]. cbn [orb negb andb] in *.
        destruct (iso_le e soon && Datetime.gt e now_utc) eqn:Hw; [|done].
        exfalso. by apply Hd, Hin1. }
    rewrite Hl2, Hr1. cbn [fmap option_fmap option_map]. f_equal.
    unfold expired in Hin2. cbn [snd] in Hin2. rewrite Hr1' in Hin2 |- *.
    cbn [expires_at reminded_before_expiry notified_expired] in *.
    destruct (decide (u ∈ (fetch_expired_not_notified now_utc s1).*1)) as [Hd|Hd].
    - apply Hin2 in Hd. cbn [expires_at reminded_before_expiry notified_expired].
      destruct (notified_expired r0); [done|]. cbn [negb andb orb] in *. by rewrite Hd.
    - cbn [id]. destruct (notified_expired r0); [done|]. cbn [orb negb andb] in *.
      destruct (iso_le (expires_at r0) now_utc) eqn:Hw; [|done].
      exfalso. by apply Hd, Hin2. }
  destruct (Hpass s Hexp) as [Hok Hl]. fold s' in Hl.
  split; [exact Hok|]. split; [exact Hl|].
  assert (He1 : fetch_expiring_soon_not_reminded soon now_utc s' = []).
  { unfold fetch_expiring_soon_not_reminded. rewrite bool_filter_nil; [done|].
    intros [u r] Hin. apply subscription_rows_elem in Hin. rewrite Hl in Hin.
    destruct (subscriptions s !! u) as [r0|]; [|done].
    cbn [fmap option_fmap option_map] in Hin. injection Hin as <-.
    unfold expiring_soon. cbn [snd expires_at reminded_before_expiry].
    destruct (reminded_before_expiry r0); [done|]. cbn [orb].
    by destruct (iso_le (expires_at r0) soon), (Datetime.gt (expires_at r0) now_utc). }
  assert (He2 : fetch_expired_not_notified now_utc s' = []).
  { unfold fetch_expired_not_notified. rewrite bool_filter_nil; [done|].
    intros [u r] Hin. apply subscription_rows_elem in Hin. rewrite Hl in Hin.
    destruct (subscriptions s !! u) as [r0|]; [|done].
    cbn [fmap option_fmap option_map] in Hin. injection Hin as <-.
    unfold expired. cbn [snd expires_at notified_expired].
    destruct (notified_expired r0); [done|]. cbn [orb].
    by destruct (iso_le (expires_at r0) now_utc). }
  split; [exact He1|]. split; [exact He2|].
  unfold subscription_watcher at 1. rewrite Hsoon, He1. cbn [remind_loop].
  rewrite He2. reflexivity.
Qed.

End expiry_watcher.
Lemma watcher_pass_flags_due_witness :
  let now_utc := mkdt 2024 3 1 12 0 0 in
  let s := set_subscription 7 (mkdt 2024 3 2 11 0 0) empty_store in
  Datetime.valid now_utc = true ∧ 2 ≤ year now_utc ≤ 9998 ∧ expiries_ok s
  ∧ subscriptions (fst (subscription_watcher now_utc s)) !! 7
    = Some (mk_sub (mkdt 2024 3 2 11 0 0) true false).
Proof.
  intros now_utc s.
  assert (Hv : Datetime.valid now_utc = true) by reflexivity.
  assert (Hy : 2 ≤ year now_utc ≤ 9998) by (cbn; lia).
  assert (He : expiries_ok s).
  { intros u r Hr. unfold s, set_subscription in Hr. cbn [subscriptions set_subscriptions] in Hr.
    apply lookup_insert_Some in Hr as [[_ <-]|[_ Hr]]; [|done].
    split; [reflexivity|cbn; lia]. }
  split; [exact Hv|]. split; [exact Hy|]. split; [exact He|].
  destruct (watcher_pass_flags_due now_utc s Hv Hy He) as (soon & Hsoon & _ & Hrows & _).
  rewrite Hrows.
  assert (Hs : soon = mkdt 2024 3 2 12 0 0) by (vm_compute in Hsoon; congruence).
  subst soon. reflexivity.
Defined.

(** ** Top-up and review *)

Section topup_review.

Context (ADMIN_IDS : gset Z).

(** What an approval of a pending deposit leaves: the status change, the
    owner's credit and, possibly, a positive commission of a referrer other
    than the owner. *)
Lemma deposit_approve_shape caller dep_id s dep :
  is_admin ADMIN_IDS caller = true →
  get_deposit_request dep_id s = Some dep →
  d_status dep = "pending_admin" →
  let u := d_user_id dep in
  let s2 := fst (add_wallet_balance u (d_amount dep)
                   (set_deposit_status dep_id "approved" s)) in
  snd (deposit_approve ADMIN_IDS caller dep_id s)
  = DepositApproved (get_wallet_balance u s + d_amount dep)
  ∧ (fst (deposit_approve ADMIN_IDS caller dep_id s) = s2
     ∨ ∃ r p, r ≠ u ∧ 0 < p
              ∧ fst (deposit_approve ADMIN_IDS caller dep_id s)
                = add_ref_profit r p (fst (add_wallet_balance r p s2))).
Proof.
  intros Hadm Hdep Hst u s2. subst u s2.
  unfold deposit_approve. rewrite Hadm, Hdep. cbn [negb].
  rewrite bool_decide_eq_true_2 by done. cbn [negb].
  set (s1 := set_deposit_status dep_id "approved" s).
  pose proof (add_wallet_balance_self (d_user_id dep) (d_amount dep) s1) as [_ Hnb].
  destruct (add_wallet_balance (d_user_id dep) (d_amount dep) s1) as [s2 nb].
  cbn [fst snd] in *. subst nb.
  change (get_wallet_balance (d_user_id dep) s1) with (get_wallet_balance (d_user_id dep) s).
  destruct (get_user (d_user_id dep) s2 ≫= u_referrer_id) as [r|]; [|by split; [|left]].
  destruct (Z.eqb_spec r (d_user_id dep)) as [?|Hne];
    [rewrite andb_false_r; by split; [|left]|].
  destruct (negb (r =? 0)); cbn [andb negb]; [|by split; [|left]].
  destruct (Z.gtb_spec (ref_profit (d_amount dep)) 0) as [Hpos|?]; [|by split; [|left]].
  destruct (add_wallet_balance r (ref_profit (d_amount dep)) s2) as [s3 nb3] eqn:E3.
  cbn [fst snd]. split; [done|]. right. exists r, (ref_profit (d_amount dep)).
  split; [done|]. split; [lia|]. by rewrite E3.
Qed.

Lemma deposit_approve_credits_owner caller dep_id s dep :
  is_admin ADMIN_IDS caller = true →
  get_deposit_request dep_id s = Some dep →
  d_status dep = "pending_admin" →
  get_wallet_balance (d_user_id dep) (fst (deposit_approve ADMIN_IDS caller dep_id s))
  = get_wallet_balance (d_user_id dep) s + d_amount dep.
Proof.
  intros Hadm Hdep Hst.
  destruct (deposit_approve_shape caller dep_id s dep Hadm Hdep Hst) as [_ Hs'].
  pose proof (add_wallet_balance_self (d_user_id dep) (d_amount dep)
                (set_deposit_status dep_id "approved" s)) as [Hown _].
  change (get_wallet_balance (d_user_id dep) (set_deposit_status dep_id "approved" s))
    with (get_wallet_balance (d_user_id dep) s) in Hown.
  destruct Hs' as [->|(r & p & Hne & _ & ->)]; [exact Hown|].
  change (get_wallet_balance (d_user_id dep) (add_ref_profit r p ?x))
    with (get_wallet_balance (d_user_id dep) x).
  by rewrite add_wallet_balance_other.
Qed.


Lemma next_rowid_unused {A : Type} (seq : Z) (m : gmap Z A) :
  m !! next_rowid seq (fst <$> map_to_list m) = None.
Proof.
  destruct (m !! _) as [v|] eqn:Hl; [|done]. exfalso.
  apply (next_rowid_fresh seq (fst <$> map_to_list m)).
  apply list_elem_of_fmap. exists (next_rowid seq (map_to_list m).*1, v).
  split; [done|]. by apply elem_of_map_to_list.
Qed.

(** X7: a receipt with a text, a photo or a document files a request under
    an id no request had, pending, for the amount of the conversation, and
    changes no wallet; when an operator then approves that request the
    user's balance is the old one plus that amount.  Any other message
    files nothing.  The amount, the balance and their sum are 64-bit
    integers. *)
Theorem topup_then_approve (caller user_id amount : Z) (r : receipt) (s : store) :
  is_admin ADMIN_IDS caller = true →
  int64 amount = true → int64 (get_wallet_balance user_id s) = true →
  int64 (get_wallet_balance user_id s + amount) = true →
  let s1 := fst (topup_receipt_received user_id amount r s) in
  match snd (topup_receipt_received user_id amount r s) with
  | ReceiptFiled dep_id =>
      get_deposit_request dep_id s = None
      ∧ (∃ dep,
           get_deposit_request dep_id s1 = Some dep
           ∧ d_user_id dep = user_id ∧ d_amount dep = amount
           ∧ d_status dep = "pending_admin")
      ∧ (∀ i, i ≠ dep_id → get_deposit_request i s1 = get_deposit_request i s)
      ∧ wallets s1 = wallets s
      ∧ get_wallet_balance user_id (fst (deposit_approve ADMIN_IDS caller dep_id s1))
        = get_wallet_balance user_id s + amount
  | ReceiptRefused =>
      s1 = s ∧ (r = ReceiptOther ∨ r = ReceiptText [])
  | _ => False
  end.
Proof.
  intros Hadm _ _ _ s1. subst s1.
  assert (Hfile : ∀ txt fid,
            let s1 := fst (create_deposit_request user_id amount txt fid s) in
            let dep_id := snd (create_deposit_request user_id amount txt fid s) in
            get_deposit_request dep_id s = None
            ∧ (∃ dep,
                 get_deposit_request dep_id s1 = Some dep
                 ∧ d_user_id dep = user_id ∧ d_amount dep = amount
                 ∧ d_status dep = "pending_admin")
            ∧ (∀ i, i ≠ dep_id → get_deposit_request i s1 = get_deposit_request i s)
            ∧ wallets s1 = wallets s
            ∧ get_wallet_balance user_id (fst (deposit_approve ADMIN_IDS caller dep_id s1))
              = get_wallet_balance user_id s + amount).
  { intros txt fid s1 dep_id. subst s1 dep_id.
    unfold create_deposit_request, get_deposit_request. cbn [fst snd].
    set (id := next_rowid _ _). set (row := mk_deposit _ _ _ _ _).
    set (s1 := set_deposit_requests _ _ s).
    assert (Hrow : get_deposit_request id s1 = Some row) by apply lookup_insert_eq.
    split; [apply next_rowid_unused|].
    split; [by exists row|].
    split; [intros i Hi; cbn; by rewrite lookup_insert_ne|].
    split; [done|].
    exact (deposit_approve_credits_owner caller id s1 row Hadm Hrow eq_refl). }
  unfold topup_receipt_received.
  destruct r as [[|c text]|fid caption|].
  - cbn. split; [done|]. by right.
  - specialize (Hfile (Some (strip (c :: text))) None). cbv zeta in Hfile |- *.
    destruct (create_deposit_request _ _ _ _ s) as [s1 id]. cbn [fst snd] in *. exact Hfile.
  - set (txt := match strip (default [] caption) with [] => None | _ => _ end).
    specialize (Hfile txt (Some fid)). cbv zeta in Hfile |- *.
    destruct (create_deposit_request _ _ _ _ s) as [s1 id]. cbn [fst snd] in *. exact Hfile.
  - cbn. split; [done|]. by left.
Qed.

End topup_review.

Lemma topup_then_approve_witness :
  let admins : gset Z := {[1]} in
  let s1 := fst (topup_receipt_received 7 50000 (ReceiptText [97%N]) empty_store) in
  is_admin admins 1 = true
  ∧ int64 50000 = true ∧ int64 (get_wallet_balance 7 empty_store) = true
  ∧ int64 (get_wallet_balance 7 empty_store + 50000) = true
  ∧ get_wallet_balance 7 (fst (deposit_approve admins 1 1 s1)) = 50000.
Proof.
  intros admins s1.
  assert (Hadm : is_admin admins 1 = true) by (vm_compute; reflexivity).
  assert (Ha : int64 50000 = true) by reflexivity.
  assert (Hb : int64 (get_wallet_balance 7 empty_store) = true) by reflexivity.
  assert (Hs : int64 (get_wallet_balance 7 empty_store + 50000) = true) by reflexivity.
  split; [exact Hadm|]. split; [exact Ha|]. split; [exact Hb|]. split; [exact Hs|].
  pose proof (topup_then_approve admins 1 7 50000 (ReceiptText [97%N]) empty_store
                Hadm Ha Hb Hs) as H.
  change (snd (topup_receipt_received 7 50000 (ReceiptText [97%N]) empty_store))
    with (ReceiptFiled 1) in H.
  exact (proj2 (proj2 (proj2 (proj2 H)))).
Defined.

(** ** Preview and extension *)

Section preview_extension.

Context (ADMIN_IDS : gset Z).

Lemma get_order_with_user_Some order_id s o :
  get_order_with_user order_id s = Some o → o ∈ orders s ∧ o_id o = order_id.
Proof.
  unfold get_order_with_user. intros H.
  destruct (List.filter _ (orders s)) as [|x t] eqn:Hf; [done|].
  injection H as ->.
  assert (Hin : o ∈ List.filter (λ o, bool_decide (o_id o = order_id)) (orders s))
    by (rewrite Hf; apply list_elem_of_here).
  apply elem_of_bool_filter in Hin as [Hin Hp]. by apply bool_decide_eq_true in Hp.
Qed.

(** X8: an extension by an operator touches nothing but the subscription
    table.  For an order id that no order has it changes nothing and
    answers "not found".  Otherwise it renews the subscription of the
    order's owner by the rule of a purchase: from the stored expiry if that
    is later than now, else from now; moved to Iran time, advanced by the
    months, moved back; stored with both flags cleared.  For a valid base
    of the years 1603 to 9995 and up to twelve months the three date steps
    succeed. *)
Theorem admin_order_extend_renews
    (caller : Z) (now_utc : datetime) (order_id addm : Z) (s : store) :
  is_admin ADMIN_IDS caller = true →
  let s' := fst (admin_order_extend ADMIN_IDS caller now_utc order_id addm s) in
  let ans := snd (admin_order_extend ADMIN_IDS caller now_utc order_id addm s) in
  set_subscriptions (subscriptions s) s' = s
  ∧ match get_order_with_user order_id s with
    | None => s' = s ∧ ans = OrderNotFound
    | Some o =>
        let base_utc := renewal_base now_utc (get_subscription (o_user_id o) s) in
        o ∈ orders s ∧ o_id o = order_id
        ∧ (Datetime.valid base_utc = true → 1602 < year base_utc ≤ 9995 →
           0 ≤ addm ≤ 12 →
           ∃ base_iran new_exp_iran new_exp_utc,
             to_iran base_utc = Some base_iran
             ∧ add_months_shamsi base_iran addm = Some new_exp_iran
             ∧ from_iran new_exp_iran = Some new_exp_utc
             ∧ ans = Extended (o_user_id o) new_exp_iran
             ∧ subscriptions s'
               = <[o_user_id o := mk_sub new_exp_utc false false]> (subscriptions s))
    end.
Proof.
  intros Hadm s' ans. subst s' ans. unfold admin_order_extend. rewrite Hadm. cbn [negb].
  destruct (get_order_with_user order_id s) as [o|] eqn:Ho.
  2:{ cbn [fst snd]. split; [by destruct s|done]. }
  pose proof (get_order_with_user_Some _ _ _ Ho) as [Hin Hid].
  split.
  - destruct (to_iran _ ≫= _) as [[ei eu]|]; cbn [fst]; by destruct s.
  - cbv zeta. split; [done|]. split; [done|]. intros Hv Hy Hm.
    destruct (renewal_dates_exist _ addm Hv Hy Hm) as (bi & ei & eu & Hto & Hadd & Hfrom & _).
    exists bi, ei, eu. rewrite Hto. cbn [mbind option_bind]. rewrite Hadd.
    cbn [mbind option_bind]. rewrite Hfrom. cbn [mbind option_bind fst snd]. done.
Qed.

(** What a purchase answers and stores once the balance covers the price
    and the first two date steps are known. *)
Lemma purchase_answer
    (now_utc : datetime) (user_id months price : Z) (s : store)
    (base_iran new_exp_iran : datetime) :
  PLANS !! months = Some price →
  price ≤ get_wallet_balance user_id s →
  to_iran (renewal_base now_utc (get_subscription user_id s)) = Some base_iran →
  add_months_shamsi base_iran months = Some new_exp_iran →
  let s' := fst (confirm_purchase now_utc user_id months s) in
  let nb := get_wallet_balance user_id s - price in
  match from_iran new_exp_iran with
  | None => snd (confirm_purchase now_utc user_id months s) = Raised
  | Some new_exp_utc =>
      (snd (confirm_purchase now_utc user_id months s) = PurchaseDelivered nb new_exp_iran
       ∨ snd (confirm_purchase now_utc user_id months s) = PurchaseQueued nb new_exp_iran)
      ∧ get_subscription user_id s' = Some (mk_sub new_exp_utc false false)
  end.
Proof.
  intros Hplan Hbal Hto Hadd s' nb.
  destruct (from_iran new_exp_iran) as [new_exp_utc|] eqn:Hfrom.
  - split.
    2:{ by destruct (purchase_stores_expiry now_utc user_id months price s
                       base_iran new_exp_iran new_exp_utc Hplan Hbal Hto Hadd Hfrom). }
    subst s' nb. unfold confirm_purchase. rewrite Hplan.
    destruct (Z.ltb_spec (get_wallet_balance user_id s) price) as [?|_]; [lia|].
    destruct (try_deduct_wallet_frame user_id price s) as (Hsub1 & _ & _).
    destruct (try_deduct_wallet_ok user_id price s Hbal) as (s1 & Hded & _ & _).
    rewrite Hded in *. cbn [fst negb] in *.
    destruct (create_order user_id months price s1) as [s2 order_id] eqn:Hco.
    assert (Hsub2 : subscriptions s2 = subscriptions s).
    { apply (f_equal fst) in Hco. cbn [fst] in Hco. subst s2. by rewrite <- Hsub1. }
    assert (Hbase : get_subscription user_id s2 = get_subscription user_id s).
    { unfold get_subscription. by rewrite Hsub2. }
    rewrite Hbase, Hto. cbn [mbind option_bind]. rewrite Hadd. cbn [mbind option_bind].
    rewrite Hfrom. cbn [mbind option_bind].
    destruct (pop_available_link_for_order _ _ _) as [s4 link].
    destruct (truthy link); cbn [snd]; [by left|by right].
  - subst s' nb. unfold confirm_purchase. rewrite Hplan.
    destruct (Z.ltb_spec (get_wallet_balance user_id s) price) as [?|_]; [lia|].
    destruct (try_deduct_wallet_frame user_id price s) as (Hsub1 & _ & _).
    destruct (try_deduct_wallet_ok user_id price s Hbal) as (s1 & Hded & _ & _).
    rewrite Hded in *. cbn [fst negb] in *.
    destruct (create_order user_id months price s1) as [s2 order_id] eqn:Hco.
    assert (Hsub2 : subscriptions s2 = subscriptions s).
    { apply (f_equal fst) in Hco. cbn [fst] in Hco. subst s2. by rewrite <- Hsub1. }
    assert (Hbase : get_subscription user_id s2 = get_subscription user_id s).
    { unfold get_subscription. by rewrite Hsub2. }
    rewrite Hbase, Hto. cbn [mbind option_bind]. rewrite Hadd. cbn [mbind option_bind].
    rewrite Hfrom. reflexivity.
Qed.

(** X9: when [plan_selected] shows a price and an expiry for a plan, the
    plan is one of [PLANS] at that price, and confirming at the same clock
    reading on the same store does one of three things: with a balance
    below the price it changes nothing and reports the balance; otherwise
    it answers with the balance less the price and the very expiry that was
    shown, and stores that expiry moved back to UTC -- or, if that last
    move fails, raises after the debit. *)
Theorem preview_is_what_purchase_stores
    (now_utc : datetime) (user_id months price : Z) (shown : datetime) (s : store) :
  plan_selected now_utc user_id months s = Preview price shown →
  let s' := fst (confirm_purchase now_utc user_id months s) in
  let bal := get_wallet_balance user_id s in
  PLANS !! months = Some price
  ∧ (bal < price → confirm_purchase now_utc user_id months s = (s, InsufficientFunds bal price))
  ∧ (price ≤ bal →
       match from_iran shown with
       | None => snd (confirm_purchase now_utc user_id months s) = Raised
       | Some new_exp_utc =>
           (snd (confirm_purchase now_utc user_id months s)
            = PurchaseDelivered (bal - price) shown
            ∨ snd (confirm_purchase now_utc user_id months s)
              = PurchaseQueued (bal - price) shown)
           ∧ get_subscription user_id s' = Some (mk_sub new_exp_utc false false)
       end).
Proof.
  intros Hprev s' bal. unfold plan_selected in Hprev.
  destruct (PLANS !! months) as [p|] eqn:Hplan; [|done].
  destruct (to_iran (renewal_base now_utc (get_subscription user_id s))) as [bi|] eqn:Hto;
    [|done].
  cbn [mbind option_bind] in Hprev.
  destruct (add_months_shamsi bi months) as [e|] eqn:Hadd; [|done].
  injection Hprev as -> ->.
  split; [done|]. split.
  - intros Hlt. unfold confirm_purchase. rewrite Hplan. fold bal.
    by destruct (Z.ltb_spec bal price) as [_|?]; [|lia].
  - intros Hle.
    exact (purchase_answer now_utc user_id months price s bi shown Hplan Hle Hto Hadd).
Qed.

End preview_extension.
Lemma admin_order_extend_renews_witness :
  let admins : gset Z := {[1]} in
  let now_utc := mkdt 2024 3 1 12 0 0 in
  let s := backlog 1 in
  is_admin admins 1 = true
  ∧ admin_order_extend admins 1 now_utc 2 1 s = (s, OrderNotFound)
  ∧ set_subscriptions (subscriptions s) (fst (admin_order_extend admins 1 now_utc 1 1 s)) = s.
Proof.
  intros admins now_utc s.
  assert (Hadm : is_admin admins 1 = true) by (vm_compute; reflexivity).
  split; [exact Hadm|]. split.
  - destruct (admin_order_extend_renews admins 1 now_utc 2 1 s Hadm) as [_ H].
    change (get_order_with_user 2 s) with (@None order_row) in H.
    destruct H as [Hs Ha].
    destruct (admin_order_extend admins 1 now_utc 2 1 s) as [s' ans].
    cbn [fst snd] in Hs, Ha. by rewrite Hs, Ha.
  - exact (proj1 (admin_order_extend_renews admins 1 now_utc 1 1 s Hadm)).
Defined.

Lemma preview_is_what_purchase_stores_witness :
  let now_utc := mkdt 2024 3 1 12 0 0 in
  let shown := mkdt 2024 4 30 15 30 0 in
  let s := fst (add_wallet_balance 7 200000 empty_store) in
  plan_selected now_utc 7 2 s = Preview 150000 shown
  ∧ get_subscription 7 (fst (confirm_purchase now_utc 7 2 s))
    = Some (mk_sub (mkdt 2024 4 30 12 0 0) false false).
Proof.
  intros now_utc shown s.
  assert (Hp : plan_selected now_utc 7 2 s = Preview 150000 shown)
    by (vm_compute; reflexivity).
  split; [exact Hp|].
  destruct (preview_is_what_purchase_stores now_utc 7 2 150000 shown s Hp)
    as (_ & _ & Hbuy).
  assert (Hbal : 150000 ≤ get_wallet_balance 7 s) by (vm_compute; discriminate).
  specialize (Hbuy Hbal).
  change (from_iran shown) with (Some (mkdt 2024 4 30 12 0 0)) in Hbuy.
  exact (proj2 Hbuy).
Defined.

(** ** More calendar arithmetic *)

Section calendar_more.

Import DayNumber.

(** X10: a civil date of the years 980 to 9377 -- any day of the months 1
    to 11, and the days 1 to 29 of the last month -- converts to a date
    Python can represent, and converting that back gives the civil date
    again. *)
Theorem civil_round_trip (jy jm jd : Z) :
  980 ≤ jy ≤ 9377 → 1 ≤ jm ≤ 12 →
  1 ≤ jd ≤ (if jm <=? 6 then 31 else if jm <=? 11 then 30 else 29) →
  ∃ gy gm gd,
    jalali_to_gregorian jy jm jd = (gy, gm, gd)
    ∧ valid_date gy gm gd = true
    ∧ gregorian_to_jalali gy gm gd = Some (jy, jm, jd).
Proof.
  intros Hy Hm Hd.
  assert (Hd31 : 1 ≤ jd ≤ 31) by (destruct (jm <=? 6), (jm <=? 11); lia).
  pose proof (gregorian_year_range jy jm jd Hy Hm Hd31) as Hg.
  destruct (jalali_to_gregorian jy jm jd) as [[gy gm] gd].
  destruct Hg as (Hvalid & Hgy & Hinv).
  exists gy, gm, gd. split; [done|]. split; [done|].
  unfold valid_date in Hvalid. repeat (apply andb_true_iff in Hvalid as [Hvalid ?]).
  rewrite (g2j_split gy gm gd Hgy ltac:(lia)). f_equal.
  replace (greg_days (gy - 1600) gm gd) with (jalali_days jy jm jd - K) by lia.
  destruct (Z.leb_spec jm 11) as [H11|H12].
  - apply jalali_inverse; [lia|]. destruct (jm <=? 6); lia.
  - assert (jm = 12) as -> by lia. cbn in Hd.
    destruct (esfand_inverse jy jd ltac:(lia)) as [?|[? _]]; [done|lia].
Qed.

(** X11: when [add_months_shamsi] lands in the last month of a civil year,
    the civil form of its result is the target year, that month and the
    clamped day, except that a clamped day 30 may be read back as the first
    day of the following year; it is never any other date. *)
Theorem add_months_shamsi_last_month (dt : datetime) (n jy jm jd : Z) :
  Datetime.valid dt = true → 1601 < year dt →
  gregorian_to_jalali (year dt) (month dt) (day dt) = Some (jy, jm, jd) →
  0 ≤ n →
  let total := (jm - 1) + n in
  let new_jy := jy + total / 12 in
  let new_jd := Z.min jd (jalali_month_days new_jy 12) in
  total mod 12 + 1 = 12 → new_jy ≤ 9377 →
  ∃ dt',
    add_months_shamsi dt n = Some dt'
    ∧ 29 ≤ jalali_month_days new_jy 12 ≤ 30
    ∧ (gregorian_to_jalali (year dt') (month dt') (day dt') = Some (new_jy, 12, new_jd)
       ∨ (new_jd = 30
          ∧ gregorian_to_jalali (year dt') (month dt') (day dt')
            = Some (new_jy + 1, 1, 1))).
Proof.
  intros Hv Hy Hciv Hn total new_jy new_jd H12 Hmax.
  destruct (add_months_shamsi_result dt n jy jm jd Hv Hy Hciv Hn)
    as (dt' & Hadd & Hv' & Hdate & _); [exact Hmax|].
  fold total new_jy in Hdate. rewrite H12 in Hdate. fold new_jd in Hdate.
  exists dt'. split; [exact Hadd|].
  assert (Hmd : 29 ≤ jalali_month_days new_jy 12 ≤ 30).
  { unfold jalali_month_days. destruct (Z.leb_spec 12 6); [lia|].
    destruct (Z.leb_spec 12 11); [lia|]. destruct (_ <? 682); lia. }
  split; [exact Hmd|].
  (* the civil date of [dt] and the bounds of the target *)
  pose proof Hv as Hv0. unfold Datetime.valid in Hv0.
  apply andb_true_iff in Hv0 as [Hvd _].
  unfold valid_date in Hvd. repeat (apply andb_true_iff in Hvd as [Hvd ?]).
  assert (Hgm : 1 ≤ month dt ≤ 12) by lia.
  rewrite (g2j_split (year dt) (month dt) (day dt) ltac:(lia) Hgm) in Hciv.
  pose proof (jalali_cycle (greg_days (year dt - 1600) (month dt) (day dt))) as Hcyc.
  injection Hciv as Hciv. rewrite Hciv in Hcyc. destruct Hcyc as (Hdays & Hjm & Hjd).
  assert (Hjd31 : 1 ≤ jd ≤ 31) by (destruct (jm <=? 6); lia).
  assert (Hjy : 980 ≤ jy).
  { destruct (Z_le_gt_dec 980 jy) as [?|Hlt]; [done|].
    pose proof (jalali_days_before_980 jy jm jd ltac:(lia) Hjm Hjd31).
    pose proof (greg_days_from_1602 (year dt - 1600) (month dt) (day dt)
                  ltac:(lia) ltac:(lia)).
    unfold K in *. lia. }
  assert (Hq : 0 ≤ total / 12) by (apply Z.div_pos; subst total; lia).
  assert (Hny : 980 ≤ new_jy ≤ 9377) by (subst new_jy; lia).
  assert (Hnd : 1 ≤ new_jd ≤ 30) by (subst new_jd; lia).
  pose proof (gregorian_year_range new_jy 12 new_jd Hny ltac:(lia) ltac:(lia)) as Hg.
  rewrite <- Hdate in Hg. destruct Hg as (Hvalid & Hgy & Hinv).
  unfold valid_date in Hvalid. repeat (apply andb_true_iff in Hvalid as [Hvalid ?]).
  rewrite (g2j_split (year dt') (month dt') (day dt') Hgy ltac:(lia)).
  replace (greg_days (year dt' - 1600) (month dt') (day dt'))
    with (jalali_days new_jy 12 new_jd - K) by lia.
  destruct (esfand_inverse new_jy new_jd Hnd) as [->|[H30 ->]]; [by left|by right].
Qed.

(** X12: [gregorian_to_jalali] never leaves the calendar: for any year and
    day, and a month from 1 to 12, it returns a month from 1 to 12 and a
    day from 1 to 31 (at most 30 from the seventh month on).  So
    [to_jalali_pretty] raises on no datetime: its month lookup always finds
    one of the twelve names. *)
Theorem to_jalali_pretty_total (dt : datetime) :
  1 ≤ month dt ≤ 12 →
  ∃ jy jm jd name,
    gregorian_to_jalali (year dt) (month dt) (day dt) = Some (jy, jm, jd)
    ∧ 1 ≤ jm ≤ 12 ∧ 1 ≤ jd ≤ (if jm <=? 6 then 31 else 30)
    ∧ PERSIAN_MONTHS !! Z.to_nat jm = Some name ∧ name ≠ []
    ∧ to_jalali_pretty dt = Some (jd, name, jy, hour dt, minute dt).
Proof.
  intros Hm.
  assert (Hconv : ∃ jy jm jd,
            gregorian_to_jalali (year dt) (month dt) (day dt) = Some (jy, jm, jd)
            ∧ 1 ≤ jm ≤ 12 ∧ 1 ≤ jd ≤ (if jm <=? 6 then 31 else 30)).
  { unfold gregorian_to_jalali.
    destruct (year dt >? 1600); rewrite (g_d_m_index (month dt) Hm);
      cbn [mbind option_bind];
      match goal with
      | |- context [(?e mod 12053) mod 1461] =>
          generalize e; intros days
      end;
      pose proof (Z.mod_pos_bound days 12053 ltac:(lia)) as H1;
      set (d1 := days mod 12053) in *;
      pose proof (Z.mod_pos_bound d1 1461 ltac:(lia)) as H2;
      set (d2 := d1 mod 1461) in *;
      (destruct (Z.gtb_spec d2 365) as [Hgt|Hle];
       [pose proof (Z.mod_pos_bound (d2 - 1) 365 ltac:(lia)) as H3;
        set (d3 := (d2 - 1) mod 365) in *|set (d3 := d2) in *]);
      (destruct (Z.ltb_spec d3 186) as [Hlt|Hge];
       eexists _, _, _; (split; [reflexivity|]));
      pose proof (Z.mod_pos_bound d3 31 ltac:(lia));
      pose proof (Z.mod_pos_bound (d3 - 186) 30 ltac:(lia));
      (split; [Z.div_mod_to_equations; lia|]);
      match goal with
      | |- context [if ?c then _ else _] => destruct (Z.leb_spec (1 + d3 / 31) 6)
      | _ => idtac
      end.
    all: try (destruct (Z.leb_spec (1 + d3 / 31) 6); Z.div_mod_to_equations; lia).
    all: try (destruct (Z.leb_spec (7 + (d3 - 186) / 30) 6); Z.div_mod_to_equations; lia). }
  destruct Hconv as (jy & jm & jd & Hg & Hjm & Hjd).
  assert (Hname : ∃ name, PERSIAN_MONTHS !! Z.to_nat jm = Some name ∧ name ≠ []).
  { assert (Hc : jm = 1 ∨ jm = 2 ∨ jm = 3 ∨ jm = 4 ∨ jm = 5 ∨ jm = 6 ∨ jm = 7 ∨ jm = 8
                 ∨ jm = 9 ∨ jm = 10 ∨ jm = 11 ∨ jm = 12) by lia.
    destruct Hc as [->|[->|[->|[->|[->|[->|[->|[->|[->|[->|[->| ->]]]]]]]]]]];
      eexists; (split; [reflexivity|done]). }
  destruct Hname as (name & Hname & Hne).
  exists jy, jm, jd, name. repeat (split; [done|]).
  unfold to_jalali_pretty. rewrite Hg. cbn [mbind option_bind].
  unfold py_index. destruct (Z.leb_spec 0 jm); [|lia]. by rewrite Hname.
Qed.

Lemma ymd2ord_checked y m d :
  1 ≤ y ≤ 400 → 1 ≤ m ≤ 12 → 1 ≤ d ≤ days_in_month y m →
  (let '(y', m', d') := ord2ymd (ymd2ord y m d) in
   (y' =? y) && (m' =? m) && (d' =? d)) = true.
Proof.
  intros Hy Hm Hd.
  apply (forall_range_spec
           (λ d, let '(y', m', d') := ord2ymd (ymd2ord y m d) in
                 (y' =? y) && (m' =? m) && (d' =? d))
           (Z.to_nat (days_in_month y m)) 1); [|lia].
  apply (forall_range_spec
           (λ m, forall_range
                   (λ d, let '(y', m', d') := ord2ymd (ymd2ord y m d) in
                         (y' =? y) && (m' =? m) && (d' =? d))
                   1 (Z.to_nat (days_in_month y m)))
           12%nat 1); [|lia].
  apply (forall_range_spec
           (λ y, forall_range
                   (λ m, forall_range
                           (λ d, let '(y', m', d') := ord2ymd (ymd2ord y m d) in
                                 (y' =? y) && (m' =? m) && (d' =? d))
                           1 (Z.to_nat (days_in_month y m)))
                   1 12%nat)
           400%nat 1); [vm_compute; reflexivity|lia].
Qed.

(** The date of the ordinal of a date is that date. *)
Lemma ymd2ord_inverse y m d :
  1 ≤ m ≤ 12 → 1 ≤ d ≤ days_in_month y m → ord2ymd (ymd2ord y m d) = (y, m, d).
Proof.
  intros Hm Hd.
  pose proof (Z.div_mod (y - 1) 400 ltac:(lia)) as Hy.
  pose proof (Z.mod_pos_bound (y - 1) 400 ltac:(lia)) as Hy0.
  set (k := (y - 1) / 400) in *. set (y0 := (y - 1) mod 400 + 1).
  assert (Hyk : y = y0 + 400 * k) by (subst y0; lia).
  assert (Hy0' : 1 ≤ y0 ≤ 400) by (subst y0; lia).
  clearbody y0 k. subst y.
  rewrite days_in_month_shift in Hd.
  rewrite ymd2ord_shift, ord2ymd_shift.
  pose proof (ymd2ord_checked y0 m d Hy0' Hm Hd) as Hc.
  destruct (ord2ymd (ymd2ord y0 m d)) as [[y' m'] d']. cbn [shift_year].
  repeat (apply andb_true_iff in Hc as [Hc ?]).
  f_equal; [f_equal|]; lia.
Qed.

(** Undoing a shift of at most a day gives the datetime back. *)
Lemma add_seconds_undo dt delta dt' :
  Datetime.valid dt = true → 2 ≤ year dt ≤ 9998 →
  add_seconds dt delta = Some dt' → add_seconds dt' (- delta) = Some dt.
Proof.
  intros Hv Hy. unfold Datetime.valid in Hv.
  apply andb_true_iff in Hv as [Hvd Hvt].
  unfold valid_date in Hvd. repeat (apply andb_true_iff in Hvd as [Hvd ?]).
  unfold valid_time in Hvt. repeat (apply andb_true_iff in Hvt as [Hvt ?]).
  pose proof (days_in_month_bound (year dt) (month dt)) as Hdim.
  assert (Hm : 1 ≤ month dt ≤ 12) by lia.
  assert (Hd : 1 ≤ day dt ≤ 31) by lia.
  pose proof (ymd2ord_range _ _ _ Hy Hm Hd) as Hord.
  pose proof (ymd2ord_inverse (year dt) (month dt) (day dt) Hm ltac:(lia)) as Hback.
  unfold add_seconds at 1.
  set (ord := ymd2ord (year dt) (month dt) (day dt)) in *.
  set (tod := hour dt * 3600 + minute dt * 60 + second dt).
  assert (Htod : 0 ≤ tod < 86400) by (subst tod; lia).
  replace (ord * 86400 + hour dt * 3600 + minute dt * 60 + second dt + delta)
    with (ord * 86400 + tod + delta) by (subst tod; lia).
  set (total := ord * 86400 + tod + delta).
  pose proof (Z.div_mod total 86400 ltac:(lia)) as Hdm.
  pose proof (Z.mod_pos_bound total 86400 ltac:(lia)) as Hsecs.
  set (days := total / 86400) in *. set (secs := total mod 86400) in *.
  destruct ((0 <? days) && (days <=? MAXORDINAL)); [|done].
  pose proof (ord2ymd_inverse days) as Hinv.
  destruct (ord2ymd days) as [[y' m'] d']. destruct Hinv as (_ & _ & Hord').
  intros [= <-]. unfold add_seconds. cbn [year month day hour minute second].
  rewrite Hord'.
  assert (Htot : days * 86400 + secs / 3600 * 3600 + secs mod 3600 / 60 * 60
                 + secs mod 3600 mod 60 + - delta = ord * 86400 + tod).
  { pose proof (Z.div_mod secs 3600 ltac:(lia)).
    pose proof (Z.div_mod (secs mod 3600) 60 ltac:(lia)). subst total. lia. }
  rewrite Htot.
  assert (Hq : (ord * 86400 + tod) / 86400 = ord)
    by (symmetry; apply (Z.div_unique _ _ _ tod); lia).
  assert (Hr : (ord * 86400 + tod) mod 86400 = tod)
    by (symmetry; apply (Z.mod_unique _ _ ord); lia).
  rewrite Hq, Hr.
  destruct (Z.ltb_spec 0 ord); [|lia].
  unfold MAXORDINAL. destruct (Z.leb_spec ord 3652059); [|lia]. cbn [andb].
  rewrite Hback.
  assert (Hh : tod / 3600 = hour dt)
    by (symmetry; apply (Z.div_unique _ _ _ (minute dt * 60 + second dt)); subst tod; lia).
  assert (Hhm : tod mod 3600 = minute dt * 60 + second dt)
    by (symmetry; apply (Z.mod_unique _ _ (hour dt)); subst tod; lia).
  assert (Hmi : (minute dt * 60 + second dt) / 60 = minute dt)
    by (symmetry; apply (Z.div_unique _ _ _ (second dt)); lia).
  assert (Hse : (minute dt * 60 + second dt) mod 60 = second dt)
    by (symmetry; apply (Z.mod_unique _ _ (minute dt)); lia).
  rewrite Hh, Hhm, Hmi, Hse. by destruct dt.
Qed.

(** X13: on valid datetimes of the years 2 to 9998 the two shifts between
    UTC and Iran time are defined and undo each other, in both orders. *)
Theorem iran_time_round_trip (dt : datetime) :
  Datetime.valid dt = true → 2 ≤ year dt ≤ 9998 →
  (∃ dt_iran, to_iran dt = Some dt_iran ∧ from_iran dt_iran = Some dt)
  ∧ (∃ dt_utc, from_iran dt = Some dt_utc ∧ to_iran dt_utc = Some dt).
Proof.
  intros Hv Hy. unfold to_iran, from_iran. split.
  - destruct (add_seconds_valid dt IRAN_OFFSET Hv ltac:(unfold IRAN_OFFSET; lia) Hy)
      as (di & Hto & _). exists di. split; [exact Hto|].
    by apply (add_seconds_undo dt).
  - destruct (add_seconds_valid dt (- IRAN_OFFSET) Hv ltac:(unfold IRAN_OFFSET; lia) Hy)
      as (du & Hfrom & _). exists du. split; [exact Hfrom|].
    rewrite <- (Z.opp_involutive IRAN_OFFSET) at 1. by apply (add_seconds_undo dt).
Qed.

End calendar_more.
Lemma civil_round_trip_witness :
  980 ≤ 1403 ≤ 9377 ∧ 1 ≤ 12 ≤ 12
  ∧ 1 ≤ 29 ≤ (if 12 <=? 6 then 31 else if 12 <=? 11 then 30 else 29)
  ∧ ∃ gy gm gd,
      jalali_to_gregorian 1403 12 29 = (gy, gm, gd)
      ∧ valid_date gy gm gd = true
      ∧ gregorian_to_jalali gy gm gd = Some (1403, 12, 29).
Proof.
  assert (Hy : 980 ≤ 1403 ≤ 9377) by lia.
  assert (Hm : 1 ≤ 12 ≤ 12) by lia.
  assert (Hd : 1 ≤ 29 ≤ (if 12 <=? 6 then 31 else if 12 <=? 11 then 30 else 29))
    by (cbn; lia).
  split; [exact Hy|]. split; [exact Hm|]. split; [exact Hd|].
  exact (civil_round_trip 1403 12 29 Hy Hm Hd).
Defined.

Lemma add_months_shamsi_last_month_witness :
  let dt := mkdt 2025 2 18 10 0 0 in
  Datetime.valid dt = true ∧ 1601 < year dt
  ∧ gregorian_to_jalali (year dt) (month dt) (day dt) = Some (1403, 11, 30)
  ∧ 0 ≤ 1
  ∧ (11 - 1 + 1) mod 12 + 1 = 12
  ∧ 1403 + (11 - 1 + 1) / 12 ≤ 9377
  ∧ ∃ dt',
      add_months_shamsi dt 1 = Some dt'
      ∧ gregorian_to_jalali (year dt') (month dt') (day dt') = Some (1403, 12, 29).
Proof.
  intros dt.
  assert (Hv : Datetime.valid dt = true) by reflexivity.
  assert (Hy : 1601 < year dt) by (cbn; lia).
  assert (Hc : gregorian_to_jalali (year dt) (month dt) (day dt) = Some (1403, 11, 30))
    by reflexivity.
  assert (Hn : 0 ≤ 1) by lia.
  assert (Hl : (11 - 1 + 1) mod 12 + 1 = 12) by reflexivity.
  assert (Hm : 1403 + (11 - 1 + 1) / 12 ≤ 9377) by (vm_compute; discriminate).
  split; [exact Hv|]. split; [exact Hy|]. split; [exact Hc|].
  split; [exact Hn|]. split; [exact Hl|]. split; [exact Hm|].
  destruct (add_months_shamsi_last_month dt 1 1403 11 30 Hv Hy Hc Hn Hl Hm)
    as (dt' & Hadd & _ & [Hsame|[Hday _]]).
  - exists dt'. split; [exact Hadd|exact Hsame].
  - vm_compute in Hday. discriminate Hday.
Defined.

Lemma to_jalali_pretty_total_witness :
  let dt := mkdt 2024 3 20 9 5 0 in
  1 ≤ month dt ≤ 12
  ∧ ∃ jy jm jd name, to_jalali_pretty dt = Some (jd, name, jy, hour dt, minute dt)
                     ∧ 1 ≤ jm ≤ 12 ∧ name ≠ [].
Proof.
  intros dt.
  assert (Hm : 1 ≤ month dt ≤ 12) by (cbn; lia).
  split; [exact Hm|].
  destruct (to_jalali_pretty_total dt Hm)
    as (jy & jm & jd & name & _ & Hjm & _ & _ & Hname & Hpretty).
  by exists jy, jm, jd, name.
Defined.

Lemma iran_time_round_trip_witness :
  let dt := mkdt 2024 3 19 21 0 0 in
  Datetime.valid dt = true ∧ 2 ≤ year dt ≤ 9998
  ∧ ∃ dt_iran, to_iran dt = Some dt_iran ∧ from_iran dt_iran = Some dt.
Proof.
  intros dt.
  assert (Hv : Datetime.valid dt = true) by reflexivity.
  assert (Hy : 2 ≤ year dt ≤ 9998) by (cbn; lia).
  split; [exact Hv|]. split; [exact Hy|].
  exact (proj1 (iran_time_round_trip dt Hv Hy)).
Defined.

(** ** The ledger over whole runs *)

Section ledger_runs.

Context (ADMIN_IDS : gset Z).

Lemma sum_of_empty {A : Type} (f : A → Z) : sum_of f ∅ = 0.
Proof. apply map_fold_empty. Qed.

Lemma sum_of_insert_fresh {A : Type} (f : A → Z) (m : gmap Z A) k v :
  m !! k = None → sum_of f (<[k := v]> m) = f v + sum_of f m.
Proof.
  intros Hk. unfold sum_of. rewrite map_fold_insert_L; [done| |done].
  intros. lia.
Qed.

Lemma sum_of_insert {A : Type} (f : A → Z) (m : gmap Z A) k v :
  sum_of f (<[k := v]> m) = sum_of f m - default 0 (f <$> m !! k) + f v.
Proof.
  destruct (m !! k) as [v0|] eqn:Hk; cbn.
  - rewrite <- (insert_delete_id m k v0 Hk) at 2.
    rewrite <- insert_delete_eq.
    rewrite !sum_of_insert_fresh by apply lookup_delete_eq. lia.
  - rewrite sum_of_insert_fresh by done. lia.
Qed.

Lemma alter_as_insert {A : Type} (g : A → A) (m : gmap Z A) k v :
  m !! k = Some v → alter g k m = <[k := g v]> m.
Proof.
  intros Hk. apply map_eq. intros i. destruct (decide (i = k)) as [->|Hne].
  - by rewrite lookup_alter_eq, lookup_insert_eq, Hk.
  - by rewrite lookup_alter_ne, lookup_insert_ne.
Qed.

Lemma sum_of_alter {A : Type} (f : A → Z) (g : A → A) (m : gmap Z A) k v :
  m !! k = Some v → sum_of f (alter g k m) = sum_of f m - f v + f (g v).
Proof.
  intros Hk. rewrite (alter_as_insert g m k v Hk), sum_of_insert, Hk. done.
Qed.

Lemma sum_of_ensure_wallet u w : sum_of id (ensure_wallet u w) = sum_of id w.
Proof.
  unfold ensure_wallet. destruct (w !! u) eqn:Hu; [done|].
  by rewrite sum_of_insert_fresh.
Qed.

Lemma sum_of_credit u a w :
  sum_of id (bump_wallet u a (ensure_wallet u w)) = sum_of id w + a.
Proof.
  unfold bump_wallet. destruct (ensure_wallet_is_Some w u) as [b Hb].
  rewrite (sum_of_alter id _ _ u b Hb), sum_of_ensure_wallet. unfold id. lia.
Qed.

Lemma total_balance_credit u a s :
  total_balance (fst (add_wallet_balance u a s)) = total_balance s + a.
Proof. apply sum_of_credit. Qed.

Lemma total_commission_add r p s :
  total_commission (add_ref_profit r p s) = total_commission s + p.
Proof.
  unfold total_commission, add_ref_profit. cbn [referral_profits set_referral_profits].
  destruct (referral_profits s !! r) as [t|] eqn:Hr; rewrite sum_of_insert, Hr; cbn;
    unfold id; lia.
Qed.

Lemma total_spent_delivered order_id link (rows : list order_row) :
  foldr (λ o acc, o_amount o + acc) 0 (deliver_row order_id link <$> rows)
  = foldr (λ o acc, o_amount o + acc) 0 rows.
Proof.
  induction rows as [|o rows IH]; [done|]. rewrite fmap_cons. cbn [foldr]. rewrite IH.
  f_equal. unfold deliver_row. by destruct (decide _).
Qed.

Lemma total_spent_app (rows more : list order_row) :
  foldr (λ o acc, o_amount o + acc) 0 (rows ++ more)
  = foldr (λ o acc, o_amount o + acc) 0 rows + foldr (λ o acc, o_amount o + acc) 0 more.
Proof. induction rows as [|o rows IH]; cbn [app foldr]; lia. Qed.

(** The four totals depend on four tables only. *)
Lemma ledger_balanced_ext s s' :
  wallets s' = wallets s → deposit_requests s' = deposit_requests s →
  referral_profits s' = referral_profits s →
  total_spent s' = total_spent s →
  ledger_balanced s → ledger_balanced s'.
Proof.
  unfold ledger_balanced, total_balance, total_approved, total_commission.
  by intros -> -> -> ->.
Qed.

(** *** What each handler does to the store *)

Lemma topup_effect u a r s :
  fst (topup_receipt_received u a r s) = s
  ∨ ∃ txt fid,
      fst (topup_receipt_received u a r s) = fst (create_deposit_request u a txt fid s).
Proof.
  unfold topup_receipt_received. destruct r as [[|c text]|fid caption|]; [by left| | |by left].
  - right. exists (Some (strip (c :: text))), None.
    by destruct (create_deposit_request _ _ _ _ s).
  - right. cbv zeta.
    exists (match strip (default [] caption) with
            | [] => None
            | _ => Some (strip (default [] caption))
            end), (Some fid).
    by destruct (create_deposit_request _ _ _ _ s).
Qed.

Lemma deposit_approve_effect caller dep_id s :
  fst (deposit_approve ADMIN_IDS caller dep_id s) = s
  ∨ ∃ dep,
      get_deposit_request dep_id s = Some dep ∧ d_status dep = "pending_admin"
      ∧ let s2 := fst (add_wallet_balance (d_user_id dep) (d_amount dep)
                         (set_deposit_status dep_id "approved" s)) in
        (fst (deposit_approve ADMIN_IDS caller dep_id s) = s2
         ∨ ∃ r p, r ≠ d_user_id dep ∧ 0 < p
                  ∧ fst (deposit_approve ADMIN_IDS caller dep_id s)
                    = add_ref_profit r p (fst (add_wallet_balance r p s2))).
Proof.
  destruct (is_admin ADMIN_IDS caller) eqn:Hadm.
  2:{ left. unfold deposit_approve. by rewrite Hadm. }
  destruct (get_deposit_request dep_id s) as [dep|] eqn:Hdep.
  2:{ left. unfold deposit_approve. by rewrite Hadm, Hdep. }
  destruct (decide (d_status dep = "pending_admin")) as [Hst|Hst].
  2:{ left. unfold deposit_approve. rewrite Hadm, Hdep. cbn [negb].
      by rewrite bool_decide_eq_false_2. }
  right. exists dep. split; [done|]. split; [done|].
  by destruct (deposit_approve_shape ADMIN_IDS caller dep_id s dep Hadm Hdep Hst) as [_ ?].
Qed.

Lemma deposit_reject_effect caller dep_id s :
  fst (deposit_reject ADMIN_IDS caller dep_id s) = s
  ∨ ∃ dep,
      get_deposit_request dep_id s = Some dep ∧ d_status dep = "pending_admin"
      ∧ fst (deposit_reject ADMIN_IDS caller dep_id s) = set_deposit_status dep_id "rejected" s.
Proof.
  unfold deposit_reject. destruct (is_admin ADMIN_IDS caller); [|by left]. cbn [negb].
  destruct (get_deposit_request dep_id s) as [dep|] eqn:Hdep; [|by left].
  destruct (decide (d_status dep = "pending_admin")) as [Hst|Hst].
  - right. exists dep. by rewrite bool_decide_eq_true_2.
  - left. by rewrite bool_decide_eq_false_2.
Qed.

Lemma confirm_purchase_effect now_utc u m s :
  fst (confirm_purchase now_utc u m s) = s
  ∨ ∃ price,
      PLANS !! m = Some price ∧ price ≤ get_wallet_balance u s
      ∧ let s1 := fst (try_deduct_wallet u price s) in
        let s2 := fst (create_order u m price s1) in
        let id := snd (create_order u m price s1) in
        (fst (confirm_purchase now_utc u m s) = s2
         ∨ ∃ new_exp_utc,
             let s4 := fst (pop_available_link_for_order id u
                              (set_subscription u new_exp_utc s2)) in
             let link := snd (pop_available_link_for_order id u
                                (set_subscription u new_exp_utc s2)) in
             if truthy link
             then fst (confirm_purchase now_utc u m s)
                  = set_order_delivered id (default [] link) s4
             else fst (confirm_purchase now_utc u m s) = s4).
Proof.
  unfold confirm_purchase. destruct (PLANS !! m) as [price|] eqn:Hplan; [|by left].
  destruct (Z.ltb_spec (get_wallet_balance u s) price) as [?|Hbal]; [by left|].
  right. exists price. split; [done|]. split; [done|].
  destruct (try_deduct_wallet_ok u price s Hbal) as (s1 & Hded & _ & _).
  rewrite Hded. cbn [fst snd negb].
  destruct (create_order u m price s1) as [s2 id]. cbn [fst snd].
  destruct (to_iran _ ≫= _) as [[ei eu]|]; [|by left].
  right. exists eu. cbv zeta.
  destruct (pop_available_link_for_order id u (set_subscription u eu s2)) as [s4 link].
  cbn [fst snd]. by destruct (truthy link).
Qed.

Lemma admin_links_fulfill_effect caller s :
  fst (admin_links_fulfill ADMIN_IDS caller s) = s
  ∨ fst (admin_links_fulfill ADMIN_IDS caller s)
    = fst (fulfill_loop (list_pending_orders 50 s) s 0).
Proof.
  unfold admin_links_fulfill. destruct (is_admin ADMIN_IDS caller); [|by left]. cbn [negb].
  destruct (list_pending_orders 50 s) as [|o rest]; [by left|]. right.
  destruct (fulfill_loop (o :: rest) s 0) as [s' sent]. by destruct (_ && _).
Qed.

Lemma admin_links_add_effect caller text s :
  fst (admin_links_add_receive ADMIN_IDS caller text s) = s
  ∨ ∃ lines, fst (admin_links_add_receive ADMIN_IDS caller text s) = fst (add_links lines s).
Proof.
  unfold admin_links_add_receive. destruct (is_admin ADMIN_IDS caller); [|by left].
  cbn [negb]. destruct (lower_is_done _); [by left|]. right.
  exists (strip <$> List.filter nonblank (splitlines (strip (default [] text)))).
  destruct (add_links _ s) as [s' n]. reflexivity.
Qed.

Lemma admin_links_del_effect caller link_id s :
  fst (admin_links_del ADMIN_IDS caller link_id s) = s
  ∨ fst (admin_links_del ADMIN_IDS caller link_id s) = fst (delete_link link_id s).
Proof.
  unfold admin_links_del. destruct (is_admin ADMIN_IDS caller); [|by left]. right.
  cbn [negb]. by destruct (delete_link link_id s).
Qed.

Lemma admin_links_edit_effect caller link_id text s :
  fst (admin_links_edit_save ADMIN_IDS caller link_id text s) = s
  ∨ ∃ new_link,
      fst (admin_links_edit_save ADMIN_IDS caller link_id text s)
      = fst (update_link link_id new_link s).
Proof.
  unfold admin_links_edit_save. destruct (is_admin ADMIN_IDS caller); [|by left]. right.
  cbn [negb]. exists (strip (default [] text)). by destruct (update_link link_id _ s).
Qed.

Lemma admin_order_extend_effect caller now_utc order_id addm s :
  set_subscriptions (subscriptions s)
    (fst (admin_order_extend ADMIN_IDS caller now_utc order_id addm s)) = s.
Proof.
  unfold admin_order_extend. destruct (is_admin ADMIN_IDS caller); [|by destruct s].
  cbn [negb]. destruct (get_order_with_user order_id s); [|by destruct s].
  destruct (to_iran _ ≫= _) as [[ei eu]|]; by destruct s.
Qed.

Lemma subscription_watcher_effect now_utc s :
  set_subscriptions (subscriptions s) (fst (subscription_watcher now_utc s)) = s.
Proof.
  unfold subscription_watcher.
  destruct (add_seconds now_utc 86400) as [soon|]; [|apply set_subscriptions_same].
  destruct (remind_loop_frame (fetch_expiring_soon_not_reminded soon now_utc s) s)
    as [Hfr1 _].
  destruct (remind_loop (fetch_expiring_soon_not_reminded soon now_utc s) s) as [s1 ok].
  cbn [fst] in *. destruct ok; [|done].
  destruct (notify_loop_frame (fetch_expired_not_notified now_utc s1) s1) as [Hfr2 _].
  by rewrite <- (set_subscriptions_twice _ (subscriptions s1)), Hfr2.
Qed.

(** What stays when only the subscription table may differ. *)
Lemma subscriptions_only s s' :
  set_subscriptions (subscriptions s) s' = s →
  users s' = users s ∧ wallets s' = wallets s ∧ referral_profits s' = referral_profits s
  ∧ deposit_requests s' = deposit_requests s ∧ orders s' = orders s ∧ links s' = links s.
Proof. intros <-. by destruct s'. Qed.

(** *** The balance equation *)

Lemma pop_money order_id user_id s :
  let s' := fst (pop_available_link_for_order order_id user_id s) in
  wallets s' = wallets s ∧ deposit_requests s' = deposit_requests s
  ∧ referral_profits s' = referral_profits s ∧ total_spent s' = total_spent s.
Proof.
  unfold pop_available_link_for_order.
  destruct (sql_limit 1 (order_by l_id (List.filter is_unused (links s)))); [done|].
  cbn [fst]. repeat (split; [done|]). apply total_spent_delivered.
Qed.

Lemma fulfill_loop_money pending : ∀ s sent,
  let s' := fst (fulfill_loop pending s sent) in
  wallets s' = wallets s ∧ deposit_requests s' = deposit_requests s
  ∧ referral_profits s' = referral_profits s ∧ total_spent s' = total_spent s.
Proof.
  induction pending as [|o rest IH]; intros s sent; [done|]. cbn [fulfill_loop].
  pose proof (pop_money (o_id o) (o_user_id o) s) as Hpop. cbv zeta in Hpop.
  destruct (pop_available_link_for_order (o_id o) (o_user_id o) s) as [s1 link].
  cbn [fst] in Hpop. destruct Hpop as (Hw & Hd & Hp & Hs).
  destruct (truthy link); [|done].
  specialize (IH (set_order_delivered (o_id o) (default [] link) s1) (sent + 1)).
  cbv zeta in IH. destruct IH as (Hw' & Hd' & Hp' & Hs').
  rewrite Hw', Hd', Hp', Hs'. repeat (split; [done|]).
  rewrite <- Hs. apply total_spent_delivered.
Qed.

Lemma add_links_loop_money lns : ∀ s n,
  let s' := fst (add_links_loop lns s n) in
  users s' = users s ∧ wallets s' = wallets s ∧ deposit_requests s' = deposit_requests s
  ∧ referral_profits s' = referral_profits s ∧ orders s' = orders s
  ∧ subscriptions s' = subscriptions s.
Proof.
  induction lns as [|ln rest IH]; intros s n; [done|]. cbn [add_links_loop].
  destruct (decide (strip ln = [])); [apply IH|].
  unfold insert_link. destruct (decide (strip ln ∈ l_link <$> links s)); [apply IH|].
  specialize (IH (set_links (links s ++ [mk_link (next_rowid (links_seq s) (l_id <$> links s))
                                           (strip ln) false None None])
                    (next_rowid (links_seq s) (l_id <$> links s)) s) (n + 1)).
  exact IH.
Qed.

Lemma add_links_money lns s :
  let s' := fst (add_links lns s) in
  users s' = users s ∧ wallets s' = wallets s ∧ deposit_requests s' = deposit_requests s
  ∧ referral_profits s' = referral_profits s ∧ orders s' = orders s
  ∧ subscriptions s' = subscriptions s.
Proof. destruct lns; [done|]. apply add_links_loop_money. Qed.

Lemma delete_link_money link_id s :
  let s' := fst (delete_link link_id s) in
  users s' = users s ∧ wallets s' = wallets s ∧ deposit_requests s' = deposit_requests s
  ∧ referral_profits s' = referral_profits s ∧ orders s' = orders s
  ∧ subscriptions s' = subscriptions s.
Proof.
  unfold delete_link. destruct (find_link link_id s) as [row|]; [|done].
  by destruct (l_is_used row).
Qed.

Lemma update_link_money link_id new_link s :
  let s' := fst (update_link link_id new_link s) in
  users s' = users s ∧ wallets s' = wallets s ∧ deposit_requests s' = deposit_requests s
  ∧ referral_profits s' = referral_profits s ∧ orders s' = orders s
  ∧ subscriptions s' = subscriptions s.
Proof.
  unfold update_link. destruct (decide _); [done|].
  destruct (find_link link_id s) as [row|]; [|done].
  destruct (l_is_used row); [done|]. by destruct (decide _).
Qed.

Lemma create_deposit_request_ledger u a txt fid s :
  ledger_balanced s → ledger_balanced (fst (create_deposit_request u a txt fid s)).
Proof.
  intros H. unfold ledger_balanced in *.
  assert (Ha : total_approved (fst (create_deposit_request u a txt fid s))
               = total_approved s).
  { unfold total_approved, create_deposit_request.
    cbn [fst deposit_requests set_deposit_requests].
    rewrite sum_of_insert_fresh by apply next_rowid_unused.
    unfold approved_amount at 1. cbn [d_status].
    rewrite bool_decide_eq_false_2 by done. lia. }
  rewrite Ha. exact H.
Qed.

Lemma total_approved_status dep_id status s dep :
  get_deposit_request dep_id s = Some dep → d_status dep = "pending_admin" →
  total_approved (set_deposit_status dep_id status s)
  = total_approved s + (if bool_decide (status = "approved") then d_amount dep else 0).
Proof.
  intros Hdep Hst. unfold total_approved, set_deposit_status.
  cbn [deposit_requests set_deposit_requests].
  rewrite (sum_of_alter _ _ _ dep_id dep Hdep). unfold approved_amount.
  cbn [d_status d_amount]. rewrite Hst, (bool_decide_eq_false_2 ("pending_admin" = _)) by done.
  lia.
Qed.

Lemma deposit_approve_ledger caller dep_id s :
  ledger_balanced s → ledger_balanced (fst (deposit_approve ADMIN_IDS caller dep_id s)).
Proof.
  intros Hl.
  destruct (deposit_approve_effect caller dep_id s)
    as [->|(dep & Hdep & Hst & Hs')]; [done|].
  cbv zeta in Hs'.
  set (s1 := set_deposit_status dep_id "approved" s) in *.
  set (s2 := fst (add_wallet_balance (d_user_id dep) (d_amount dep) s1)) in *.
  assert (H2 : ledger_balanced s2).
  { unfold ledger_balanced in *. subst s2. rewrite total_balance_credit.
    change (total_balance s1) with (total_balance s).
    change (total_spent (fst (add_wallet_balance _ _ s1))) with (total_spent s).
    change (total_commission (fst (add_wallet_balance _ _ s1))) with (total_commission s).
    change (total_approved (fst (add_wallet_balance _ _ s1))) with (total_approved s1).
    subst s1. rewrite (total_approved_status dep_id "approved" s dep Hdep Hst).
    rewrite bool_decide_eq_true_2 by done. lia. }
  destruct Hs' as [->|(r & p & _ & _ & ->)]; [done|].
  unfold ledger_balanced in *. rewrite total_commission_add.
  change (total_balance (add_ref_profit r p ?x)) with (total_balance x).
  rewrite total_balance_credit.
  change (total_spent (add_ref_profit r p (fst (add_wallet_balance r p s2))))
    with (total_spent s2).
  change (total_approved (add_ref_profit r p (fst (add_wallet_balance r p s2))))
    with (total_approved s2).
  change (total_commission (fst (add_wallet_balance r p s2))) with (total_commission s2).
  lia.
Qed.

Lemma deposit_reject_ledger caller dep_id s :
  ledger_balanced s → ledger_balanced (fst (deposit_reject ADMIN_IDS caller dep_id s)).
Proof.
  intros Hl.
  destruct (deposit_reject_effect caller dep_id s)
    as [->|(dep & Hdep & Hst & ->)]; [done|].
  unfold ledger_balanced in *.
  rewrite (total_approved_status dep_id "rejected" s dep Hdep Hst).
  rewrite bool_decide_eq_false_2 by done.
  change (total_balance (set_deposit_status _ _ s)) with (total_balance s).
  change (total_spent (set_deposit_status _ _ s)) with (total_spent s).
  change (total_commission (set_deposit_status _ _ s)) with (total_commission s).
  lia.
Qed.

Lemma try_deduct_wallet_total u a s :
  a ≤ get_wallet_balance u s →
  total_balance (fst (try_deduct_wallet u a s)) = total_balance s - a.
Proof.
  intros Hle. unfold try_deduct_wallet, get_wallet_balance in *.
  rewrite ensure_wallet_lookup.
  destruct (Z.ltb_spec (default 0 (wallets s !! u)) a) as [?|_]; [lia|].
  cbn [fst]. unfold total_balance. cbn [wallets set_wallets].
  rewrite sum_of_credit. lia.
Qed.

Lemma confirm_purchase_ledger now_utc u m s :
  ledger_balanced s → ledger_balanced (fst (confirm_purchase now_utc u m s)).
Proof.
  intros Hl.
  destruct (confirm_purchase_effect now_utc u m s)
    as [->|(price & Hplan & Hbal & Hs')]; [done|].
  cbv zeta in Hs'.
  set (s1 := fst (try_deduct_wallet u price s)) in *.
  set (s2 := fst (create_order u m price s1)) in *.
  set (id := snd (create_order u m price s1)) in *.
  assert (H1 : wallets s2 = wallets s1 ∧ deposit_requests s2 = deposit_requests s
               ∧ referral_profits s2 = referral_profits s
               ∧ total_spent s2 = total_spent s + price).
  { subst s2. unfold create_order. cbn [fst]. split; [done|].
    assert (Hf : deposit_requests s1 = deposit_requests s
                 ∧ referral_profits s1 = referral_profits s ∧ orders s1 = orders s).
    { subst s1. unfold try_deduct_wallet. by destruct (_ <? price). }
    destruct Hf as (Hd & Hp & Ho).
    split; [done|]. split; [done|]. unfold total_spent.
    cbn [orders set_orders]. rewrite total_spent_app, Ho. cbn. lia. }
  destruct H1 as (Hw2 & Hd2 & Hp2 & Hsp2).
  assert (H2 : ledger_balanced s2).
  { unfold ledger_balanced, total_balance, total_approved, total_commission in *.
    rewrite Hw2, Hd2, Hp2, Hsp2.
    pose proof (try_deduct_wallet_total u price s Hbal) as Ht.
    unfold total_balance in Ht. fold s1 in Ht. lia. }
  destruct Hs' as [->|(eu & Hs')]; [done|].
  set (s3 := set_subscription u eu s2) in *.
  pose proof (pop_money id u s3) as Hpop. cbv zeta in Hpop.
  destruct Hpop as (Hw & Hd & Hp & Hsp).
  assert (H4 : ledger_balanced (fst (pop_available_link_for_order id u s3))).
  { eapply ledger_balanced_ext; [exact Hw|exact Hd|exact Hp|exact Hsp|done]. }
  destruct (truthy _); rewrite Hs'; [|done].
  eapply ledger_balanced_ext; [..|exact H4]; try done.
  apply total_spent_delivered.
Qed.

Lemma step_store_ledger e s : ledger_balanced s → ledger_balanced (step_store ADMIN_IDS e s).
Proof.
  intros Hl. destruct e as [u un fn payload|u a r|c i|c i|now u m|c now o addm|c t|c i|c i t|c|now];
    cbn [step_store].
  - done.
  - destruct (topup_effect u a r s) as [->|(txt & fid & ->)]; [done|].
    by apply create_deposit_request_ledger.
  - by apply deposit_approve_ledger.
  - by apply deposit_reject_ledger.
  - by apply confirm_purchase_ledger.
  - destruct (subscriptions_only _ _ (admin_order_extend_effect c now o addm s))
      as (_ & Hw & Hp & Hd & Ho & _).
    eapply ledger_balanced_ext; [exact Hw|exact Hd|exact Hp| |done].
    unfold total_spent. by rewrite Ho.
  - destruct (admin_links_add_effect c t s) as [->|(lines & ->)]; [done|].
    destruct (add_links_money lines s) as (_ & Hw & Hd & Hp & Ho & _).
    eapply ledger_balanced_ext; [exact Hw|exact Hd|exact Hp| |done].
    unfold total_spent. by rewrite Ho.
  - destruct (admin_links_del_effect c i s) as [->| ->]; [done|].
    destruct (delete_link_money i s) as (_ & Hw & Hd & Hp & Ho & _).
    eapply ledger_balanced_ext; [exact Hw|exact Hd|exact Hp| |done].
    unfold total_spent. by rewrite Ho.
  - destruct (admin_links_edit_effect c i t s) as [->|(nl & ->)]; [done|].
    destruct (update_link_money i nl s) as (_ & Hw & Hd & Hp & Ho & _).
    eapply ledger_balanced_ext; [exact Hw|exact Hd|exact Hp| |done].
    unfold total_spent. by rewrite Ho.
  - destruct (admin_links_fulfill_effect c s) as [->| ->]; [done|].
    destruct (fulfill_loop_money (list_pending_orders 50 s) s 0) as (Hw & Hd & Hp & Hsp).
    by eapply ledger_balanced_ext.
  - destruct (subscriptions_only _ _ (subscription_watcher_effect now s))
      as (_ & Hw & Hp & Hd & Ho & _).
    eapply ledger_balanced_ext; [exact Hw|exact Hd|exact Hp| |done].
    unfold total_spent. by rewrite Ho.
Qed.

(** [start] touches the ledger only by adding empty rows. *)
Lemma start_tables u un fn payload d :
  ∃ usrs,
    tables (start u un fn payload d) = set_users usrs (upsert_user u un fn (tables d)).
Proof.
  unfold start. cbn [tables set_tables].
  set (s0 := upsert_user u un fn (tables d)).
  assert (Hsame : s0 = set_users (users s0) s0) by (by destruct s0).
  destruct payload as [p|]; [|by exists (users s0)].
  destruct (negb (p =? u)); [|by exists (users s0)].
  unfold set_referrer_if_empty. destruct (users s0 !! u) as [usr|]; [|by exists (users s0)].
  destruct (u_referrer_id usr); [by exists (users s0)|].
  eexists. unfold add_referral. cbn [set_tables tables referrals].
  destruct (decide _); reflexivity.
Qed.

Lemma upsert_user_ledger u un fn s :
  ledger_balanced s → ledger_balanced (upsert_user u un fn s).
Proof.
  intros H. unfold ledger_balanced in *.
  assert (Hb : total_balance (upsert_user u un fn s) = total_balance s)
    by apply sum_of_ensure_wallet.
  assert (Hc : total_commission (upsert_user u un fn s) = total_commission s).
  { unfold total_commission, upsert_user. cbn [referral_profits].
    destruct (referral_profits s !! u) eqn:Hp; [done|].
    by rewrite sum_of_insert_fresh. }
  rewrite Hb, Hc. exact H.
Qed.

Lemma step_ledger e d :
  ledger_balanced (tables d) → ledger_balanced (tables (step ADMIN_IDS e d)).
Proof.
  intros Hl.
  assert (Hother : ledger_balanced (step_store ADMIN_IDS e (tables d)))
    by (by apply step_store_ledger).
  destruct e; try exact Hother.
  cbn [step]. destruct (start_tables user_id username first_name payload d) as [usrs ->].
  by apply (upsert_user_ledger user_id username first_name) in Hl.
Qed.

Lemma run_ledger events : ∀ d,
  ledger_balanced (tables d) → ledger_balanced (tables (run ADMIN_IDS events d)).
Proof.
  induction events as [|e rest IH]; intros d Hl; [done|].
  cbn [run]. by apply IH, step_ledger.
Qed.

(** X14: whatever handlers run and in whatever order, as long as every
    balance, referral total, deposit amount and referrer the run stores is
    a 64-bit integer, the books stay balanced: the sum of all wallet
    balances plus the sum of all order amounts equals the sum of the
    approved deposits plus the sum of the referral totals. *)
Theorem ledger_stays_balanced (events : list event) (d : database) :
  ledger_balanced (tables d) →
  (∀ n, stores_int64 (tables (run ADMIN_IDS (take n events) d))) →
  let s := tables (run ADMIN_IDS events d) in
  total_balance s + total_spent s = total_approved s + total_commission s.
Proof. intros Hl _. by apply (run_ledger events d). Qed.

(** *** No negative amounts *)

Lemma balances_ok_ext s s' :
  wallets s' = wallets s → referral_profits s' = referral_profits s →
  deposit_requests s' = deposit_requests s →
  balances_ok s → balances_ok s'.
Proof. unfold balances_ok. by intros -> -> ->. Qed.

Lemma ensure_wallet_nonneg u w :
  (∀ v b, w !! v = Some b → 0 ≤ b) → ∀ v b, ensure_wallet u w !! v = Some b → 0 ≤ b.
Proof.
  intros Hw v b. unfold ensure_wallet. destruct (w !! u) eqn:Hu; [apply Hw|].
  destruct (decide (v = u)) as [->|Hne].
  - rewrite lookup_insert_eq. intros [= <-]. lia.
  - rewrite lookup_insert_ne by done. apply Hw.
Qed.

Lemma credit_nonneg u a w :
  0 ≤ a → (∀ v b, w !! v = Some b → 0 ≤ b) →
  ∀ v b, bump_wallet u a (ensure_wallet u w) !! v = Some b → 0 ≤ b.
Proof.
  intros Ha Hw v b. unfold bump_wallet. destruct (decide (v = u)) as [->|Hne].
  - rewrite lookup_alter_eq. destruct (ensure_wallet u w !! u) as [b0|] eqn:Hb; [|done].
    cbn. intros [= <-]. pose proof (ensure_wallet_nonneg u w Hw u b0 Hb). lia.
  - rewrite lookup_alter_ne by done. by apply ensure_wallet_nonneg.
Qed.

Lemma add_wallet_balance_ok u a s :
  0 ≤ a → balances_ok s → balances_ok (fst (add_wallet_balance u a s)).
Proof.
  intros Ha (Hw & Hp & Hd). split; [|done]. by apply credit_nonneg.
Qed.

Lemma add_ref_profit_ok r p s : 0 ≤ p → balances_ok s → balances_ok (add_ref_profit r p s).
Proof.
  intros Hp0 (Hw & Hp & Hd). split; [done|]. split; [|done].
  intros v t. unfold add_ref_profit. cbn [referral_profits set_referral_profits].
  destruct (referral_profits s !! r) as [t0|] eqn:Hr;
    (destruct (decide (v = r)) as [->|Hne];
     [rewrite lookup_insert_eq; intros [= <-]|rewrite lookup_insert_ne by done; apply Hp]).
  - pose proof (Hp r t0 Hr). lia.
  - lia.
Qed.

Lemma set_deposit_status_ok dep_id status s :
  status ≠ "pending_admin" →
  balances_ok s → balances_ok (set_deposit_status dep_id status s).
Proof.
  intros Hne (Hw & Hp & Hd). split; [done|]. split; [done|].
  intros i dep. unfold set_deposit_status. cbn [deposit_requests set_deposit_requests].
  destruct (decide (i = dep_id)) as [->|Hi].
  - rewrite lookup_alter_eq.
    destruct (deposit_requests s !! dep_id) as [d0|] eqn:Hd0; [|done].
    cbn. intros [= <-]. cbn [d_status d_amount]. done.
  - rewrite lookup_alter_ne by done. apply Hd.
Qed.

Lemma deposit_approve_ok caller dep_id s :
  balances_ok s → balances_ok (fst (deposit_approve ADMIN_IDS caller dep_id s)).
Proof.
  intros Hb.
  destruct (deposit_approve_effect caller dep_id s)
    as [->|(dep & Hdep & Hst & Hs')]; [done|].
  cbv zeta in Hs'.
  assert (Ha : 0 ≤ d_amount dep) by (destruct Hb as (_ & _ & Hd); by apply (Hd dep_id)).
  assert (H2 : balances_ok (fst (add_wallet_balance (d_user_id dep) (d_amount dep)
                                   (set_deposit_status dep_id "approved" s)))).
  { apply add_wallet_balance_ok; [done|]. by apply set_deposit_status_ok. }
  destruct Hs' as [->|(r & p & _ & Hp & ->)]; [done|].
  apply add_ref_profit_ok; [lia|]. apply add_wallet_balance_ok; [lia|done].
Qed.

Lemma deposit_reject_ok caller dep_id s :
  balances_ok s → balances_ok (fst (deposit_reject ADMIN_IDS caller dep_id s)).
Proof.
  intros Hb.
  destruct (deposit_reject_effect caller dep_id s) as [->|(dep & _ & _ & ->)]; [done|].
  by apply set_deposit_status_ok.
Qed.

Lemma create_deposit_request_ok u a txt fid s :
  0 ≤ a → balances_ok s → balances_ok (fst (create_deposit_request u a txt fid s)).
Proof.
  intros Ha (Hw & Hp & Hd). split; [done|]. split; [done|].
  intros i dep. unfold create_deposit_request. cbn [fst deposit_requests set_deposit_requests].
  set (id := next_rowid _ _). destruct (decide (i = id)) as [->|Hi].
  - rewrite lookup_insert_eq. by intros [= <-].
  - rewrite lookup_insert_ne by done. apply Hd.
Qed.

Lemma try_deduct_wallet_nonneg u a s :
  balances_ok s → balances_ok (fst (try_deduct_wallet u a s)).
Proof.
  intros (Hw & Hp & Hd). unfold try_deduct_wallet.
  destruct (Z.ltb_spec (default 0 (ensure_wallet u (wallets s) !! u)) a) as [?|Hle];
    [done|].
  split; [|done]. cbn [fst wallets set_wallets]. intros v b.
  unfold bump_wallet. destruct (decide (v = u)) as [->|Hne].
  - rewrite lookup_alter_eq.
    destruct (ensure_wallet u (wallets s) !! u) as [b0|] eqn:Hb; [|done].
    cbn in *. intros [= <-]. lia.
  - rewrite lookup_alter_ne by done. by apply ensure_wallet_nonneg.
Qed.

Lemma confirm_purchase_ok now_utc u m s :
  balances_ok s → balances_ok (fst (confirm_purchase now_utc u m s)).
Proof.
  intros Hb.
  destruct (confirm_purchase_effect now_utc u m s)
    as [->|(price & Hplan & Hbal & Hs')]; [done|].
  cbv zeta in Hs'.
  set (s1 := fst (try_deduct_wallet u price s)) in *.
  set (s2 := fst (create_order u m price s1)) in *.
  set (id := snd (create_order u m price s1)) in *.
  assert (H2 : balances_ok s2) by (by apply (try_deduct_wallet_nonneg u price) in Hb).
  destruct Hs' as [->|(eu & Hs')]; [done|].
  pose proof (pop_money id u (set_subscription u eu s2)) as Hpop. cbv zeta in Hpop.
  destruct Hpop as (Hw & Hd & Hp & _).
  assert (H4 : balances_ok (fst (pop_available_link_for_order id u
                                   (set_subscription u eu s2))))
    by (by eapply balances_ok_ext).
  destruct (truthy _); rewrite Hs'; [|done].
  by eapply balances_ok_ext; [..|exact H4].
Qed.

Lemma step_store_ok e s :
  amount_ok e → balances_ok s → balances_ok (step_store ADMIN_IDS e s).
Proof.
  intros He Hb.
  destruct e as [u un fn payload|u a r|c i|c i|now u m|c now o addm|c t|c i|c i t|c|now];
    cbn [step_store].
  - done.
  - destruct (topup_effect u a r s) as [->|(txt & fid & ->)]; [done|].
    by apply create_deposit_request_ok.
  - by apply deposit_approve_ok.
  - by apply deposit_reject_ok.
  - by apply confirm_purchase_ok.
  - destruct (subscriptions_only _ _ (admin_order_extend_effect c now o addm s))
      as (_ & Hw & Hp & Hd & _). by eapply balances_ok_ext.
  - destruct (admin_links_add_effect c t s) as [->|(lines & ->)]; [done|].
    destruct (add_links_money lines s) as (_ & Hw & Hd & Hp & _).
    by eapply balances_ok_ext.
  - destruct (admin_links_del_effect c i s) as [->| ->]; [done|].
    destruct (delete_link_money i s) as (_ & Hw & Hd & Hp & _).
    by eapply balances_ok_ext.
  - destruct (admin_links_edit_effect c i t s) as [->|(nl & ->)]; [done|].
    destruct (update_link_money i nl s) as (_ & Hw & Hd & Hp & _).
    by eapply balances_ok_ext.
  - destruct (admin_links_fulfill_effect c s) as [->| ->]; [done|].
    destruct (fulfill_loop_money (list_pending_orders 50 s) s 0) as (Hw & Hd & Hp & _).
    by eapply balances_ok_ext.
  - destruct (subscriptions_only _ _ (subscription_watcher_effect now s))
      as (_ & Hw & Hp & Hd & _). by eapply balances_ok_ext.
Qed.

Lemma upsert_user_ok u un fn s : balances_ok s → balances_ok (upsert_user u un fn s).
Proof.
  intros (Hw & Hp & Hd). split; [by apply ensure_wallet_nonneg|]. split; [|done].
  unfold upsert_user. cbn [referral_profits]. intros r p.
  destruct (referral_profits s !! u) eqn:Hu; [apply Hp|].
  destruct (decide (r = u)) as [->|Hne].
  - rewrite lookup_insert_eq. intros [= <-]. lia.
  - rewrite lookup_insert_ne by done. apply Hp.
Qed.

Lemma step_ok e d :
  amount_ok e → balances_ok (tables d) → balances_ok (tables (step ADMIN_IDS e d)).
Proof.
  intros He Hb.
  assert (Hother : balances_ok (step_store ADMIN_IDS e (tables d)))
    by (by apply step_store_ok).
  destruct e; try exact Hother.
  cbn [step]. destruct (start_tables user_id username first_name payload d) as [usrs ->].
  by apply (upsert_user_ok user_id username first_name) in Hb.
Qed.

Lemma run_ok events : ∀ d,
  Forall amount_ok events → balances_ok (tables d) →
  balances_ok (tables (run ADMIN_IDS events d)).
Proof.
  induction events as [|e rest IH]; intros d Hall Hb; [done|].
  apply Forall_cons in Hall as [He Hall]. cbn [run]. by apply IH, step_ok.
Qed.

(** X15: as long as no top-up files a negative amount, no sequence of
    handler calls drives a wallet or a referral total below zero: every
    balance [get_wallet_balance] reads, and every total
    [get_referral_profit] reads, is at least 0. *)
Theorem balances_never_negative (events : list event) (d : database) :
  Forall amount_ok events → balances_ok (tables d) →
  let s := tables (run ADMIN_IDS events d) in
  ∀ u, 0 ≤ get_wallet_balance u s ∧ 0 ≤ get_referral_profit u s.
Proof.
  intros Hall Hb s u. destruct (run_ok events d Hall Hb) as (Hw & Hp & _). fold s in Hw, Hp.
  unfold get_wallet_balance, get_referral_profit. split.
  - destruct (wallets s !! u) as [b|] eqn:E; cbn; [by apply (Hw u)|lia].
  - destruct (referral_profits s !! u) as [p|] eqn:E; cbn; [by apply (Hp u)|lia].
Qed.

End ledger_runs.
(** A new database, with every table empty, satisfies the invariants. *)
Lemma empty_database_ledger : ledger_balanced (tables empty_database).
Proof. vm_compute. reflexivity. Qed.

Lemma empty_database_balances : balances_ok (tables empty_database).
Proof. repeat split; intros ? ? H; done. Qed.

Lemma ledger_stays_balanced_witness :
  let admins : gset Z := {[1]} in
  let events :=
    [Start 7 None None (Some 3); TopUpReceipt 7 200000 (ReceiptText [97%N]);
     DepositApprove 1 1; ConfirmPurchase (mkdt 2024 3 1 12 0 0) 7 2] in
  let s := tables (run admins events empty_database) in
  ledger_balanced (tables empty_database)
  ∧ (∀ n, stores_int64 (tables (run admins (take n events) empty_database)))
  ∧ total_balance s + total_spent s = total_approved s + total_commission s.
Proof.
  intros admins events s.
  assert (Hr : ∀ n, stores_int64 (tables (run admins (take n events) empty_database))).
  { intros n.
    assert (Hn : (n < 4)%nat ∨ take n events = events).
    { destruct (decide (n < 4)%nat); [by left|right; apply take_ge; cbn; lia]. }
    destruct Hn as [Hn| ->];
      [destruct n as [|[|[|[|n]]]]; [..|lia]|];
      (split; [|split; [|split]]); by_decide. }
  split; [exact empty_database_ledger|]. split; [exact Hr|].
  exact (ledger_stays_balanced admins events empty_database empty_database_ledger Hr).
Defined.

Lemma balances_never_negative_witness :
  let admins : gset Z := {[1]} in
  let events :=
    [Start 7 None None (Some 3); TopUpReceipt 7 200000 (ReceiptText [97%N]);
     DepositApprove 1 1; ConfirmPurchase (mkdt 2024 3 1 12 0 0) 7 2;
     ConfirmPurchase (mkdt 2024 3 1 12 5 0) 7 2] in
  let s := tables (run admins events empty_database) in
  Forall amount_ok events ∧ balances_ok (tables empty_database)
  ∧ 0 ≤ get_wallet_balance 7 s ∧ 0 ≤ get_referral_profit 3 s.
Proof.
  intros admins events s.
  assert (Ha : Forall amount_ok events) by (repeat constructor; cbn; lia).
  split; [exact Ha|]. split; [exact empty_database_balances|].
  split.
  - exact (proj1 (balances_never_negative admins events empty_database
                    Ha empty_database_balances 7)).
  - exact (proj2 (balances_never_negative admins events empty_database
                    Ha empty_database_balances 3)).
Defined.

(** ** Referrals over whole runs *)

Section referral_runs.

Context (ADMIN_IDS : gset Z).

Lemma pop_users order_id user_id s :
  users (fst (pop_available_link_for_order order_id user_id s)) = users s.
Proof.
  unfold pop_available_link_for_order.
  by destruct (sql_limit 1 (order_by l_id (List.filter is_unused (links s)))).
Qed.

Lemma fulfill_loop_users pending : ∀ s sent,
  users (fst (fulfill_loop pending s sent)) = users s.
Proof.
  induction pending as [|o rest IH]; intros s sent; [done|]. cbn [fulfill_loop].
  pose proof (pop_users (o_id o) (o_user_id o) s) as Hpop.
  destruct (pop_available_link_for_order (o_id o) (o_user_id o) s) as [s1 link].
  cbn [fst] in Hpop. destruct (truthy link); [|done]. by rewrite IH.
Qed.

Lemma step_store_users e s : users (step_store ADMIN_IDS e s) = users s.
Proof.
  destruct e as [u un fn payload|u a r|c i|c i|now u m|c now o addm|c t|c i|c i t|c|now];
    cbn [step_store].
  - done.
  - by destruct (topup_effect u a r s) as [->|(txt & fid & ->)].
  - destruct (deposit_approve_effect ADMIN_IDS c i s) as [->|(dep & _ & _ & Hs')]; [done|].
    cbv zeta in Hs'. by destruct Hs' as [->|(r & p & _ & _ & ->)].
  - by destruct (deposit_reject_effect ADMIN_IDS c i s) as [->|(dep & _ & _ & ->)].
  - destruct (confirm_purchase_effect now u m s) as [->|(price & _ & _ & Hs')]; [done|].
    cbv zeta in Hs'.
    assert (H2 : users (fst (create_order u m price (fst (try_deduct_wallet u price s))))
                 = users s).
    { unfold try_deduct_wallet. by destruct (_ <? price). }
    destruct Hs' as [->|(eu & Hs')]; [done|].
    destruct (truthy _); rewrite Hs'; cbn [users set_order_delivered set_orders];
      by rewrite pop_users.
  - by destruct (subscriptions_only _ _ (admin_order_extend_effect ADMIN_IDS c now o addm s))
      as (? & _).
  - destruct (admin_links_add_effect ADMIN_IDS c t s) as [->|(lines & ->)]; [done|].
    by destruct (add_links_money lines s) as (? & _).
  - destruct (admin_links_del_effect ADMIN_IDS c i s) as [->| ->]; [done|].
    by destruct (delete_link_money i s) as (? & _).
  - destruct (admin_links_edit_effect ADMIN_IDS c i t s) as [->|(nl & ->)]; [done|].
    by destruct (update_link_money i nl s) as (? & _).
  - destruct (admin_links_fulfill_effect ADMIN_IDS c s) as [->| ->]; [done|].
    apply fulfill_loop_users.
  - by destruct (subscriptions_only _ _ (subscription_watcher_effect now s)) as (? & _).
Qed.

Lemma referrals_ok_ext d d' :
  users (tables d') = users (tables d) → referrals d' = referrals d →
  referrals_ok d → referrals_ok d'.
Proof. unfold referrals_ok. by intros -> ->. Qed.

Lemma upsert_user_referrals u un fn d :
  referrals_ok d → referrals_ok (set_tables (upsert_user u un fn (tables d)) d).
Proof.
  intros (Hnd & Hrows & Husers). split; [done|]. cbn [tables set_tables referrals].
  split.
  - intros row Hrow. destruct (Hrows row Hrow) as (Hne & usr & Hu & Hr).
    split; [done|]. destruct (decide (r_referred_id row = u)) as [Heq|Hneq].
    + rewrite Heq, upsert_user_lookup. eexists. split; [done|].
      rewrite Heq in Hu. by rewrite Hu.
    + rewrite upsert_user_other by done. by exists usr.
  - intros v usr r Hv Hr. destruct (decide (v = u)) as [->|Hneq].
    + rewrite upsert_user_lookup in Hv. injection Hv as <-. cbn [u_referrer_id] in Hr.
      destruct (users (tables d) !! u) as [usr0|] eqn:Hu0; [|done].
      by apply (Husers u usr0).
    + rewrite upsert_user_other in Hv by done. by apply (Husers v usr).
Qed.

Lemma start_referrals u un fn payload d :
  referrals_ok d → referrals_ok (start u un fn payload d).
Proof.
  intros Hok. apply (upsert_user_referrals u un fn) in Hok.
  unfold start. set (d0 := set_tables (upsert_user u un fn (tables d)) d) in *.
  destruct payload as [p|]; [|done].
  destruct (Z.eqb_spec p u) as [?|Hpu]; [exact Hok|]. cbn [negb].
  unfold set_referrer_if_empty.
  destruct (users (tables d0) !! u) as [usr|] eqn:Hu.
  2:{ eapply referrals_ok_ext; [..|exact Hok]; done. }
  destruct (u_referrer_id usr) eqn:Hr.
  { eapply referrals_ok_ext; [..|exact Hok]; done. }
  destruct Hok as (Hnd & Hrows & Husers).
  assert (Hfresh : u ∉ r_referred_id <$> referrals d0).
  { intros (row & Hid & Hrow)%list_elem_of_fmap.
    destruct (Hrows row Hrow) as (_ & usr' & Hu' & Hr'). rewrite <- Hid, Hu in Hu'.
    congruence. }
  unfold add_referral. cbn [referrals set_tables tables].
  rewrite decide_False by done. cbn [fst].
  split; [|split]; cbn [referrals tables users set_users].
  - rewrite fmap_app. apply NoDup_app. split; [done|]. split; [|apply NoDup_singleton].
    intros x Hx Hx'. apply list_elem_of_singleton in Hx'. cbn in Hx'. by subst x.
  - intros row [Hrow|Hrow]%elem_of_app.
    + destruct (Hrows row Hrow) as (Hne & usr' & Hu' & Hr'). split; [done|].
      assert (r_referred_id row ≠ u).
      { intros Heq. apply Hfresh. rewrite <- Heq. by apply list_elem_of_fmap_2. }
      rewrite lookup_insert_ne by done. by exists usr'.
    + apply list_elem_of_singleton in Hrow as ->. cbn [r_referrer_id r_referred_id].
      split; [done|]. rewrite lookup_insert_eq. by eexists.
  - intros v usr' r Hv Hr'. destruct (decide (v = u)) as [->|Hneq].
    + rewrite lookup_insert_eq in Hv. injection Hv as <-. cbn [u_referrer_id] in Hr'.
      injection Hr' as <-. split; [done|]. eexists.
      split; [apply elem_of_app; right; apply list_elem_of_singleton; reflexivity|done].
    + rewrite lookup_insert_ne in Hv by done.
      destruct (Husers v usr' r Hv Hr') as (Hne & row & Hrow & Hrid & Hrr).
      split; [done|]. exists row. split; [|done]. apply elem_of_app. by left.
Qed.

Lemma step_referrals e d : referrals_ok d → referrals_ok (step ADMIN_IDS e d).
Proof.
  intros Hok.
  assert (Hother : referrals_ok (set_tables (step_store ADMIN_IDS e (tables d)) d)).
  { eapply referrals_ok_ext; [..|exact Hok]; [|done]. apply step_store_users. }
  destruct e; try exact Hother. by apply start_referrals.
Qed.

Lemma run_referrals events : ∀ d,
  referrals_ok d → referrals_ok (run ADMIN_IDS events d).
Proof.
  induction events as [|e rest IH]; intros d Hok; [done|].
  cbn [run]. by apply IH, step_referrals.
Qed.

(** X16: across any sequence of handler calls the [referrals] table and
    the [referrer_id] column stay in step: nobody is referred twice or by
    themselves, every referral row names the referrer stored with the
    referred user, and every stored referrer has its row. *)
Theorem referrals_stay_consistent (events : list event) (d : database) :
  referrals_ok d →
  let d' := run ADMIN_IDS events d in
  NoDup (r_referred_id <$> referrals d')
  ∧ (∀ u r,
       (∃ usr, get_user u (tables d') = Some usr ∧ u_referrer_id usr = Some r)
       ↔ (∃ row, row ∈ referrals d' ∧ r_referred_id row = u ∧ r_referrer_id row = r))
  ∧ (∀ u usr, get_user u (tables d') = Some usr → u_referrer_id usr ≠ Some u).
Proof.
  intros Hok d'. destruct (run_referrals events d Hok) as (Hnd & Hrows & Husers).
  fold d' in Hnd, Hrows, Husers. split; [done|]. split.
  - intros u r. split.
    + intros (usr & Hu & Hr). by destruct (Husers u usr r Hu Hr) as [_ ?].
    + intros (row & Hrow & <- & <-). by destruct (Hrows row Hrow) as [_ ?].
  - intros u usr Hu Hr. by destruct (Husers u usr u Hu Hr) as [? _].
Qed.

End referral_runs.
Lemma empty_database_referrals : referrals_ok empty_database.
Proof.
  split; [constructor|]. split.
  - by intros row ?%elem_of_nil.
  - intros u usr r H. done.
Qed.

Lemma referrals_stay_consistent_witness :
  let admins : gset Z := {[1]} in
  let events :=
    [Start 3 None None None; Start 7 None None (Some 3); Start 7 None None (Some 4);
     Start 8 None None (Some 8)] in
  let d := run admins events empty_database in
  referrals_ok empty_database
  ∧ NoDup (r_referred_id <$> referrals d)
  ∧ ∀ u usr, get_user u (tables d) = Some usr → u_referrer_id usr ≠ Some u.
Proof.
  intros admins events d.
  split; [exact empty_database_referrals|].
  destruct (referrals_stay_consistent admins events empty_database empty_database_referrals)
    as (Hnd & _ & Hself).
  split; [exact Hnd|exact Hself].
Defined.

(** ** Tokens and orders over whole runs *)

Section pool_runs.

Context (ADMIN_IDS : gset Z).

Lemma pool_ok_ext s s' :
  links s' = links s → orders s' = orders s → pool_ok s → pool_ok s'.
Proof. unfold pool_ok, links_wf, links_nonempty. by intros -> ->. Qed.

Lemma delete_link_effect link_id s :
  fst (delete_link link_id s) = s
  ∨ (fst (delete_link link_id s)
     = set_links (List.filter (other_link link_id) (links s)) (links_seq s) s
     ∧ ∃ row, row ∈ links s ∧ l_id row = link_id ∧ l_is_used row = false).
Proof.
  unfold delete_link. destruct (find_link link_id s) as [row|] eqn:Hf; [|by left].
  destruct (l_is_used row) eqn:Hu; [by left|]. right. split; [done|].
  exists row. by destruct (find_link_Some _ _ _ Hf).
Qed.

Lemma update_link_effect link_id new_link s :
  fst (update_link link_id new_link s) = s
  ∨ (fst (update_link link_id new_link s)
     = set_links (set_link_text link_id (strip new_link) <$> links s) (links_seq s) s
     ∧ strip new_link ≠ []
     ∧ (strip new_link ∉ l_link <$> List.filter (other_link link_id) (links s))
     ∧ (∃ row, row ∈ links s ∧ l_id row = link_id ∧ l_is_used row = false)).
Proof.
  unfold update_link. destruct (decide (strip new_link = [])); [by left|].
  destruct (find_link link_id s) as [row|] eqn:Hf; [|by left].
  destruct (l_is_used row) eqn:Hu; [by left|].
  destruct (decide _); [by left|]. right. repeat (split; [done|]).
  exists row. by destruct (find_link_Some _ _ _ Hf).
Qed.

Lemma delete_link_pool link_id s : pool_ok s → pool_ok (fst (delete_link link_id s)).
Proof.
  intros Hok. destruct (delete_link_effect link_id s) as [->|[-> (row & Hrow & Hid & Hun)]];
    [done|].
  destruct Hok as ((Hids & Hvals) & Hne & Hoids & HA & HU & HB).
  assert (Hstay : ∀ r, r ∈ links s → l_is_used r = true →
            r ∈ List.filter (other_link link_id) (links s)).
  { intros r Hr Hru. apply elem_of_bool_filter. split; [done|].
    apply other_link_true. intros Hrid.
    assert (r = row) as -> by (apply (NoDup_fmap_eq l_id (links s)); congruence).
    congruence. }
  unfold pool_ok, links_wf, links_nonempty. cbn [links orders set_links].
  split; [|split; [|split; [|split; [|split]]]].
  - split; by apply NoDup_fmap_filter.
  - by apply Forall_bool_filter.
  - done.
  - intros r [Hr _]%elem_of_bool_filter Hru. by apply HA.
  - intros r [Hr _]%elem_of_bool_filter Hru. by apply HU.
  - intros o Ho. specialize (HB o Ho). destruct (o_delivered_link o); [|done].
    destruct HB as (Hst & r & Hr & Hru & Hl & Ho'). split; [done|].
    exists r. split; [by apply Hstay|done].
Qed.

Lemma update_link_pool link_id new_link s :
  pool_ok s → pool_ok (fst (update_link link_id new_link s)).
Proof.
  intros Hok.
  destruct (update_link_effect link_id new_link s)
    as [->|(-> & Hnz & Hfresh & row & Hrow & Hid & Hun)]; [done|].
  destruct Hok as ((Hids & Hvals) & Hne & Hoids & HA & HU & HB).
  assert (Hused : ∀ r, r ∈ links s → l_is_used r = true →
            set_link_text link_id (strip new_link) r = r).
  { intros r Hr Hru. unfold set_link_text. rewrite decide_False; [done|]. intros Hrid.
    assert (r = row) as -> by (apply (NoDup_fmap_eq l_id (links s)); congruence).
    congruence. }
  unfold pool_ok, links_wf, links_nonempty. cbn [links orders set_links].
  split; [|split; [|split; [|split; [|split]]]].
  - split; [by rewrite set_link_text_ids|by apply set_link_text_values].
  - rewrite Forall_fmap.
    eapply Forall_impl; [exact Hne|]. intros r Hr. cbn. unfold set_link_text.
    by destruct (decide _).
  - done.
  - intros r' (r & -> & Hr)%list_elem_of_fmap. rewrite set_link_text_used. intros Hru.
    rewrite (Hused r Hr Hru). by apply HA.
  - intros r' (r & -> & Hr)%list_elem_of_fmap. rewrite set_link_text_used. intros Hru.
    unfold set_link_text. destruct (decide _); cbn; by apply HU.
  - intros o Ho. specialize (HB o Ho). destruct (o_delivered_link o); [|done].
    destruct HB as (Hst & r & Hr & Hru & Hl & Ho'). split; [done|].
    exists r. split; [|done]. apply list_elem_of_fmap. exists r.
    by rewrite (Hused r Hr Hru).
Qed.

Lemma add_links_pool lns s : pool_ok s → pool_ok (fst (add_links lns s)).
Proof.
  intros Hok. destruct lns as [|ln rest]; [done|].
  change (add_links (ln :: rest) s) with (add_links_loop (ln :: rest) s 0).
  destruct (add_links_loop_spec (ln :: rest) s 0) as (rows & Hl & _ & Hun & _).
  destruct (add_links_loop_money (ln :: rest) s 0) as (_ & _ & _ & _ & Ho & _).
  destruct Hok as (Hwf & Hne & Hoids & HA & HU & HB).
  destruct (add_links_loop_wf (ln :: rest) s 0 Hwf Hne) as [Hwf' Hne'].
  rewrite Forall_forall in Hun.
  split; [done|]. split; [done|]. rewrite Ho, Hl. split; [done|]. split; [|split].
  - intros r [Hr|Hr]%elem_of_app Hru; [by apply HA|].
    destruct (Hun r Hr) as (Hf & _). congruence.
  - intros r [Hr|Hr]%elem_of_app Hru; [by apply HU|]. by destruct (Hun r Hr) as (_ & ? & ?).
  - intros o Ho'. specialize (HB o Ho'). destruct (o_delivered_link o); [|done].
    destruct HB as (Hst & r & Hr & Hrest). split; [done|].
    exists r. split; [|done]. apply elem_of_app. by left.
Qed.

Lemma create_order_pool u m a s :
  pool_ok s →
  let s' := fst (create_order u m a s) in
  let id := snd (create_order u m a s) in
  pool_ok s'
  ∧ mk_order id u m a "paid_waiting_link" None ∈ orders s'
  ∧ links s' = links s.
Proof.
  intros (Hwf & Hne & Hoids & HA & HU & HB). unfold create_order. cbn [fst snd].
  set (id := next_rowid _ _). split; [|split; [|done]].
  2:{ cbn [orders set_orders]. apply elem_of_app. right. apply list_elem_of_here. }
  split; [done|]. split; [done|]. cbn [orders links set_orders].
  split; [|split; [|split; [done|]]].
  - rewrite fmap_app. apply NoDup_app. split; [done|]. split; [|apply NoDup_singleton].
    intros x Hx Hx'. apply list_elem_of_singleton in Hx'. cbn in Hx'. subst x.
    by apply next_rowid_fresh in Hx.
  - intros r Hr Hru. destruct (HA r Hr Hru) as (o & Ho & Hrest).
    exists o. split; [|done]. apply elem_of_app. by left.
  - intros o [Ho|Ho]%elem_of_app; [by apply HB|].
    by apply list_elem_of_singleton in Ho as ->.
Qed.

Lemma deliver_row_twice order_id link o :
  deliver_row order_id link (deliver_row order_id link o) = deliver_row order_id link o.
Proof.
  unfold deliver_row. destruct (decide (o_id o = order_id)) as [Hid|Hid]; cbn [o_id].
  - by rewrite decide_True.
  - by rewrite decide_False.
Qed.

(** Allocating to an order that waits for its token. *)
Lemma pop_pool order_id user_id s o :
  pool_ok s → o ∈ orders s → o_id o = order_id → o_user_id o = user_id →
  o_delivered_link o = None →
  let s' := fst (pop_available_link_for_order order_id user_id s) in
  pool_ok s'
  ∧ match snd (pop_available_link_for_order order_id user_id s) with
    | None => s' = s
    | Some link =>
        link ≠ [] ∧ set_order_delivered order_id link s' = s'
        ∧ orders s' = deliver_row order_id link <$> orders s
    end.
Proof.
  intros Hok Ho Hoid Houid Hnone s'. subst s'.
  destruct Hok as (Hwf & Hne & Hoids & HA & HU & HB).
  pose proof (pop_preserves_wf order_id user_id s Hwf) as Hwf'.
  pose proof (pop_keeps_nonempty order_id user_id s Hne) as Hne'.
  destruct (pop_cases order_id user_id s Hwf)
    as [[_ Hpop]|(row & s1 & Hrow & Hun & _ & Hpop & Hl1 & Ho1)];
    rewrite Hpop in *; cbn [fst snd] in *.
  { done. }
  assert (Hlink : l_link row ≠ []).
  { unfold links_nonempty in Hne. rewrite Forall_forall in Hne. by apply Hne. }
  assert (Hother : ∀ o', o' ∈ orders s → o_delivered_link o' ≠ None →
            deliver_row order_id (l_link row) o' = o').
  { intros o' Ho' Hd. apply deliver_row_other. intros Hid.
    assert (o' = o) as -> by (apply (NoDup_fmap_eq o_id (orders s)); congruence).
    congruence. }
  split.
  2:{ split; [done|]. split; [|done]. unfold set_order_delivered. rewrite Ho1.
      rewrite <- list_fmap_compose.
      assert (Hsame : (deliver_row order_id (l_link row) ∘ deliver_row order_id (l_link row))
                        <$> orders s
                      = deliver_row order_id (l_link row) <$> orders s).
      { apply Forall_fmap_ext_1, Forall_forall. intros x _. apply deliver_row_twice. }
      rewrite Hsame, <- Ho1. by destruct s1. }
  split; [done|]. split; [done|]. rewrite Hl1, Ho1.
  split; [|split; [|split]].
  - rewrite <- list_fmap_compose.
    assert (Hids : o_id ∘ deliver_row order_id (l_link row) <$> orders s = o_id <$> orders s).
    { apply Forall_fmap_ext_1, Forall_forall. intros x _. apply deliver_row_id. }
    by rewrite Hids.
  - intros r' (r & -> & Hr)%list_elem_of_fmap Hru.
    destruct (decide (r = row)) as [->|Hnr].
    + exists (deliver_row order_id (l_link row) o). split; [by apply list_elem_of_fmap_2|].
      unfold deliver_row, taken. rewrite decide_True by done.
      cbn [o_id o_user_id o_status o_delivered_link l_used_by_order_id l_used_by_user_id
           l_link].
      by rewrite Hoid, Houid.
    + destruct (HA r Hr Hru) as (o' & Ho' & Hro & Hru' & Hst & Hdl).
      exists o'. split; [|done]. apply list_elem_of_fmap. exists o'. split; [|done].
      symmetry. apply Hother; [done|congruence].
  - intros r' (r & -> & Hr)%list_elem_of_fmap Hru.
    destruct (decide (r = row)) as [->|Hnr]; [done|]. by apply HU.
  - intros o' (o0 & -> & Ho0)%list_elem_of_fmap.
    destruct (decide (o_id o0 = order_id)) as [Hid|Hid].
    + destruct (deliver_row_sets order_id (l_link row) o0 Hid) as [Hs Hd].
      rewrite Hd. split; [exact Hs|]. exists (taken order_id user_id row).
      split; [|by rewrite deliver_row_id, Hid].
      apply list_elem_of_fmap. exists row. by rewrite decide_True.
    + rewrite deliver_row_other by done. specialize (HB o0 Ho0).
      destruct (o_delivered_link o0); [|done].
      destruct HB as (Hst & r & Hr & Hru & Hl & Hro). split; [done|].
      exists r. split; [|done]. by apply used_row_stays.
Qed.

Lemma fulfill_loop_pool pending : ∀ s sent,
  pool_ok s → NoDup (o_id <$> pending) →
  (∀ o, o ∈ pending → o ∈ orders s ∧ o_delivered_link o = None) →
  pool_ok (fst (fulfill_loop pending s sent)).
Proof.
  induction pending as [|o rest IH]; intros s sent Hok Hnd Hin; [done|].
  cbn [fulfill_loop]. rewrite fmap_cons in Hnd. apply NoDup_cons in Hnd as [Hno Hnd].
  destruct (Hin o (list_elem_of_here _ _)) as [Ho Hnone].
  pose proof (pop_pool (o_id o) (o_user_id o) s o Hok Ho eq_refl eq_refl Hnone) as Hpop.
  cbv zeta in Hpop.
  destruct (pop_available_link_for_order (o_id o) (o_user_id o) s) as [s1 link].
  cbn [fst snd] in Hpop. destruct Hpop as [Hok1 Hres].
  destruct link as [link|]; [|done].
  destruct Hres as (Hne & Hsame & Ho1).
  destruct link as [|c link]; [done|]. cbn [truthy].
  change (default [] (Some (c :: link))) with (c :: link). rewrite Hsame.
  apply IH; [done|done|].
  intros o' Ho'. destruct (Hin o' (list_elem_of_further _ _ _ Ho')) as [Hos Hn'].
  split; [|done]. rewrite Ho1. apply list_elem_of_fmap. exists o'. split; [|done].
  symmetry. apply deliver_row_other. intros Heq. apply Hno. rewrite <- Heq.
  by apply list_elem_of_fmap_2.
Qed.

Lemma list_pending_orders_waiting limit s :
  pool_ok s →
  NoDup (o_id <$> list_pending_orders limit s)
  ∧ ∀ o, o ∈ list_pending_orders limit s → o ∈ orders s ∧ o_delivered_link o = None.
Proof.
  intros (_ & _ & Hoids & _ & _ & HB).
  assert (Hsub : list_pending_orders limit s
                 `sublist_of` order_by o_id (List.filter is_pending (orders s))).
  { unfold list_pending_orders, sql_limit. destruct (limit <? 0); [done|apply sublist_take]. }
  split.
  - eapply sublist_NoDup; [|apply fmap_sublist, Hsub].
    rewrite (order_by_perm o_id (List.filter is_pending (orders s))).
    by apply NoDup_fmap_filter.
  - intros o Ho. apply (elem_of_sublist _ _ _ Ho) in Hsub as Ho'. clear Ho.
    rename Ho' into Ho.
    rewrite (order_by_perm o_id (List.filter is_pending (orders s))) in Ho.
    apply elem_of_bool_filter in Ho as [Ho Hp]. split; [done|].
    apply bool_decide_eq_true in Hp. specialize (HB o Ho).
    destruct (o_delivered_link o); [|done]. destruct HB as [Hst _]. congruence.
Qed.

Lemma confirm_purchase_pool now_utc u m s :
  pool_ok s → pool_ok (fst (confirm_purchase now_utc u m s)).
Proof.
  intros Hok.
  destruct (confirm_purchase_effect now_utc u m s)
    as [->|(price & _ & _ & Hs')]; [done|].
  cbv zeta in Hs'.
  set (s1 := fst (try_deduct_wallet u price s)) in *.
  assert (Hok1 : pool_ok s1).
  { destruct (try_deduct_wallet_frame u price s) as (_ & Ho & Hl).
    by eapply pool_ok_ext. }
  destruct (create_order_pool u m price s1 Hok1) as (Hok2 & Hnew & _).
  set (s2 := fst (create_order u m price s1)) in *.
  set (id := snd (create_order u m price s1)) in *.
  destruct Hs' as [->|(eu & Hs')]; [done|].
  set (s3 := set_subscription u eu s2) in *.
  assert (Hok3 : pool_ok s3) by (by eapply pool_ok_ext; [..|exact Hok2]).
  pose proof (pop_pool id u s3 _ Hok3 Hnew eq_refl eq_refl eq_refl) as Hpop.
  cbv zeta in Hpop. destruct Hpop as [Hok4 Hres].
  destruct (snd (pop_available_link_for_order id u s3)) as [link|];
    cbn [truthy] in Hs'; [|by rewrite Hs'].
  destruct Hres as (Hne & Hsame & _). destruct link as [|c link]; [done|].
  change (default [] (Some (c :: link))) with (c :: link) in Hs'. by rewrite Hs', Hsame.
Qed.

Lemma step_store_pool e s : pool_ok s → pool_ok (step_store ADMIN_IDS e s).
Proof.
  intros Hok.
  destruct e as [u un fn payload|u a r|c i|c i|now u m|c now o addm|c t|c i|c i t|c|now];
    cbn [step_store].
  - done.
  - destruct (topup_effect u a r s) as [->|(txt & fid & ->)]; [done|].
    by eapply pool_ok_ext; [..|exact Hok].
  - destruct (deposit_approve_effect ADMIN_IDS c i s) as [->|(dep & _ & _ & Hs')]; [done|].
    cbv zeta in Hs'.
    destruct Hs' as [->|(r & p & _ & _ & ->)]; by eapply pool_ok_ext; [..|exact Hok].
  - destruct (deposit_reject_effect ADMIN_IDS c i s) as [->|(dep & _ & _ & ->)]; [done|].
    by eapply pool_ok_ext; [..|exact Hok].
  - by apply confirm_purchase_pool.
  - destruct (subscriptions_only _ _ (admin_order_extend_effect ADMIN_IDS c now o addm s))
      as (_ & _ & _ & _ & Ho & Hl). by eapply pool_ok_ext.
  - destruct (admin_links_add_effect ADMIN_IDS c t s) as [->|(lines & ->)]; [done|].
    by apply add_links_pool.
  - destruct (admin_links_del_effect ADMIN_IDS c i s) as [->| ->]; [done|].
    by apply delete_link_pool.
  - destruct (admin_links_edit_effect ADMIN_IDS c i t s) as [->|(nl & ->)]; [done|].
    by apply update_link_pool.
  - destruct (admin_links_fulfill_effect ADMIN_IDS c s) as [->| ->]; [done|].
    destruct (list_pending_orders_waiting 50 s Hok) as [Hnd Hin].
    by apply fulfill_loop_pool.
  - destruct (subscriptions_only _ _ (subscription_watcher_effect now s))
      as (_ & _ & _ & _ & Ho & Hl). by eapply pool_ok_ext.
Qed.

Lemma step_pool e d : pool_ok (tables d) → pool_ok (tables (step ADMIN_IDS e d)).
Proof.
  intros Hok.
  assert (Hother : pool_ok (step_store ADMIN_IDS e (tables d)))
    by (by apply step_store_pool).
  destruct e; try exact Hother.
  cbn [step]. destruct (start_tables user_id username first_name payload d) as [usrs ->].
  by eapply pool_ok_ext; [..|exact Hok].
Qed.

Lemma run_pool events : ∀ d,
  pool_ok (tables d) → pool_ok (tables (run ADMIN_IDS events d)).
Proof.
  induction events as [|e rest IH]; intros d Hok; [done|].
  cbn [run]. by apply IH, step_pool.
Qed.

(** X17: across any sequence of handler calls tokens and orders stay
    matched one to one.  Every order that holds a token is delivered, and
    its token is a stored link marked used by that order and that order's
    user; every order without a token is waiting.  No token is held by two
    orders, no order is named by two used links, and every used link is
    held by the order it names. *)
Theorem tokens_match_orders (events : list event) (d : database) :
  pool_ok (tables d) →
  let s := tables (run ADMIN_IDS events d) in
  (∀ o, o ∈ orders s →
     match o_delivered_link o with
     | None => o_status o = "paid_waiting_link"
     | Some t =>
         o_status o = "delivered"
         ∧ ∃ r, r ∈ links s ∧ l_link r = t ∧ l_is_used r = true
                ∧ l_used_by_order_id r = Some (o_id o)
                ∧ l_used_by_user_id r = Some (o_user_id o)
     end)
  ∧ (∀ o1 o2 t, o1 ∈ orders s → o2 ∈ orders s →
       o_delivered_link o1 = Some t → o_delivered_link o2 = Some t → o1 = o2)
  ∧ (∀ r1 r2 i, r1 ∈ links s → r2 ∈ links s →
       l_used_by_order_id r1 = Some i → l_used_by_order_id r2 = Some i → r1 = r2)
  ∧ (∀ r, r ∈ links s → l_is_used r = true →
       ∃ o, o ∈ orders s ∧ l_used_by_order_id r = Some (o_id o)
            ∧ o_delivered_link o = Some (l_link r)).
Proof.
  intros Hok s. pose proof (run_pool events d Hok) as Hs. fold s in Hs.
  destruct Hs as ((Hids & Hvals) & Hne & Hoids & HA & HU & HB).
  assert (Hused : ∀ r i, r ∈ links s → l_used_by_order_id r = Some i → l_is_used r = true).
  { intros r i Hr Hi. destruct (l_is_used r) eqn:Hu; [done|].
    destruct (HU r Hr Hu) as [Hn _]. congruence. }
  split; [|split; [|split]].
  - intros o Ho. specialize (HB o Ho). destruct (o_delivered_link o) as [t|] eqn:Hd; [|done].
    destruct HB as (Hst & r & Hr & Hru & Hl & Hro). split; [done|].
    exists r. repeat (split; [done|]).
    destruct (HA r Hr Hru) as (o' & Ho' & Hro' & Hruser & _).
    assert (o' = o) as -> by (apply (NoDup_fmap_eq o_id (orders s)); congruence).
    done.
  - intros o1 o2 t Ho1 Ho2 Hd1 Hd2.
    pose proof (HB o1 Ho1) as H1. pose proof (HB o2 Ho2) as H2. rewrite Hd1 in H1.
    rewrite Hd2 in H2. destruct H1 as (_ & r1 & Hr1 & _ & Hl1 & Hro1).
    destruct H2 as (_ & r2 & Hr2 & _ & Hl2 & Hro2).
    assert (r1 = r2) as -> by (apply (NoDup_fmap_eq l_link (links s)); congruence).
    apply (NoDup_fmap_eq o_id (orders s)); [done|done|done|congruence].
  - intros r1 r2 i Hr1 Hr2 Hi1 Hi2.
    destruct (HA r1 Hr1 (Hused r1 i Hr1 Hi1)) as (o1 & Ho1 & Hro1 & _ & _ & Hd1).
    destruct (HA r2 Hr2 (Hused r2 i Hr2 Hi2)) as (o2 & Ho2 & Hro2 & _ & _ & Hd2).
    assert (o1 = o2) as -> by (apply (NoDup_fmap_eq o_id (orders s)); congruence).
    apply (NoDup_fmap_eq l_link (links s)); [done|done|done|congruence].
  - intros r Hr Hru. destruct (HA r Hr Hru) as (o & Ho & Hro & _ & _ & Hd). by exists o.
Qed.

End pool_runs.
Lemma empty_database_pool : pool_ok (tables empty_database).
Proof.
  split; [split; constructor|]. split; [constructor|]. split; [constructor|].
  split; [by intros r ?%elem_of_nil|]. split; [by intros r ?%elem_of_nil|].
  by intros o ?%elem_of_nil.
Qed.

Lemma place_orders_pool n : ∀ s, pool_ok s → pool_ok (place_orders n s).
Proof.
  induction n as [|n IH]; intros s Hok; [done|]. cbn [place_orders].
  apply IH. by destruct (create_order_pool 7 2 150000 s Hok) as [? _].
Qed.

Lemma backlog_pool n : pool_ok (backlog n).
Proof. apply place_orders_pool, add_links_pool, empty_database_pool. Qed.

Lemma tokens_match_orders_witness :
  let admins : gset Z := {[1]} in
  let events :=
    [TopUpReceipt 7 400000 (ReceiptText [97%N]); DepositApprove 1 1;
     ConfirmPurchase (mkdt 2024 3 1 12 0 0) 7 2;
     LinksAdd 1 (Some [97; 10; 98]%N); LinksFulfill 1;
     ConfirmPurchase (mkdt 2024 3 1 12 5 0) 7 2] in
  let s := tables (run admins events empty_database) in
  pool_ok (tables empty_database)
  ∧ ∀ o1 o2 t, o1 ∈ orders s → o2 ∈ orders s →
      o_delivered_link o1 = Some t → o_delivered_link o2 = Some t → o1 = o2.
Proof.
  intros admins events s.
  split; [exact empty_database_pool|].
  exact (proj1 (proj2 (tokens_match_orders admins events empty_database
                         empty_database_pool))).
Defined.

(** ** Delivery *)

Section delivery.

Context (ADMIN_IDS : gset Z).

#[local] Existing Instance key_le_total.
#[local] Existing Instance key_le_trans.

(** The allocator takes the head of [ORDER BY id ASC]. *)
Lemma pop_head order_id user_id s :
  links_wf s →
  match order_by l_id (List.filter is_unused (links s)) with
  | [] => pop_available_link_for_order order_id user_id s = (s, None)
  | row :: _ =>
      row ∈ links s ∧ l_is_used row = false
      ∧ pop_available_link_for_order order_id user_id s
        = (set_orders (deliver_row order_id (l_link row) <$> orders s) (orders_seq s)
             (set_links ((λ r, if decide (r = row) then taken order_id user_id row else r)
                           <$> links s) (links_seq s) s),
           Some (l_link row))
  end.
Proof.
  intros [Hids _]. unfold pop_available_link_for_order.
  pose proof (order_by_head l_id (List.filter is_unused (links s))) as Hh.
  destruct (order_by l_id (List.filter is_unused (links s))) as [|row t]; [done|].
  destruct Hh as [Hin _]. apply elem_of_bool_filter in Hin as [Hin Hun].
  apply negb_true_iff in Hun. split; [done|]. split; [done|].
  change (sql_limit 1 (row :: t)) with [row]. cbv beta iota zeta.
  cbn [links set_links orders set_orders orders_seq links_seq].
  by rewrite (use_row_exact order_id user_id row (links s) Hids Hin).
Qed.

(** X18: a purchase that can pay and whose dates are defined appends one
    order, with an id no order had, for the plan at its price, and leaves
    the orders before it as they were.  If an unused token exists, the new
    order is delivered with the unused token of the smallest id, that link
    is marked used by the order and the user, no other link changes, and
    the answer is "delivered"; otherwise the order is left waiting, no link
    changes and the answer is "queued". *)
Theorem purchase_delivers_oldest_token
    (now_utc : datetime) (u m price : Z) (s : store)
    (base_iran new_exp_iran new_exp_utc : datetime) :
  links_wf s → links_nonempty s →
  PLANS !! m = Some price →
  price ≤ get_wallet_balance u s →
  to_iran (renewal_base now_utc (get_subscription u s)) = Some base_iran →
  add_months_shamsi base_iran m = Some new_exp_iran →
  from_iran new_exp_iran = Some new_exp_utc →
  let s' := fst (confirm_purchase now_utc u m s) in
  let id := next_rowid (orders_seq s) (o_id <$> orders s) in
  let nb := get_wallet_balance u s - price in
  (id ∉ o_id <$> orders s)
  ∧ match order_by l_id (List.filter is_unused (links s)) with
    | [] =>
        snd (confirm_purchase now_utc u m s) = PurchaseQueued nb new_exp_iran
        ∧ orders s' = orders s ++ [mk_order id u m price "paid_waiting_link" None]
        ∧ links s' = links s
    | row :: _ =>
        row ∈ links s ∧ l_is_used row = false
        ∧ (∀ r, r ∈ links s → l_is_used r = false → l_id row ≤ l_id r)
        ∧ snd (confirm_purchase now_utc u m s) = PurchaseDelivered nb new_exp_iran
        ∧ orders s'
          = orders s ++ [mk_order id u m price "delivered" (Some (l_link row))]
        ∧ links s' = (λ r, if decide (r = row) then taken id u row else r) <$> links s
    end.
Proof.
  intros Hwf Hne Hplan Hbal Hto Hadd Hfrom s' id nb.
  assert (Hfresh : id ∉ o_id <$> orders s) by apply next_rowid_fresh.
  split; [exact Hfresh|].
  subst s'. unfold confirm_purchase. rewrite Hplan.
  destruct (Z.ltb_spec (get_wallet_balance u s) price) as [?|_]; [lia|].
  destruct (try_deduct_wallet_frame u price s) as (Hsub1 & Ho1 & Hl1).
  assert (Hseq1 : orders_seq (fst (try_deduct_wallet u price s)) = orders_seq s).
  { unfold try_deduct_wallet. by destruct (_ <? price). }
  destruct (try_deduct_wallet_ok u price s Hbal) as (s1 & Hded & _ & _).
  rewrite Hded in *. cbn [fst snd negb] in *.
  unfold create_order. rewrite Ho1, Hseq1. fold id.
  set (s2 := set_orders _ id s1).
  assert (Hbase : get_subscription u s2 = get_subscription u s).
  { unfold get_subscription. subst s2. cbn [subscriptions set_orders]. by rewrite Hsub1. }
  rewrite Hbase, Hto. cbn [mbind option_bind]. rewrite Hadd. cbn [mbind option_bind].
  rewrite Hfrom. cbn [mbind option_bind].
  set (s3 := set_subscription u new_exp_utc s2).
  assert (Hl3 : links s3 = links s) by done.
  assert (Ho3 : orders s3 = orders s ++ [mk_order id u m price "paid_waiting_link" None])
    by done.
  assert (Hwf3 : links_wf s3) by (unfold links_wf; by rewrite Hl3).
  pose proof (pop_head id u s3 Hwf3) as Hpop. rewrite Hl3 in Hpop.
  pose proof (order_by_head l_id (List.filter is_unused (links s))) as Hh.
  destruct (order_by l_id (List.filter is_unused (links s))) as [|row t].
  { rewrite Hpop. cbn [truthy fst snd]. done. }
  destruct Hpop as (Hrow & Hun & Hpop). rewrite Hpop.
  assert (Hlink : l_link row ≠ []).
  { unfold links_nonempty in Hne. rewrite Forall_forall in Hne. by apply Hne. }
  destruct (l_link row) as [|c link] eqn:Hlr; [done|]. cbn [truthy snd fst].
  change (default [] (Some (c :: link))) with (c :: link).
  split; [done|]. split; [done|]. split.
  { destruct Hh as [_ Hmin]. intros r Hr Hru. apply Hmin. apply elem_of_bool_filter.
    split; [done|]. unfold is_unused. by rewrite Hru. }
  split; [done|]. cbn [orders links set_order_delivered set_orders set_links].
  split; [|reflexivity].
  rewrite <- list_fmap_compose, Ho3, fmap_app. f_equal.
  - rewrite <- (list_fmap_id (orders s)) at 2.
    apply Forall_fmap_ext_1, Forall_forall. intros o Ho. cbv [compose].
    assert (o_id o ≠ id).
    { intros Heq. apply Hfresh. rewrite <- Heq. by apply list_elem_of_fmap_2. }
    rewrite (deliver_row_other id _ o) by done. by rewrite deliver_row_other.
  - cbv [compose]. rewrite !fmap_cons, fmap_nil.
    assert (Hd : ∀ o, o_id o = id →
              deliver_row id (c :: link) o
              = mk_order (o_id o) (o_user_id o) (o_plan_months o) (o_amount o)
                         "delivered" (Some (c :: link)))
      by (intros o Ho; unfold deliver_row; by rewrite decide_True).
    rewrite (Hd (mk_order id u m price "paid_waiting_link" None)) by done.
    cbn [o_id o_user_id o_plan_months o_amount]. by rewrite Hd.
Qed.

(** Once the head of the unused links is taken, the rest is what
    [ORDER BY id ASC] yields next. *)
Lemma avail_after_take order_id user_id s row t :
  links_wf s →
  order_by l_id (List.filter is_unused (links s)) = row :: t →
  order_by l_id
    (List.filter is_unused
       ((λ r, if decide (r = row) then taken order_id user_id row else r) <$> links s))
  = t.
Proof.
  intros [Hids Hvals] Hav.
  set (links' := (λ r, if decide (r = row) then taken order_id user_id row else r)
                   <$> links s).
  pose proof (order_by_perm l_id (List.filter is_unused (links s))) as Hperm.
  pose proof (order_by_sorted l_id (List.filter is_unused (links s))) as Hsorted.
  rewrite Hav in Hperm, Hsorted.
  assert (Hnd : NoDup (links s)) by (by apply NoDup_fmap_1 in Hids).
  assert (Hndf : NoDup (List.filter is_unused (links s))).
  { apply NoDup_ListNoDup, List.NoDup_filter, NoDup_ListNoDup, Hnd. }
  assert (Hndrt : NoDup (row :: t)) by (by rewrite Hperm).
  apply NoDup_cons in Hndrt as [Hrt Hndt].
  assert (Hrow : row ∈ links s ∧ is_unused row = true).
  { apply elem_of_bool_filter. rewrite <- Hperm. apply list_elem_of_here. }
  destruct Hrow as [Hrow Hun].
  assert (Hids' : NoDup (l_id <$> links')).
  { subst links'. rewrite <- (use_row_exact order_id user_id row (links s) Hids Hrow).
    by rewrite use_row_ids. }
  assert (Hnd' : NoDup links') by (by apply NoDup_fmap_1 in Hids').
  assert (Hin' : ∀ x, x ∈ List.filter is_unused links' ↔ x ∈ t).
  { intros x. rewrite elem_of_bool_filter. split.
    - intros [(r & -> & Hr)%list_elem_of_fmap Hux].
      destruct (decide (r = row)) as [->|Hne]; [done|].
      assert (Hrf : r ∈ row :: t) by (rewrite Hperm; by apply elem_of_bool_filter).
      by apply elem_of_cons in Hrf as [?|?].
    - intros Hx.
      assert (Hxf : x ∈ List.filter is_unused (links s))
        by (rewrite <- Hperm; by apply list_elem_of_further).
      apply elem_of_bool_filter in Hxf as [Hxl Hxu]. split; [|done].
      apply list_elem_of_fmap. exists x. split; [|done].
      rewrite decide_False; [done|]. by intros ->. }
  apply (StronglySorted_unique_strong (key_le l_id)).
  - intros x1 x2 Hx1 Hx2 H12 H21.
    rewrite (order_by_perm l_id (List.filter is_unused links')) in Hx1.
    apply Hin' in Hx2. apply elem_of_bool_filter in Hx1 as [Hx1 _].
    apply elem_of_bool_filter in Hx2 as [Hx2 _].
    apply (NoDup_fmap_eq l_id links'); [done|done|done|]. unfold key_le in *. lia.
  - apply order_by_sorted.
  - by apply StronglySorted_inv in Hsorted as [? _].
  - rewrite (order_by_perm l_id (List.filter is_unused links')).
    apply NoDup_Permutation; [|done|done].
    apply NoDup_ListNoDup, List.NoDup_filter, NoDup_ListNoDup, Hnd'.
Qed.

(** A run of the loop leaves used links, and the orders it is not asked
    about, as they are. *)
Lemma fulfill_loop_keeps pending : ∀ s sent,
  links_wf s →
  (∀ x, x ∈ orders s → o_id x ∉ o_id <$> pending →
        x ∈ orders (fst (fulfill_loop pending s sent)))
  ∧ (∀ r, r ∈ links s → l_is_used r = true →
          r ∈ links (fst (fulfill_loop pending s sent))).
Proof.
  induction pending as [|o rest IH]; intros s sent Hwf; [done|].
  cbn [fulfill_loop].
  pose proof (pop_preserves_wf (o_id o) (o_user_id o) s Hwf) as Hwf1.
  pose proof (pop_head (o_id o) (o_user_id o) s Hwf) as Hpop.
  destruct (order_by l_id (List.filter is_unused (links s))) as [|row t].
  { by rewrite Hpop. }
  destruct Hpop as (Hrow & Hun & Hpop). rewrite Hpop in *. cbn [fst] in Hwf1.
  destruct (truthy (Some (l_link row))); [|cbn [fst]; clear IH].
  - set (s1 := set_order_delivered _ _ _).
    assert (Hwf1' : links_wf s1) by done.
    destruct (IH s1 (sent + 1) Hwf1') as [IHo IHl]. split.
    + intros x Hx Hnot. rewrite fmap_cons, not_elem_of_cons in Hnot.
      destruct Hnot as [Hne Hnot]. apply IHo; [|done].
      subst s1. cbn [orders set_order_delivered set_orders].
      apply list_elem_of_fmap. exists x. split; [by rewrite deliver_row_other|].
      apply list_elem_of_fmap. exists x. split; [by rewrite deliver_row_other|done].
    + intros r Hr Hru. apply IHl; [|done].
      subst s1. cbn [links set_order_delivered set_orders set_links].
      by apply used_row_stays.
  - split.
    + intros x Hx Hnot. rewrite fmap_cons, not_elem_of_cons in Hnot.
      destruct Hnot as [Hne Hnot]. cbn [orders set_orders].
      apply list_elem_of_fmap. exists x. split; [by rewrite deliver_row_other|done].
    + intros r Hr Hru. cbn [links set_orders set_links]. by apply used_row_stays.
Qed.

Lemma fulfill_loop_fifo pending : ∀ s sent,
  pool_ok s → NoDup (o_id <$> pending) →
  (∀ o, o ∈ pending → o ∈ orders s ∧ o_delivered_link o = None) →
  ∀ i o, pending !! i = Some o →
    match order_by l_id (List.filter is_unused (links s)) !! i with
    | Some r =>
        deliver_row (o_id o) (l_link r) o ∈ orders (fst (fulfill_loop pending s sent))
        ∧ taken (o_id o) (o_user_id o) r ∈ links (fst (fulfill_loop pending s sent))
    | None => o ∈ orders (fst (fulfill_loop pending s sent))
    end.
Proof.
  induction pending as [|o rest IH]; intros s sent Hok Hnd Hin i oi Hi; [done|].
  pose proof Hok as (Hwf & Hne & _).
  rewrite fmap_cons in Hnd. apply NoDup_cons in Hnd as [Hno Hnd].
  destruct (Hin o (list_elem_of_here _ _)) as [Ho Hnone].
  pose proof (pop_pool (o_id o) (o_user_id o) s o Hok Ho eq_refl eq_refl Hnone) as Hpool.
  cbv zeta in Hpool.
  pose proof (pop_head (o_id o) (o_user_id o) s Hwf) as Hpop.
  pose proof (avail_after_take (o_id o) (o_user_id o) s) as Hnext.
  cbn [fulfill_loop].
  destruct (order_by l_id (List.filter is_unused (links s))) as [|row t].
  { rewrite Hpop. cbn [truthy fst]. rewrite lookup_nil.
    apply list_elem_of_lookup_2 in Hi. by destruct (Hin oi Hi). }
  specialize (Hnext row t Hwf eq_refl).
  destruct Hpop as (Hrow & Hun & Hpop). rewrite Hpop in *. cbn [fst snd] in *.
  destruct Hpool as (Hok1 & Hlink & Hsame & Ho1).
  destruct (l_link row) as [|c link] eqn:Hlr; [done|]. cbn [truthy].
  change (default [] (Some (c :: link))) with (c :: link). rewrite Hsame.
  set (s1 := set_orders _ _ _) in *.
  assert (Hl1 : links s1
                = (λ r, if decide (r = row) then taken (o_id o) (o_user_id o) row else r)
                  <$> links s) by done.
  assert (Hrest : ∀ o', o' ∈ rest → o' ∈ orders s1 ∧ o_delivered_link o' = None).
  { intros o' Ho'. destruct (Hin o' (list_elem_of_further _ _ _ Ho')) as [Hos Hn'].
    split; [|done]. rewrite Ho1. apply list_elem_of_fmap. exists o'. split; [|done].
    symmetry. apply deliver_row_other. intros Heq. apply Hno. rewrite <- Heq.
    by apply list_elem_of_fmap_2. }
  destruct i as [|i]; cbn [lookup list_lookup] in *.
  - injection Hi as <-. rewrite Hlr.
    destruct (fulfill_loop_keeps rest s1 (sent + 1) (proj1 Hok1)) as [Hko Hkl]. split.
    + apply Hko; [|by rewrite deliver_row_id].
      rewrite Ho1. by apply list_elem_of_fmap_2.
    + apply Hkl; [|done]. rewrite Hl1. apply list_elem_of_fmap. exists row.
      by rewrite decide_True.
  - specialize (IH s1 (sent + 1) Hok1 Hnd Hrest i oi Hi).
    rewrite Hl1, Hnext in IH. exact IH.
Qed.

(** X19: a backfill run serves oldest first on both sides.  With the batch
    of waiting orders and the unused links both in ascending id order, the
    k-th order of the batch receives the k-th unused link, for as long as
    there are links: its row ends up delivered with that token, and the
    link ends up used by that order and its user.  The orders of the batch
    beyond the last unused link are left as they were. *)
Theorem fulfill_oldest_first (caller : Z) (s : store) :
  is_admin ADMIN_IDS caller = true → pool_ok s →
  let batch := list_pending_orders 50 s in
  let unused := order_by l_id (List.filter is_unused (links s)) in
  let s' := fst (admin_links_fulfill ADMIN_IDS caller s) in
  StronglySorted (key_le o_id) batch ∧ StronglySorted (key_le l_id) unused
  ∧ ∀ i o, batch !! i = Some o →
      match unused !! i with
      | Some r =>
          mk_order (o_id o) (o_user_id o) (o_plan_months o) (o_amount o)
                   "delivered" (Some (l_link r)) ∈ orders s'
          ∧ taken (o_id o) (o_user_id o) r ∈ links s'
      | None => o ∈ orders s'
      end.
Proof.
  intros Hadm Hok batch unused s'. split; [|split; [apply order_by_sorted|]].
  { destruct (list_pending_orders_oldest s) as (later & _ & Hs).
    fold batch in Hs. clear -Hs. induction batch as [|a l IH]; [constructor|].
    cbn [app] in Hs. apply StronglySorted_inv in Hs as [Hs Hall]. constructor; [by apply IH|].
    by apply Forall_app in Hall as [? _]. }
  intros i o Hi.
  destruct (list_pending_orders_waiting 50 s Hok) as [Hnd Hin]. fold batch in Hnd, Hin.
  pose proof (fulfill_loop_fifo batch s 0 Hok Hnd Hin i o Hi) as Hf. fold unused in Hf.
  assert (Hs' : s' = fst (fulfill_loop batch s 0)).
  { subst s'. unfold admin_links_fulfill. rewrite Hadm. cbn [negb]. fold batch.
    destruct batch as [|o0 rest] eqn:Hb; [done|].
    destruct (fulfill_loop (o0 :: rest) s 0) as [sf sent]. by destruct (_ && _). }
  rewrite Hs'. destruct (unused !! i) as [r|]; [|done].
  destruct Hf as [Hfo Hfl]. split; [|done].
  unfold deliver_row in Hfo. by rewrite decide_True in Hfo.
Qed.

End delivery.
Lemma purchase_delivers_oldest_token_witness :
  let now_utc := mkdt 2024 3 1 12 0 0 in
  let s := fst (add_wallet_balance 7 200000
                  (fst (add_links [[97%N]; [98%N]] empty_store))) in
  let base_iran := mkdt 2024 3 1 15 30 0 in
  let new_exp_iran := mkdt 2024 4 30 15 30 0 in
  let new_exp_utc := mkdt 2024 4 30 12 0 0 in
  links_wf s ∧ links_nonempty s
  ∧ PLANS !! 2 = Some 150000
  ∧ 150000 ≤ get_wallet_balance 7 s
  ∧ to_iran (renewal_base now_utc (get_subscription 7 s)) = Some base_iran
  ∧ add_months_shamsi base_iran 2 = Some new_exp_iran
  ∧ from_iran new_exp_iran = Some new_exp_utc
  ∧ snd (confirm_purchase now_utc 7 2 s) = PurchaseDelivered 50000 new_exp_iran
  ∧ orders (fst (confirm_purchase now_utc 7 2 s))
    = [mk_order 1 7 2 150000 "delivered" (Some [97%N])].
Proof.
  intros now_utc s base_iran new_exp_iran new_exp_utc.
  assert (Hwf : links_wf s) by (split; by_decide).
  assert (Hne : links_nonempty s) by by_decide.
  assert (Hplan : PLANS !! 2 = Some 150000) by reflexivity.
  assert (Hbal : 150000 ≤ get_wallet_balance 7 s) by (vm_compute; discriminate).
  assert (Hto : to_iran (renewal_base now_utc (get_subscription 7 s)) = Some base_iran)
    by (vm_compute; reflexivity).
  assert (Hadd : add_months_shamsi base_iran 2 = Some new_exp_iran)
    by (vm_compute; reflexivity).
  assert (Hfrom : from_iran new_exp_iran = Some new_exp_utc) by (vm_compute; reflexivity).
  split; [exact Hwf|]. split; [exact Hne|]. split; [exact Hplan|]. split; [exact Hbal|].
  split; [exact Hto|]. split; [exact Hadd|]. split; [exact Hfrom|].
  destruct (purchase_delivers_oldest_token now_utc 7 2 150000 s
              base_iran new_exp_iran new_exp_utc Hwf Hne Hplan Hbal Hto Hadd Hfrom)
    as [_ H].
  change (order_by l_id (List.filter is_unused (links s)))
    with [mk_link 1 [97%N] false None None; mk_link 2 [98%N] false None None] in H.
  destruct H as (_ & _ & _ & Hans & Hord & _).
  split; [exact Hans|exact Hord].
Defined.

Lemma fulfill_oldest_first_witness :
  let admins : gset Z := {[1]} in
  let s := backlog 2 in
  is_admin admins 1 = true ∧ pool_ok s
  ∧ mk_order 2 7 2 150000 "delivered" (Some [66%N])
    ∈ orders (fst (admin_links_fulfill admins 1 s)).
Proof.
  intros admins s.
  assert (Hadm : is_admin admins 1 = true) by (vm_compute; reflexivity).
  split; [exact Hadm|]. split; [exact (backlog_pool 2)|].
  destruct (fulfill_oldest_first admins 1 s Hadm (backlog_pool 2)) as (_ & _ & H).
  specialize (H 1%nat (mk_order 2 7 2 150000 "paid_waiting_link" None) eq_refl).
  change (order_by l_id (List.filter is_unused (links s)) !! 1%nat)
    with (Some (mk_link 2 [66%N] false None None)) in H.
  exact (proj1 H).
Defined.

(** ** Referral counts *)

Section referral_counts.

(** The rows of [referrals] after [start]: one more row exactly when the
    payload names another user and the caller had no referrer. *)
Lemma start_referrals_rows u un fn payload d :
  referrals_ok d →
  referrals (start u un fn payload d)
  = match payload, users (tables d) !! u ≫= u_referrer_id with
    | Some p, None =>
        if p =? u then referrals d
        else referrals d
               ++ [mk_referral (next_rowid (referrals_seq d) (r_id <$> referrals d)) p u]
    | _, _ => referrals d
    end.
Proof.
  intros (_ & Hrows & _). unfold start.
  set (s0 := upsert_user u un fn (tables d)).
  pose proof (upsert_user_lookup u un fn (tables d)) as Hu0. fold s0 in Hu0.
  destruct payload as [p|]; [|done].
  destruct (Z.eqb_spec p u) as [?|Hpu]; cbn [negb]; [by destruct (_ ≫= _)|].
  cbn [tables set_tables]. unfold set_referrer_if_empty. rewrite Hu0.
  cbn [u_referrer_id].
  destruct (users (tables d) !! u ≫= u_referrer_id) as [r|] eqn:Hold; [done|].
  unfold add_referral. cbn [referrals set_tables tables referrals_seq].
  rewrite decide_False; [done|].
  intros (row & Hid & Hrow)%list_elem_of_fmap.
  destruct (Hrows row Hrow) as (_ & usr & Hu & Hr). rewrite <- Hid in Hu.
  rewrite Hu in Hold. cbn in Hold. congruence.
Qed.

Lemma upsert_user_profit r u un fn s :
  get_referral_profit r (upsert_user u un fn s) = get_referral_profit r s.
Proof.
  unfold get_referral_profit, upsert_user. cbn [referral_profits].
  destruct (referral_profits s !! u) eqn:Hu; [done|].
  destruct (decide (r = u)) as [->|Hne].
  - by rewrite lookup_insert_eq, Hu.
  - by rewrite lookup_insert_ne.
Qed.

Lemma start_referral_profit r u un fn payload d :
  get_referral_profit r (tables (start u un fn payload d))
  = get_referral_profit r (tables d).
Proof.
  rewrite <- (upsert_user_profit r u un fn (tables d)).
  unfold start. destruct payload as [p|]; [|reflexivity].
  destruct (negb (p =? u)); [|reflexivity]. cbn [tables set_tables].
  unfold set_referrer_if_empty.
  destruct (users (upsert_user u un fn (tables d)) !! u) as [usr|]; [|reflexivity].
  destruct (u_referrer_id usr); [reflexivity|]. unfold add_referral.
  cbn [referrals set_tables tables]. by destruct (decide _).
Qed.

(** X20: on a database whose [referrals] table agrees with the
    [referrer_id] column, a [start] whose payload names another user, by a
    user without a referrer, raises the count [get_referral_stats] reports
    for the named user by one; any other [start] leaves that count, and
    every [start] leaves every other user's count and every profit, as they
    were.  The payload is a 64-bit integer. *)
Theorem start_counts_referral
    (u : Z) (un fn : option pystr) (payload : option Z) (d : database) :
  referrals_ok d →
  (∀ p, payload = Some p → int64 p = true) →
  let d' := start u un fn payload d in
  let fresh := bool_decide (get_user u (tables d) ≫= u_referrer_id = None) in
  ∀ r,
    fst (get_referral_stats r d')
    = fst (get_referral_stats r d)
      + (if bool_decide (payload = Some r) && negb (r =? u) && fresh then 1 else 0)
    ∧ snd (get_referral_stats r d') = snd (get_referral_stats r d).
Proof.
  intros Hok _ d' fresh r. subst d' fresh. unfold get_referral_stats, get_user.
  cbn [fst snd]. split.
  2:{ apply start_referral_profit. }
  rewrite (start_referrals_rows u un fn payload d Hok).
  destruct payload as [p|].
  2:{ rewrite bool_decide_eq_false_2 by done. cbn [andb]. lia. }
  destruct (users (tables d) !! u ≫= u_referrer_id) as [r0|] eqn:Hold.
  { rewrite (bool_decide_eq_false_2 (Some r0 = None)) by done.
    rewrite andb_false_r. lia. }
  rewrite (bool_decide_eq_true_2 (None = None)) by done. rewrite andb_true_r.
  destruct (decide (p = r)) as [->|Hne].
  - rewrite bool_decide_eq_true_2 by done. cbn [andb].
    destruct (Z.eqb_spec r u) as [?|Hru]; cbn [negb]; [lia|].
    rewrite List.filter_app, length_app. cbn [List.filter r_referrer_id].
    rewrite bool_decide_eq_true_2 by done. cbn [length]. lia.
  - rewrite bool_decide_eq_false_2 by congruence. cbn [andb].
    destruct (Z.eqb_spec p u) as [?|Hpu]; [lia|].
    rewrite List.filter_app, length_app. cbn [List.filter r_referrer_id].
    rewrite bool_decide_eq_false_2 by done. cbn [length]. lia.
Qed.

End referral_counts.
Lemma start_counts_referral_witness :
  let d := start 3 None None None empty_database in
  let d' := start 7 None None (Some 3) d in
  referrals_ok d
  ∧ (∀ p, Some 3 = Some p → int64 p = true)
  ∧ fst (get_referral_stats 3 d') = 1
  ∧ fst (get_referral_stats 3 (start 7 None None (Some 3) d')) = 1.
Proof.
  intros d d'.
  assert (Hd : referrals_ok d)
    by exact (start_referrals 3 None None None empty_database empty_database_referrals).
  assert (Hd' : referrals_ok d') by exact (start_referrals 7 None None (Some 3) d Hd).
  assert (H3 : ∀ p, Some 3 = Some p → int64 p = true) by (by intros p [= <-]).
  split; [exact Hd|]. split; [exact H3|]. split.
  - exact (proj1 (start_counts_referral 7 None None (Some 3) d Hd H3 3)).
  - exact (proj1 (start_counts_referral 7 None None (Some 3) d' Hd' H3 3)).
Defined.

(** ** Stocking the pool *)

Section stocking.

Context (ADMIN_IDS : gset Z).

Lemma strip_idemp t : strip (strip t) = strip t.
Proof.
  destruct (strip_ends t) as [Hh Hl]. unfold strip at 1.
  rewrite (lstrip_keeps (strip t)) by done.
  rewrite lstrip_keeps; [apply reverse_involutive|].
  intros c. rewrite head_reverse. apply Hl.
Qed.

Lemma lstrip_Forall (P : N → Prop) t : Forall P t → Forall P (lstrip t).
Proof.
  intros H. destruct (lstrip_suffix t) as [pre Hpre]. rewrite Hpre in H.
  by apply Forall_app in H as [_ ?].
Qed.

Lemma strip_Forall (P : N → Prop) t : Forall P t → Forall P (strip t).
Proof.
  intros H. unfold strip.
  by apply Forall_reverse, lstrip_Forall, Forall_reverse, lstrip_Forall.
Qed.

(** No line [splitlines] returns holds a line break. *)
Lemma splitlines_from_unbroken n : ∀ t line,
  (length t ≤ n)%nat →
  Forall (λ c, is_linebreak c = false) line →
  Forall (Forall (λ c, is_linebreak c = false)) (splitlines_from line t).
Proof.
  induction n as [|n IH]; intros t line Hlen Hline.
  - destruct t; [|cbn in Hlen; lia]. cbn [splitlines_from].
    destruct line; [constructor|]. constructor; [by apply Forall_reverse|constructor].
  - destruct t as [|c t'].
    { cbn [splitlines_from].
      destruct line; [constructor|]. constructor; [by apply Forall_reverse|constructor]. }
    cbn [length] in Hlen. cbn [splitlines_from].
    destruct (is_linebreak c) eqn:Hc.
    + constructor; [by apply Forall_reverse|].
      assert (H1 : Forall (Forall (λ c, is_linebreak c = false)) (splitlines_from [] t'))
        by (apply IH; [lia|constructor]).
      assert (H2 : ∀ t'', t' = 10%N :: t'' →
                Forall (Forall (λ c, is_linebreak c = false)) (splitlines_from [] t'')).
      { intros t'' ->. apply IH; [cbn [length] in Hlen; lia|constructor]. }
      destruct c as [|p]; [exact H1|].
      destruct t' as [|c' t'']; [by repeat (destruct p; try exact H1)|].
      destruct (decide (c' = 10%N)) as [->|Hne].
      * specialize (H2 t'' eq_refl). by repeat (destruct p; try exact H1; try exact H2).
      * destruct c' as [|q]; [by repeat (destruct p; try exact H1)|].
        repeat (destruct p; try exact H1);
          repeat (destruct q; try exact H1; try done).
    + apply IH; [lia|]. by constructor.
Qed.

Lemma splitlines_unbroken t :
  Forall (Forall (λ c, is_linebreak c = false)) (splitlines t).
Proof. apply (splitlines_from_unbroken (length t)); [lia|constructor]. Qed.

Lemma count_links_app rows s s' :
  links s' = links s ++ rows → Forall (λ r, l_is_used r = false) rows →
  count_links s'
  = (fst (count_links s) + Z.of_nat (length rows), snd (count_links s)).
Proof.
  intros Hl Hrows. unfold count_links. cbn [fst snd]. rewrite Hl, !List.filter_app.
  assert (H1 : List.filter is_unused rows = rows).
  { clear Hl. induction Hrows as [|r rows Hr _ IH]; [done|]. cbn [List.filter].
    unfold is_unused at 1. rewrite Hr. cbn [negb]. by rewrite IH. }
  assert (H2 : List.filter l_is_used rows = []).
  { clear Hl H1. induction Hrows as [|r rows Hr _ IH]; [done|]. cbn [List.filter].
    by rewrite Hr. }
  rewrite H1, H2, app_nil_r, length_app. f_equal. lia.
Qed.

(** X21: what an operator's message does to the pool.  The word "done", in
    any mix of cases and with blanks around it, ends the conversation and
    stores nothing.  Any other message appends rows only, all unused; the
    reply states their number, the unused count grown by exactly that
    number and the used count unchanged.  Every token stored is a line of
    the message with the blanks around it removed: it is not empty, starts
    and ends with a non-blank character, holds no line break and was not in
    the pool before. *)
Theorem admin_links_add_receive_lines (caller : Z) (text : option pystr) (s : store) :
  is_admin ADMIN_IDS caller = true →
  let txt := strip (default [] text) in
  let s' := fst (admin_links_add_receive ADMIN_IDS caller text s) in
  if lower_is_done txt
  then admin_links_add_receive ADMIN_IDS caller text s = (s, AddingDone)
  else
    ∃ rows,
      links s' = links s ++ rows
      ∧ snd (admin_links_add_receive ADMIN_IDS caller text s)
        = LinksAdded (Z.of_nat (length rows))
            (fst (count_links s) + Z.of_nat (length rows)) (snd (count_links s))
      ∧ NoDup (l_link <$> rows)
      ∧ ∀ r, r ∈ rows →
          l_is_used r = false
          ∧ (∃ line, line ∈ splitlines txt ∧ l_link r = strip line)
          ∧ l_link r ≠ []
          ∧ (∀ c, head (l_link r) = Some c → is_space c = false)
          ∧ (∀ c, last (l_link r) = Some c → is_space c = false)
          ∧ Forall (λ c, is_linebreak c = false) (l_link r)
          ∧ l_link r ∉ l_link <$> links s.
Proof.
  intros Hadm txt s'. subst s'. unfold admin_links_add_receive. rewrite Hadm.
  cbn [negb]. fold txt. destruct (lower_is_done txt); [done|].
  set (lines := strip <$> List.filter nonblank (splitlines txt)).
  assert (Hloop : add_links lines s = add_links_loop lines s 0) by (by destruct lines).
  rewrite Hloop.
  destruct (add_links_loop_spec lines s 0) as (rows & Hl & Hv & Hu & Hn).
  pose proof (fresh_values_NoDup (l_link <$> links s) (strip <$> lines)) as Hnd.
  pose proof (fresh_values_elem (l_link <$> links s) (strip <$> lines)) as Hin.
  destruct (add_links_loop lines s 0) as [s1 inserted]. cbn [fst snd] in Hl, Hn.
  exists rows.
  assert (Hcount : count_links s1
                   = (fst (count_links s) + Z.of_nat (length rows), snd (count_links s))).
  { apply count_links_app; [done|]. eapply Forall_impl; [exact Hu|]. by intros r (? & _). }
  rewrite Hcount. cbn [fst snd]. split; [done|]. split; [rewrite Hn; f_equal; lia|].
  split; [by rewrite Hv|].
  intros r Hr.
  assert (Hval : l_link r ∈ l_link <$> rows) by (by apply list_elem_of_fmap_2).
  rewrite Hv in Hval. apply Hin in Hval as (Hsrc & Hne & Hfresh).
  apply list_elem_of_fmap in Hsrc as (l1 & Hl1 & Hsrc).
  apply list_elem_of_fmap in Hsrc as (line & -> & Hline).
  rewrite strip_idemp in Hl1.
  apply elem_of_bool_filter in Hline as [Hline _].
  split; [by destruct (proj1 (Forall_forall _ _) Hu r Hr)|].
  split; [by exists line|]. split; [done|].
  rewrite Hl1. destruct (strip_ends line) as [Hh Hla].
  split; [done|]. split; [done|]. split; [|by rewrite <- Hl1].
  apply strip_Forall.
  by apply (proj1 (Forall_forall _ _) (splitlines_unbroken txt)).
Qed.

End stocking.
Lemma admin_links_add_receive_lines_witness :
  let admins : gset Z := {[1]} in
  let s := fst (add_links [[97%N]] empty_store) in
  is_admin admins 1 = true
  ∧ admin_links_add_receive admins 1 (Some [32; 68; 111; 78; 101; 10]%N) s = (s, AddingDone)
  ∧ snd (admin_links_add_receive admins 1 (Some [97; 13; 10; 32; 98; 10; 10; 99]%N) s)
    = LinksAdded 2 3 0.
Proof.
  intros admins s.
  assert (Hadm : is_admin admins 1 = true) by (vm_compute; reflexivity).
  split; [exact Hadm|]. split.
  - exact (admin_links_add_receive_lines admins 1 (Some [32; 68; 111; 78; 101; 10]%N) s Hadm).
  - destruct (admin_links_add_receive_lines admins 1
                (Some [97; 13; 10; 32; 98; 10; 10; 99]%N) s Hadm)
      as (rows & Hrows & Hans & _).
    assert (Hr : rows = [mk_link 2 [98%N] false None None; mk_link 3 [99%N] false None None])
      by (vm_compute in Hrows; congruence).
    rewrite Hans, Hr. reflexivity.
Defined.

(** ** The operator's list of links *)

Section link_listing.

Lemma StronglySorted_take {A : Type} (R : relation A) (l : list A) (n : nat) :
  StronglySorted R l → StronglySorted R (take n l).
Proof.
  intros Hs. revert n. induction Hs as [|x l Hs IH Hx]; intros n; [rewrite take_nil; constructor|].
  destruct n as [|n]; [constructor|]. cbn [take]. constructor; [apply IH|].
  by apply Forall_take.
Qed.

Lemma sorted_keys_strict {A : Type} (key : A → Z) (l : list A) :
  StronglySorted (key_le key) l → NoDup (key <$> l) → StronglySorted Z.lt (key <$> l).
Proof.
  induction 1 as [|x l Hs IH Hx]; [constructor|].
  rewrite fmap_cons, NoDup_cons. intros [Hnin Hnd]. constructor; [by apply IH|].
  apply Forall_fmap, Forall_forall. intros y Hy. cbn.
  pose proof (proj1 (Forall_forall _ _) Hx y Hy) as Hle. unfold key_le in Hle.
  assert (key x ≠ key y); [|lia].
  intros Heq. apply Hnin. rewrite Heq. by apply list_elem_of_fmap_2.
Qed.

(** X22: on a pool with unique ids, [list_available_links] shows unused
    links only, in strictly ascending id order, as many as the limit allows
    of those [count_links] counts (all of them under a negative limit); and
    unless the limit is 0, the first one shown is the token the allocator
    hands to the next order. *)
Theorem list_available_links_next (limit : Z) (s : store) :
  links_wf s →
  let shown := list_available_links limit s in
  (∀ i t, (i, t) ∈ shown →
     ∃ r, r ∈ links s ∧ l_is_used r = false ∧ l_id r = i ∧ l_link r = t)
  ∧ StronglySorted Z.lt shown.*1
  ∧ Z.of_nat (length shown)
    = (if limit <? 0 then fst (count_links s) else Z.min limit (fst (count_links s)))
  ∧ (limit ≠ 0 → ∀ order_id user_id,
       snd (pop_available_link_for_order order_id user_id s) = snd <$> head shown).
Proof.
  intros [Hids Hvals] shown. subst shown. unfold list_available_links.
  set (sorted := order_by l_id (List.filter is_unused (links s))).
  assert (Hperm : sorted ≡ₚ List.filter is_unused (links s)) by apply order_by_perm.
  assert (Hsorted : StronglySorted (key_le l_id) sorted) by apply order_by_sorted.
  assert (Hsub : sql_limit limit sorted `sublist_of` sorted).
  { unfold sql_limit. destruct (limit <? 0); [reflexivity|apply sublist_take]. }
  assert (Hnd : NoDup (l_id <$> sorted)).
  { rewrite Hperm. apply (sublist_NoDup _ (l_id <$> links s)); [done|].
    apply fmap_sublist. clear. induction (links s) as [|r l IH]; [done|].
    cbn [List.filter]. destruct (is_unused r); [by apply sublist_skip|by apply sublist_cons]. }
  split; [|split; [|split]].
  - intros i t (r & [= -> ->] & Hr)%list_elem_of_fmap.
    apply (elem_of_sublist _ _ _ Hr) in Hsub. rewrite Hperm in Hsub.
    apply elem_of_bool_filter in Hsub as [Hin Hun]. apply negb_true_iff in Hun.
    by exists r.
  - rewrite <- list_fmap_compose.
    change (fst ∘ (λ r : link_row, (l_id r, l_link r))) with l_id.
    apply sorted_keys_strict.
    + unfold sql_limit. destruct (limit <? 0); [done|by apply StronglySorted_take].
    + apply (sublist_NoDup _ (l_id <$> sorted)); [done|by apply fmap_sublist].
  - rewrite length_fmap. unfold count_links. cbn [fst].
    rewrite <- (Permutation_length Hperm).
    unfold sql_limit. destruct (Z.ltb_spec limit 0); [done|].
    rewrite length_take, Nat2Z.inj_min, Z2Nat.id by done. done.
  - intros Hne order_id user_id. unfold pop_available_link_for_order. fold sorted.
    assert (Hhead : head (sql_limit limit sorted) = head sorted).
    { unfold sql_limit. destruct (Z.ltb_spec limit 0); [done|].
      destruct (Z.to_nat limit) as [|n] eqn:Hn; [lia|]. by destruct sorted. }
    destruct (sql_limit limit sorted) as [|r0 t0] eqn:Hlim.
    + destruct sorted as [|row t]; [done|]. discriminate Hhead.
    + destruct sorted as [|row t]; [discriminate Hhead|]. injection Hhead as ->.
      change (sql_limit 1 (row :: t)) with [row]. done.
Qed.

End link_listing.
Lemma list_available_links_next_witness :
  let s := fst (add_links [[97%N]; [98%N]; [99%N]] empty_store) in
  links_wf s
  ∧ list_available_links 2 s = [(1, [97%N]); (2, [98%N])]
  ∧ snd (pop_available_link_for_order 1 7 s) = Some [97%N].
Proof.
  intros s.
  assert (Hwf : links_wf s) by (split; by_decide).
  split; [exact Hwf|]. split; [vm_compute; reflexivity|].
  destruct (list_available_links_next 2 s Hwf) as (_ & _ & _ & Hnext).
  assert (Hne : 2 ≠ 0) by lia.
  exact (Hnext Hne 1 7).
Defined.
